(** * notion2memos: a shallow embedding of the migration pipeline

    The development follows the Go sources of the repository:
    - [internal/notion/client.go]: the data model of the source service,
      the paginated fetch loops, the title accessor and the Markdown
      renderer ([BlocksToMarkdown], [blockToMarkdown], [sanitizeTag]);
    - [internal/config/config.go]: the processed-pages state tracker;
    - [internal/migrate/migrator.go]: title and resume filters, the
      ancestor walk that derives tags, the splitter and the orchestrator.

    The sources hold two versions of the migrator; the later one, with
    tags, caches and splitting, is the one modelled.

    Go strings are byte sequences and are modelled by [string]; Go maps
    are modelled by [gmap]; a Go [error] is modelled by its message. *)

From Stdlib Require Import Ascii ZArith.
From stdpp Require Import gmap strings list fin_maps pretty.

Local Open Scope stdpp_scope.

(** ** Values returned by fallible calls *)

Inductive result (A : Type) : Type :=
| Ok (a : A)
| Err (msg : string).
Arguments Ok {A} a.
Arguments Err {A} msg.

(** [fmt.Errorf("<ctx>: %w", err)] *)
Definition wrapErr (ctx : string) (err : string) : string := ctx +:+ ": " +:+ err.

(** ** Bytes and byte strings *)

Module Bytes.

Definition LF : ascii := "010"%char.
Definition TAB : ascii := "009"%char.
Definition nl : string := String LF "".

(** [len(s)] is [String.length s]; [s[i]] is [String.get i s]. *)

(** [s[:n]] *)
Fixpoint take (n : nat) (s : string) : string :=
  match n, s with
  | S n', String c s' => String c (take n' s')
  | _, _ => ""
  end.

(** [s[n:]] *)
Fixpoint drop (n : nat) (s : string) : string :=
  match n, s with
  | S n', String _ s' => drop n' s'
  | _, _ => s
  end.

(** [strings.HasPrefix(s, p)] *)
Fixpoint HasPrefix (s p : string) {struct p} : bool :=
  match p, s with
  | "", _ => true
  | String a p', String b s' => if decide (a = b) then HasPrefix s' p' else false
  | String _ _, "" => false
  end.

(** [strings.ReplaceAll(s, old, new)] for one-byte [old] and [new]. *)
Fixpoint ReplaceAll (s : string) (old new : ascii) : string :=
  match s with
  | "" => ""
  | String c s' => String (if decide (c = old) then new else c) (ReplaceAll s' old new)
  end.

(** Keep the bytes that satisfy [f], in order. *)
Fixpoint filter (f : ascii -> bool) (s : string) : string :=
  match s with
  | "" => ""
  | String c s' => if f c then String c (filter f s') else filter f s'
  end.

Fixpoint all (f : ascii -> bool) (s : string) : bool :=
  match s with
  | "" => true
  | String c s' => f c && all f s'
  end.

Fixpoint replicate (n : nat) (c : ascii) : string :=
  match n with
  | 0 => ""
  | S n' => String c (replicate n' c)
  end.

(** [strings.Join(l, sep)] *)
Fixpoint Join (l : list string) (sep : string) : string :=
  match l with
  | [] => ""
  | [x] => x
  | x :: l' => x +:+ sep +:+ Join l' sep
  end.

(** [strings.Split(s, "\n")]: the lines of [s]; always at least one. *)
Fixpoint SplitLines (s : string) : list string :=
  match s with
  | "" => [""]
  | String c s' =>
      if decide (c = LF) then "" :: SplitLines s'
      else match SplitLines s' with
           | [] => [String c ""]
           | l :: ls => String c l :: ls
           end
  end.

Lemma app_nil_l (s : string) : "" +:+ s = s.
Proof. reflexivity. Qed.

Lemma app_cons (c : ascii) (s t : string) : String c s +:+ t = String c (s +:+ t).
Proof. reflexivity. Qed.

Lemma length_app (s t : string) :
  String.length (s +:+ t) = String.length s + String.length t.
Proof. induction s as [|c s IH]; [done |]. rewrite app_cons; simpl. by rewrite IH. Qed.

Lemma app_nil_r (s : string) : s +:+ "" = s.
Proof. induction s as [|c s IH]; [done |]. by rewrite app_cons, IH. Qed.

Lemma app_assoc (s t u : string) : (s +:+ t) +:+ u = s +:+ t +:+ u.
Proof. induction s as [|c s IH]; [done |]. by rewrite !app_cons, IH. Qed.

Lemma take_drop (n : nat) (s : string) : take n s +:+ drop n s = s.
Proof.
  revert s; induction n as [|n IH]; intros [|c s]; simpl; try done.
  by rewrite app_cons, IH.
Qed.

Lemma length_take (n : nat) (s : string) :
  String.length (take n s) = n `min` String.length s.
Proof.
  revert s; induction n as [|n IH]; intros [|c s]; simpl; try done.
  by rewrite IH.
Qed.

Lemma length_drop (n : nat) (s : string) :
  String.length (drop n s) = String.length s - n.
Proof.
  revert s; induction n as [|n IH]; intros [|c s]; simpl; try done.
Qed.

Lemma length_replicate (n : nat) (c : ascii) : String.length (replicate n c) = n.
Proof. induction n as [|n IH]; simpl; [done | by rewrite IH]. Qed.

Lemma SplitLines_nonempty (s : string) : SplitLines s <> [].
Proof.
  induction s as [|c s IH]; simpl; [done |].
  case_decide; [done |]. by destruct (SplitLines s).
Qed.

(** Splitting at newlines and joining with newlines is the identity. *)
Lemma Join_SplitLines (s : string) : Join (SplitLines s) nl = s.
Proof.
  induction s as [|c s IH]; simpl; [done |].
  pose proof (SplitLines_nonempty s) as Hne.
  case_decide as Hc.
  - subst c. destruct (SplitLines s) as [|l ls] eqn:E; [done |].
    change (Join ("" :: l :: ls) nl) with (nl +:+ Join (l :: ls) nl).
    by rewrite IH.
  - destruct (SplitLines s) as [|l ls] eqn:E; [done |].
    destruct ls as [|l' ls]; simpl in *; by rewrite <- IH.
Qed.

End Bytes.

(** ** Tag sanitization ([internal/notion], [sanitizeTag]) *)

(** The condition of the loop body of [sanitizeTag]:
    [(r >= 'a' && r <= 'z') || (r >= 'A' && r <= 'Z') ||
     (r >= '0' && r <= '9') || r == '_' || r == '-'].
    The loop ranges over runes; every rune that passes the test is a
    one-byte rune, and every byte of a longer or invalid encoding is at
    least 128 and fails it, so the test is applied byte by byte. *)
Definition tagRune (r : ascii) : bool :=
  let n := nat_of_ascii r in
  ((97 <=? n) && (n <=? 122)) || ((65 <=? n) && (n <=? 90)) ||
  ((48 <=? n) && (n <=? 57)) || bool_decide (r = "_"%char) || bool_decide (r = "-"%char).

Definition sanitizeTag (tag : string) : string :=
  let tag := Bytes.ReplaceAll tag " "%char "_"%char in
  let tag := Bytes.ReplaceAll tag "."%char "_"%char in
  Bytes.filter tagRune tag.

(** The whitespace bytes: space, tab, line feed, vertical tab, form feed
    and carriage return. *)
Definition isWhitespace (c : ascii) : bool :=
  let n := nat_of_ascii c in (n =? 32) || ((9 <=? n) && (n <=? 13)).

(** Sanitization as the specification words it: whitespace and '.' become
    '_', and what is then outside letters, digits, '_' and '-' is dropped. *)
Fixpoint sanitize_as_specified (tag : string) : string :=
  match tag with
  | "" => ""
  | String c s =>
      if isWhitespace c || bool_decide (c = "."%char)
      then String "_"%char (sanitize_as_specified s)
      else if tagRune c then String c (sanitize_as_specified s)
      else sanitize_as_specified s
  end.

(** What [sanitizeTag] computes, byte by byte. *)
Fixpoint sanitize_bytewise (tag : string) : string :=
  match tag with
  | "" => ""
  | String c s =>
      if bool_decide (c = " "%char) || bool_decide (c = "."%char)
      then String "_"%char (sanitize_bytewise s)
      else if tagRune c then String c (sanitize_bytewise s)
      else sanitize_bytewise s
  end.

Lemma tagRune_not_space_dot (c : ascii) :
  tagRune c = true -> c <> " "%char /\ c <> "."%char.
Proof. intros H; split; intros ->; by vm_compute in H. Qed.

Lemma sanitizeTag_cons (c : ascii) (s : string) :
  sanitizeTag (String c s) =
    if bool_decide (c = " "%char) || bool_decide (c = "."%char)
    then String "_"%char (sanitizeTag s)
    else if tagRune c then String c (sanitizeTag s) else sanitizeTag s.
Proof.
  unfold sanitizeTag; simpl.
  destruct (decide (c = " "%char)) as [->|Hs]; [done |].
  rewrite (bool_decide_eq_false_2 _ Hs); simpl.
  destruct (decide (c = "."%char)) as [->|Hd]; [done |].
  by rewrite (bool_decide_eq_false_2 _ Hd).
Qed.

Lemma sanitizeTag_bytewise (s : string) : sanitizeTag s = sanitize_bytewise s.
Proof.
  induction s as [|c s IH]; [done |].
  rewrite sanitizeTag_cons; simpl. by rewrite IH.
Qed.

Lemma sanitizeTag_all_tagRune (s : string) : Bytes.all tagRune (sanitizeTag s) = true.
Proof.
  induction s as [|c s IH]; [done |].
  rewrite sanitizeTag_cons.
  destruct (bool_decide (c = " "%char) || bool_decide (c = "."%char)); simpl; [done |].
  destruct (tagRune c) eqn:E; simpl; [by rewrite E | done].
Qed.

Lemma sanitizeTag_fixed (s : string) : Bytes.all tagRune s = true -> sanitizeTag s = s.
Proof.
  induction s as [|c s IH]; [done |]; simpl.
  intros [Hc Hs]%andb_prop. rewrite sanitizeTag_cons.
  destruct (tagRune_not_space_dot c Hc) as [H1 H2].
  rewrite (bool_decide_eq_false_2 _ H1), (bool_decide_eq_false_2 _ H2); simpl.
  by rewrite Hc, IH.
Qed.

(** C6, as amended: [sanitizeTag] maps every space (the byte 32) and every
    '.' to '_', keeps the ASCII letters, the digits, '_' and '-', drops
    every other byte (tabs and newlines included), and is idempotent. *)
Theorem sanitizeTag_spec (x : string) :
  sanitizeTag x = sanitize_bytewise x /\
  Bytes.all tagRune (sanitizeTag x) = true /\
  sanitizeTag (sanitizeTag x) = sanitizeTag x.
Proof.
  split; [apply sanitizeTag_bytewise |].
  split; [apply sanitizeTag_all_tagRune |].
  apply sanitizeTag_fixed, sanitizeTag_all_tagRune.
Qed.

(** C6, as stated, fails on a tab: the tab of "a<TAB>b" is dropped, not
    mapped to '_'. *)
Lemma sanitizeTag_tab_dropped :
  isWhitespace Bytes.TAB = true /\
  sanitizeTag (String "a" (String Bytes.TAB "b")) = "ab" /\
  sanitize_as_specified (String "a" (String Bytes.TAB "b")) = "a_b" /\
  ~ (forall x, sanitizeTag x = sanitize_as_specified x).
Proof.
  repeat split; try reflexivity.
  intros H. specialize (H (String "a" (String Bytes.TAB "b"))). by vm_compute in H.
Qed.

Example sanitizeTag_My_Tag : sanitizeTag "My Tag." = "My_Tag_".
Proof. reflexivity. Qed.

(** ** The data model of the source service ([internal/notion]) *)

(** Only the fields that the code reads are kept. A Go pointer that may
    be [nil] is an [option]. *)

Record Link := { URL : string }.

Record TextContent := { Content : string; TextLink : option Link }.

Record Annotations := {
  Bold : bool;
  Italic : bool;
  Strikethrough : bool;
  Underline : bool;
  InlineCode : bool
}.

Record RichText := {
  Text : option TextContent;
  Annots : option Annotations;
  PlainText : string;
  Href : option string
}.

(** [ParagraphBlock], [HeadingBlock] and [ListBlock] have the same fields. *)
Record TextBlock := { RichTexts : list RichText }.
Record ToDoBlock := { ToDo_RichTexts : list RichText; Checked : bool }.
Record CodeBlock := { Code_RichTexts : list RichText; Language : string }.

Record Block := {
  Block_ID : string;
  Block_Type : string;
  Paragraph : option TextBlock;
  Heading1 : option TextBlock;
  Heading2 : option TextBlock;
  Heading3 : option TextBlock;
  BulletedList : option TextBlock;
  NumberedList : option TextBlock;
  ToDo : option ToDoBlock;
  Code : option CodeBlock
}.

Record Property := {
  Property_ID : string;
  Property_Type : string;
  Title : list RichText
}.

(** [Properties] is a Go map that [GetPageTitle] ranges over; the list
    gives its entries in the order in which the range visits them.
    [Parent] is the decoded JSON object of the parent reference, read
    only by the parent accessors. *)
Record Page := {
  ID : string;
  CreatedTime : string;
  Parent : gmap string string;
  Properties : list (string * Property)
}.

Record SearchResponse := {
  Search_Results : list Page;
  Search_NextCursor : option string;
  Search_HasMore : bool
}.

Record BlockResponse := {
  Block_Results : list Block;
  Block_NextCursor : option string;
  Block_HasMore : bool
}.

(** [GetPageTitle]: the plain text of the first run of the first visited
    property of type "title" that has runs; "Untitled" without one. *)
Fixpoint GetPageTitle_range (props : list (string * Property)) : string :=
  match props with
  | [] => "Untitled"
  | (_, prop) :: rest =>
      if bool_decide (Property_Type prop = "title") then
        match Title prop with
        | rt :: _ => PlainText rt
        | [] => GetPageTitle_range rest
        end
      else GetPageTitle_range rest
  end.

Definition GetPageTitle (p : Page) : string := GetPageTitle_range (Properties p).

(** ** Rendering ([internal/notion], [BlocksToMarkdown]) *)

(** The body of the loop of [richTextToMarkdown] for one run. *)
Definition richTextRun (rt : RichText) : string :=
  let text := PlainText rt in
  if bool_decide (text = "") then ""
  else
    let text :=
      match Annots rt with
      | Some a =>
          let text := if InlineCode a then "`" +:+ text +:+ "`" else text in
          let text := if Bold a then "**" +:+ text +:+ "**" else text in
          let text := if Italic a then "*" +:+ text +:+ "*" else text in
          if Strikethrough a then "~~" +:+ text +:+ "~~" else text
      | None => text
      end in
    let link (target : string) := "[" +:+ text +:+ "](" +:+ target +:+ ")" in
    match Href rt with
    | Some h =>
        if bool_decide (h <> "") then link h
        else match Text rt with
             | Some {| TextLink := Some l |} => link (URL l)
             | _ => text
             end
    | None =>
        match Text rt with
        | Some {| TextLink := Some l |} => link (URL l)
        | _ => text
        end
    end.

Fixpoint richTextToMarkdown (richTexts : list RichText) : string :=
  match richTexts with
  | [] => ""
  | rt :: rest => richTextRun rt +:+ richTextToMarkdown rest
  end.

Fixpoint richTextToPlainText (richTexts : list RichText) : string :=
  match richTexts with
  | [] => ""
  | rt :: rest => PlainText rt +:+ richTextToPlainText rest
  end.

(** [blockToMarkdown]: a [switch] on the type tag; a case whose payload
    pointer is [nil] leaves the [switch] and the function returns "". *)
Definition blockToMarkdown (block : Block) : string :=
  let ty := Block_Type block in
  if bool_decide (ty = "paragraph") then
    match Paragraph block with
    | Some b =>
        let text := richTextToMarkdown (RichTexts b) in
        if bool_decide (text <> "") then text +:+ Bytes.nl else ""
    | None => ""
    end
  else if bool_decide (ty = "heading_1") then
    match Heading1 block with
    | Some b => "## " +:+ richTextToMarkdown (RichTexts b) +:+ Bytes.nl
    | None => ""
    end
  else if bool_decide (ty = "heading_2") then
    match Heading2 block with
    | Some b => "### " +:+ richTextToMarkdown (RichTexts b) +:+ Bytes.nl
    | None => ""
    end
  else if bool_decide (ty = "heading_3") then
    match Heading3 block with
    | Some b => "#### " +:+ richTextToMarkdown (RichTexts b) +:+ Bytes.nl
    | None => ""
    end
  else if bool_decide (ty = "bulleted_list_item") then
    match BulletedList block with
    | Some b => "- " +:+ richTextToMarkdown (RichTexts b) +:+ Bytes.nl
    | None => ""
    end
  else if bool_decide (ty = "numbered_list_item") then
    match NumberedList block with
    | Some b => "1. " +:+ richTextToMarkdown (RichTexts b) +:+ Bytes.nl
    | None => ""
    end
  else if bool_decide (ty = "to_do") then
    match ToDo block with
    | Some b =>
        let text := richTextToMarkdown (ToDo_RichTexts b) in
        let checkbox := if Checked b then "- [x]" else "- [ ]" in
        checkbox +:+ " " +:+ text +:+ Bytes.nl
    | None => ""
    end
  else if bool_decide (ty = "code") then
    match Code block with
    | Some b =>
        let text := richTextToPlainText (Code_RichTexts b) in
        let lang := if bool_decide (Language b = "") then "text" else Language b in
        "```" +:+ lang +:+ Bytes.nl +:+ text +:+ Bytes.nl +:+ "```" +:+ Bytes.nl
    | None => ""
    end
  else "".

(** The heading blocks the source service sends: the type tag names a
    heading level and the payload of that level is present. *)
Inductive headingBlock : Block -> nat -> TextBlock -> Prop :=
| heading_1 b h : Block_Type b = "heading_1" -> Heading1 b = Some h -> headingBlock b 1 h
| heading_2 b h : Block_Type b = "heading_2" -> Heading2 b = Some h -> headingBlock b 2 h
| heading_3 b h : Block_Type b = "heading_3" -> Heading3 b = Some h -> headingBlock b 3 h.

(** C8: a heading block of source level [n] renders as a heading of level
    [n + 1]: [n + 1] '#' signs, a space, the text of the heading and a
    newline ("## " for level 1, "### " for level 2, "#### " for level 3). *)
Theorem blockToMarkdown_heading_shift (b : Block) (n : nat) (h : TextBlock) :
  headingBlock b n h ->
  blockToMarkdown b =
    Bytes.replicate (n + 1) "#" +:+ " " +:+ richTextToMarkdown (RichTexts h) +:+ Bytes.nl
  /\ (n = 1 -> blockToMarkdown b = "## " +:+ richTextToMarkdown (RichTexts h) +:+ Bytes.nl)
  /\ (n = 2 -> blockToMarkdown b = "### " +:+ richTextToMarkdown (RichTexts h) +:+ Bytes.nl)
  /\ (n = 3 -> blockToMarkdown b = "#### " +:+ richTextToMarkdown (RichTexts h) +:+ Bytes.nl).
Proof.
  intros H.
  assert (blockToMarkdown b =
    Bytes.replicate (n + 1) "#" +:+ " " +:+ richTextToMarkdown (RichTexts h) +:+ Bytes.nl)
    as Heq.
  { destruct H as [b h Hty Hp|b h Hty Hp|b h Hty Hp];
      unfold blockToMarkdown; rewrite Hty, Hp; reflexivity. }
  split; [exact Heq |].
  repeat split; intros ->; exact Heq.
Qed.

Definition plainRun (s : string) : RichText :=
  {| Text := None; Annots := None; PlainText := s; Href := None |}.

Definition headingOne (s : string) : Block :=
  {| Block_ID := "b1"; Block_Type := "heading_1"; Paragraph := None;
     Heading1 := Some {| RichTexts := [plainRun s] |}; Heading2 := None;
     Heading3 := None; BulletedList := None; NumberedList := None;
     ToDo := None; Code := None |}.

Lemma blockToMarkdown_heading_shift_witness :
  headingBlock (headingOne "Plan") 1 {| RichTexts := [plainRun "Plan"] |} /\
  blockToMarkdown (headingOne "Plan") = "## Plan" +:+ Bytes.nl.
Proof.
  assert (headingBlock (headingOne "Plan") 1 {| RichTexts := [plainRun "Plan"] |}) as H.
  { constructor; reflexivity. }
  split; [exact H |].
  exact (proj1 (proj2 (blockToMarkdown_heading_shift _ _ _ H)) eq_refl).
Defined.

(** ** The state tracker ([internal/config], [State]) *)

Module State.

(** [ProcessedPages map[string]bool]; a key that is absent reads [false]. *)
Definition NewState : gmap string bool := ∅.

Definition MarkProcessed (s : gmap string bool) (pageID : string) : gmap string bool :=
  <[pageID := true]> s.

Definition IsProcessed (s : gmap string bool) (pageID : string) : bool :=
  default false (s !! pageID).

Definition ClearState (s : gmap string bool) : gmap string bool := ∅.

(** The state file [~/.notion2memos/state.json]: absent, present but
    unreadable or not a JSON state (with the error message the read
    gives), or holding the stored map. *)
Inductive File :=
| NoFile
| BadFile (err : string)
| Stored (processed : gmap string bool).

Definition LoadState (f : File) : result (gmap string bool) :=
  match f with
  | NoFile => Ok NewState
  | BadFile err => Err err
  | Stored processed => Ok processed
  end.

(** How far a save that failed got. [SaveState] creates the directory
    and then calls [os.WriteFile], which opens the file with [O_TRUNC],
    writes the data and closes the file. When the directory or the open
    fails, the file is as it was. Once the file is open it is empty: when
    the write fails, the file is left empty or with the beginning of the
    data. When only the close fails, the data is in the file. *)
Inductive WriteFault :=
| NotOpened
| Truncated
| Written.

(** An empty file and a proper beginning of the JSON object are both
    refused by [json.Unmarshal] as ending too early, and [LoadState]
    wraps that error. *)
Definition truncated : File :=
  BadFile "failed to unmarshal state: unexpected end of JSON input".

Definition afterFault (fault : WriteFault) (old : File) (processed : gmap string bool)
    : File :=
  match fault with
  | NotOpened => old
  | Truncated => truncated
  | Written => Stored processed
  end.

Lemma IsProcessed_MarkProcessed (s : gmap string bool) (id id' : string) :
  IsProcessed (MarkProcessed s id) id' = bool_decide (id = id') || IsProcessed s id'.
Proof.
  unfold IsProcessed, MarkProcessed. rewrite lookup_insert.
  case_decide; [by rewrite bool_decide_eq_true_2 | by rewrite bool_decide_eq_false_2].
Qed.

End State.

(** ** The filters of the orchestrator ([internal/migrate]) *)

(** The accumulating loops [for _, x := range xs { if keep(x) { filtered =
    append(filtered, x) } }] of both filters. *)
Definition appendIf {A : Type} (keep : A -> bool) (filtered : list A) (x : A) : list A :=
  if keep x then filtered ++ [x] else filtered.

Definition titleSetOf (titles : list string) : gmap string bool :=
  foldl (fun titleSet title => <[title := true]> titleSet) ∅ titles.

Definition filterPagesByTitle (pages : list Page) (titles : list string) : list Page :=
  if length titles =? 0 then pages
  else
    let titleSet := titleSetOf titles in
    foldl (appendIf (fun page => default false (titleSet !! GetPageTitle page))) [] pages.

Definition filterProcessedPages (state : gmap string bool) (pages : list Page) : list Page :=
  foldl (appendIf (fun page => negb (State.IsProcessed state (ID page)))) [] pages.

Lemma foldl_appendIf {A : Type} (keep : A -> bool) (acc l : list A) :
  foldl (appendIf keep) acc l = acc ++ List.filter keep l.
Proof.
  revert acc; induction l as [|x l IH]; intros acc; simpl.
  - by rewrite app_nil_r.
  - rewrite IH. unfold appendIf. destruct (keep x); [by rewrite <- app_assoc | done].
Qed.

Lemma titleSetOf_foldl (titles : list string) (m : gmap string bool) (t : string) :
  default false (foldl (fun titleSet title => <[title := true]> titleSet) m titles !! t)
  = bool_decide (t ∈ titles) || default false (m !! t).
Proof.
  revert m; induction titles as [|x titles IH]; intros m.
  - cbn [foldl]. case_bool_decide as H; [by apply elem_of_nil in H | done].
  - cbn [foldl]. rewrite IH, lookup_insert.
    destruct (decide (x = t)) as [->|Hne].
    + cbn [default]. rewrite orb_true_r.
      rewrite (bool_decide_eq_true_2 (t ∈ t :: titles)); [done | by left].
    + case_bool_decide as H1; case_bool_decide as H2; try done.
      * destruct H2. by right.
      * apply elem_of_cons in H2 as [->|?]; done.
Qed.

Lemma titleSetOf_lookup (titles : list string) (t : string) :
  default false (titleSetOf titles !! t) = bool_decide (t ∈ titles).
Proof. unfold titleSetOf. rewrite titleSetOf_foldl, lookup_empty. apply orb_false_r. Qed.

Lemma filterPagesByTitle_filter (pages : list Page) (titles : list string) :
  titles <> [] ->
  filterPagesByTitle pages titles =
    List.filter (fun page => bool_decide (GetPageTitle page ∈ titles)) pages.
Proof.
  intros Hne. unfold filterPagesByTitle.
  destruct titles as [|t titles]; [done |]. simpl length. simpl Nat.eqb.
  rewrite foldl_appendIf. simpl. apply filter_ext. intros p. apply titleSetOf_lookup.
Qed.

Lemma filterProcessedPages_filter (state : gmap string bool) (pages : list Page) :
  filterProcessedPages state pages =
    List.filter (fun page => negb (State.IsProcessed state (ID page))) pages.
Proof. unfold filterProcessedPages. by rewrite foldl_appendIf. Qed.

(** With a non-empty list of titles, the filter keeps, in their order,
    exactly the pages for which [GetPageTitle] returns, byte for byte,
    one of the titles. *)
Lemma filterPagesByTitle_exact (pages : list Page) (titles : list string) :
  titles <> [] ->
  filterPagesByTitle pages titles =
    List.filter (fun page => bool_decide (GetPageTitle page ∈ titles)) pages
  /\ forall page : Page,
       page ∈ filterPagesByTitle pages titles <->
       page ∈ pages /\ exists title, title ∈ titles /\ GetPageTitle page = title.
Proof.
  intros Hne. split; [by apply filterPagesByTitle_filter |].
  intros page. rewrite filterPagesByTitle_filter by done.
  rewrite !list_elem_of_In, filter_In, bool_decide_eq_true, <- !list_elem_of_In.
  split.
  - intros [Hin Ht]. split; [done |]. by exists (GetPageTitle page).
  - intros [Hin (t & Ht & ->)]. done.
Qed.

Definition titledPage (id title : string) : Page :=
  {| ID := id; CreatedTime := ""; Parent := ∅;
     Properties := [("Name", {| Property_ID := "title"; Property_Type := "title";
                               Title := [plainRun title] |})] |}.

(** The comparison is exact: neither a different case nor a longer or
    shorter title matches. *)
Example filterPagesByTitle_case_and_partial :
  filterPagesByTitle
    [titledPage "1" "Notes"; titledPage "2" "notes"; titledPage "3" "Note";
     titledPage "4" "Notes 2"; titledPage "5" "Ideas"]
    ["Notes"; "Ideas"]
  = [titledPage "1" "Notes"; titledPage "5" "Ideas"].
Proof. vm_compute. reflexivity. Qed.

Example filterPagesByTitle_exact_Notes :
  filterPagesByTitle [titledPage "1" "Notes"; titledPage "2" "notes"] ["Notes"]
  = List.filter (fun page => bool_decide (GetPageTitle page ∈ ["Notes"]))
      [titledPage "1" "Notes"; titledPage "2" "notes"].
Proof. apply filterPagesByTitle_exact. discriminate. Qed.

(** A page whose title the source service sends in two runs, "Notes "
    and, in bold, "2024": the title is "Notes 2024". *)
Definition boldRun (s : string) : RichText :=
  {| Text := None;
     Annots := Some {| Bold := true; Italic := false; Strikethrough := false;
                       Underline := false; InlineCode := false |};
     PlainText := s; Href := None |}.

Definition twoRunTitle : list RichText := [plainRun "Notes "; boldRun "2024"].

Definition twoRunPage : Page :=
  {| ID := "7"; CreatedTime := ""; Parent := ∅;
     Properties := [("Name", {| Property_ID := "title"; Property_Type := "title";
                               Title := twoRunTitle |})] |}.

(** C9 at that page: [GetPageTitle] returns the text of the first run
    only, where [richTextToPlainText] joins the runs. So the filter
    drops the page when it is given the title of the page, and keeps it
    when it is given the beginning "Notes " of that title: the
    comparison is with a part of the title. *)
Theorem filterPagesByTitle_first_run_only :
  richTextToPlainText twoRunTitle = "Notes 2024" /\
  GetPageTitle twoRunPage = "Notes " /\
  filterPagesByTitle [twoRunPage] ["Notes 2024"] = [] /\
  filterPagesByTitle [twoRunPage] ["Notes "] = [twoRunPage].
Proof. repeat split; vm_compute; reflexivity. Qed.

(** ** The paginated fetcher ([internal/notion], [SearchPages] and
    [RetrieveBlocks]) *)

(** The source service is reached through [doRequest]. An exchange with
    it either fails (rate limiter, transport, a status outside 2xx, a body
    that does not decode) or yields a decoded response; which of the two,
    and what response, is a function of the request: the query or block
    id and the cursor. The loops [for { ... }] of the two functions end
    only when a response has [has_more = false], so they are given fuel:
    [None] is a loop that has not ended within the fuel. *)

Section Fetcher.

Variable search_endpoint : string -> option string -> result SearchResponse.
Variable children_endpoint : string -> option string -> result BlockResponse.

Fixpoint SearchPages_loop (fuel : nat) (query : string) (cursor : option string)
    (allPages : list Page) : option (result (list Page)) :=
  match fuel with
  | 0 => None
  | S fuel' =>
      match search_endpoint query cursor with
      | Err e => Some (Err e)
      | Ok searchResp =>
          let allPages := allPages ++ Search_Results searchResp in
          if negb (Search_HasMore searchResp) then Some (Ok allPages)
          else SearchPages_loop fuel' query (Search_NextCursor searchResp) allPages
      end
  end.

Definition SearchPages (fuel : nat) (query : string) : option (result (list Page)) :=
  SearchPages_loop fuel query None [].

Fixpoint RetrieveBlocks_loop (fuel : nat) (blockID : string) (cursor : option string)
    (allBlocks : list Block) : option (result (list Block)) :=
  match fuel with
  | 0 => None
  | S fuel' =>
      match children_endpoint blockID cursor with
      | Err e => Some (Err e)
      | Ok blockResp =>
          let allBlocks := allBlocks ++ Block_Results blockResp in
          if negb (Block_HasMore blockResp) then Some (Ok allBlocks)
          else RetrieveBlocks_loop fuel' blockID (Block_NextCursor blockResp) allBlocks
      end
  end.

Definition RetrieveBlocks (fuel : nat) (blockID : string) : option (result (list Block)) :=
  RetrieveBlocks_loop fuel blockID None [].

(** A source serves the pages [pgs] from a cursor: the request with that
    cursor is answered with the first page, and either this is the last
    page and the answer says so, or the answer announces more and the
    cursor it returns serves the remaining pages. *)
Inductive servesPages (query : string) : option string -> list (list Page) -> Prop :=
| servesPages_last cursor resp :
    search_endpoint query cursor = Ok resp ->
    Search_HasMore resp = false ->
    servesPages query cursor [Search_Results resp]
| servesPages_more cursor resp pgs :
    search_endpoint query cursor = Ok resp ->
    Search_HasMore resp = true ->
    servesPages query (Search_NextCursor resp) pgs ->
    servesPages query cursor (Search_Results resp :: pgs).

Inductive servesBlocks (blockID : string) : option string -> list (list Block) -> Prop :=
| servesBlocks_last cursor resp :
    children_endpoint blockID cursor = Ok resp ->
    Block_HasMore resp = false ->
    servesBlocks blockID cursor [Block_Results resp]
| servesBlocks_more cursor resp pgs :
    children_endpoint blockID cursor = Ok resp ->
    Block_HasMore resp = true ->
    servesBlocks blockID (Block_NextCursor resp) pgs ->
    servesBlocks blockID cursor (Block_Results resp :: pgs).

Lemma SearchPages_loop_serves (query : string) (cursor : option string)
    (pgs : list (list Page)) (k : nat) (acc : list Page) :
  servesPages query cursor pgs ->
  SearchPages_loop (length pgs + k) query cursor acc = Some (Ok (acc ++ concat pgs)).
Proof.
  intros H; revert acc; induction H as [cursor resp He Hm|cursor resp pgs He Hm _ IH];
    intros acc; simpl; rewrite He, Hm; simpl.
  - by rewrite app_nil_r.
  - by rewrite IH, <- app_assoc.
Qed.

Lemma RetrieveBlocks_loop_serves (blockID : string) (cursor : option string)
    (pgs : list (list Block)) (k : nat) (acc : list Block) :
  servesBlocks blockID cursor pgs ->
  RetrieveBlocks_loop (length pgs + k) blockID cursor acc = Some (Ok (acc ++ concat pgs)).
Proof.
  intros H; revert acc; induction H as [cursor resp He Hm|cursor resp pgs He Hm _ IH];
    intros acc; simpl; rewrite He, Hm; simpl.
  - by rewrite app_nil_r.
  - by rewrite IH, <- app_assoc.
Qed.

(** The loops are monotone in the fuel. *)
Lemma SearchPages_loop_mono (fuel fuel' : nat) query cursor acc r :
  fuel <= fuel' ->
  SearchPages_loop fuel query cursor acc = Some r ->
  SearchPages_loop fuel' query cursor acc = Some r.
Proof.
  revert fuel' cursor acc; induction fuel as [|fuel IH]; intros fuel' cursor acc Hle; [done |].
  destruct fuel' as [|fuel']; [lia |]. simpl.
  destruct (search_endpoint query cursor) as [resp|e]; [| done].
  destruct (negb (Search_HasMore resp)); [done |]. apply IH. lia.
Qed.

Lemma RetrieveBlocks_loop_mono (fuel fuel' : nat) blockID cursor acc r :
  fuel <= fuel' ->
  RetrieveBlocks_loop fuel blockID cursor acc = Some r ->
  RetrieveBlocks_loop fuel' blockID cursor acc = Some r.
Proof.
  revert fuel' cursor acc; induction fuel as [|fuel IH]; intros fuel' cursor acc Hle; [done |].
  destruct fuel' as [|fuel']; [lia |]. simpl.
  destruct (children_endpoint blockID cursor) as [resp|e]; [| done].
  destruct (negb (Block_HasMore resp)); [done |]. apply IH. lia.
Qed.

(** C7: when the source serves its items as the pages [pgs] (any number
    of pages, of any sizes, under any cursors), each fetch loop ends,
    after one request per page, and returns the items of all pages in
    the order served: the [N] items, each once, none missing. *)
Theorem paginated_fetch_complete :
  (forall (query : string) (pgs : list (list Page)),
      servesPages query None pgs ->
      forall fuel, length pgs <= fuel ->
        SearchPages fuel query = Some (Ok (concat pgs)) /\
        (forall pages, SearchPages fuel query = Some (Ok pages) ->
           length pages = sum_list (length <$> pgs) /\
           forall i, pages !! i = concat pgs !! i)) /\
  (forall (blockID : string) (pgs : list (list Block)),
      servesBlocks blockID None pgs ->
      forall fuel, length pgs <= fuel ->
        RetrieveBlocks fuel blockID = Some (Ok (concat pgs)) /\
        (forall blocks, RetrieveBlocks fuel blockID = Some (Ok blocks) ->
           length blocks = sum_list (length <$> pgs) /\
           forall i, blocks !! i = concat pgs !! i)).
Proof.
  assert (forall (A : Type) (l : list (list A)),
             length (concat l) = sum_list (length <$> l)) as Hlen.
  { intros A l; induction l as [|x l IH]; simpl; [done |].
    by rewrite length_app, IH. }
  split.
  - intros query pgs H fuel Hle.
    assert (SearchPages fuel query = Some (Ok (concat pgs))) as Heq.
    { unfold SearchPages. replace fuel with (length pgs + (fuel - length pgs)) by lia.
      by rewrite (SearchPages_loop_serves _ _ _ _ [] H). }
    split; [done |]. intros pages Hp. rewrite Heq in Hp. injection Hp as <-.
    by rewrite Hlen.
  - intros blockID pgs H fuel Hle.
    assert (RetrieveBlocks fuel blockID = Some (Ok (concat pgs))) as Heq.
    { unfold RetrieveBlocks. replace fuel with (length pgs + (fuel - length pgs)) by lia.
      by rewrite (RetrieveBlocks_loop_serves _ _ _ _ [] H). }
    split; [done |]. intros blocks Hp. rewrite Heq in Hp. injection Hp as <-.
    by rewrite Hlen.
Qed.

End Fetcher.

(** ** The splitter ([internal/migrate], [createSplitMemos]): the pure part *)

Definition memosMaxLength : nat := 8192.
Definition splitMarker : string := Bytes.nl +:+ Bytes.nl +:+ "...".
Definition continuationMarker : string := "..." +:+ Bytes.nl +:+ Bytes.nl.
Definition safeChunkSize : nat := memosMaxLength - 200.

(** [for breakPoint > 0 && remaining[breakPoint] != '\n' { breakPoint-- }] *)
Fixpoint scanBack (remaining : string) (breakPoint : nat) : nat :=
  match breakPoint with
  | 0 => 0
  | S breakPoint' =>
      if bool_decide (String.get breakPoint remaining = Some Bytes.LF) then breakPoint
      else scanBack remaining breakPoint'
  end.

(** [for len(remaining) > 0 && (remaining[0] == '\n' || remaining[0] == ' ')
     { remaining = remaining[1:] }] *)
Fixpoint trimLeading (remaining : string) : string :=
  match remaining with
  | String c rest =>
      if bool_decide (c = Bytes.LF) || bool_decide (c = " "%char) then trimLeading rest
      else remaining
  | "" => ""
  end.

(** The loop [for len(remaining) > safeChunkSize { ... }], for a chunk
    size [size]; [None] is a loop that has not ended within the fuel. *)
Fixpoint splitLoop (fuel : nat) (size : nat) (remaining : string) (parts : list string)
    : option (list string * string) :=
  if negb (size <? String.length remaining) then Some (parts, remaining)
  else
    match fuel with
    | 0 => None
    | S fuel' =>
        let breakPoint := scanBack remaining size in
        let breakPoint := if breakPoint =? 0 then size else breakPoint in
        let parts := parts ++ [Bytes.take breakPoint remaining] in
        let remaining := Bytes.drop breakPoint remaining in
        splitLoop fuel' size (trimLeading remaining) parts
    end.

(** The chunks of [createSplitMemos]: the loop, then the final part. The
    length of the content is fuel enough ([splitParts_total]). *)
Definition splitPartsAt (size : nat) (content : string) : option (list string) :=
  match splitLoop (String.length content) size content [] with
  | None => None
  | Some (parts, remaining) =>
      Some (if 0 <? String.length remaining then parts ++ [remaining] else parts)
  end.

Definition splitParts (content : string) : option (list string) :=
  splitPartsAt safeChunkSize content.

(** [fmt.Sprintf("%s (%d/%d)", pageTitle, partNumber, len(parts))] *)
Definition partTitle (pageTitle : string) (partNumber total : nat) : string :=
  pageTitle +:+ " (" +:+ pretty partNumber +:+ "/" +:+ pretty total +:+ ")".

(** [contentWithoutTitle]: the part without its first line when that line
    starts with "# ". *)
Definition contentWithoutTitle (part : string) : string :=
  let lines := Bytes.SplitLines part in
  let startIndex :=
    match lines with
    | line0 :: _ => if Bytes.HasPrefix line0 "# " then 1 else 0
    | [] => 0
    end in
  Bytes.Join (drop startIndex lines) Bytes.nl.

(** [memoContent] of part [i] (from 0) of [total]. *)
Definition memoContent (pageTitle : string) (total i : nat) (part : string) : string :=
  let partNumber := i + 1 in
  let head := "# " +:+ partTitle pageTitle partNumber total +:+ Bytes.nl +:+ Bytes.nl in
  if i =? 0 then head +:+ contentWithoutTitle part +:+ splitMarker
  else if i =? total - 1 then head +:+ continuationMarker +:+ contentWithoutTitle part
  else head +:+ continuationMarker +:+ contentWithoutTitle part +:+ splitMarker.

(** Go's [int] and [time.Duration] are 64-bit and wrap around. *)
Definition int64 (z : Z) : Z := ((z + 2 ^ 63) `mod` 2 ^ 64 - 2 ^ 63)%Z.

(** Instants are counted in nanoseconds; [time.Second] is 10^9.
    [createdTime.Add(time.Duration(i*5) * time.Second)] *)
Definition time_Second : Z := 1000000000%Z.

Definition partCreatedTime (createdTime : Z) (i : nat) : Z :=
  (createdTime + int64 (int64 (Z.of_nat i * 5) * time_Second))%Z.

(** A page of title "T": a title line, a body line of 7000 bytes, a body
    line of 7990 bytes and a short last line. *)
Definition longContent (title : string) : string :=
  "# " +:+ title +:+ Bytes.nl +:+ Bytes.nl +:+ Bytes.replicate 7000 "a" +:+ Bytes.nl
  +:+ Bytes.replicate 7990 "b" +:+ Bytes.nl +:+ Bytes.replicate 100 "c".

Example splitParts_longContent :
  splitParts (longContent "T") =
    Some ["# T" +:+ Bytes.nl +:+ Bytes.nl +:+ Bytes.replicate 7000 "a";
          Bytes.replicate 7990 "b"; Bytes.replicate 100 "c"].
Proof. vm_compute. reflexivity. Qed.

(** *** Facts about the chunks *)

(** The bytes that [trimLeading] removes after a cut. *)
Definition cutSpace (c : ascii) : bool :=
  bool_decide (c = Bytes.LF) || bool_decide (c = " "%char).

(** The parts, each followed by its gap, in order. *)
Fixpoint stitch (parts gaps : list string) : string :=
  match parts, gaps with
  | part :: parts', gap :: gaps' => part +:+ gap +:+ stitch parts' gaps'
  | _, _ => ""
  end.

Lemma stitch_app (ps1 gs1 ps2 gs2 : list string) :
  length ps1 = length gs1 ->
  stitch (ps1 ++ ps2) (gs1 ++ gs2) = stitch ps1 gs1 +:+ stitch ps2 gs2.
Proof.
  revert gs1; induction ps1 as [|p ps1 IH]; intros [|g gs1] Hlen; simpl in *; try done.
  rewrite IH by lia. by rewrite !Bytes.app_assoc.
Qed.

Lemma scanBack_le (remaining : string) (breakPoint : nat) :
  scanBack remaining breakPoint <= breakPoint.
Proof.
  induction breakPoint as [|bp IH]; [done |]. cbn [scanBack].
  case_bool_decide; lia.
Qed.

(** Where [scanBack] stops above 0 there is a newline, and none after it
    up to the starting point. *)
Lemma scanBack_newline (remaining : string) (breakPoint : nat) :
  0 < scanBack remaining breakPoint ->
  String.get (scanBack remaining breakPoint) remaining = Some Bytes.LF /\
  forall j, scanBack remaining breakPoint < j <= breakPoint ->
            String.get j remaining <> Some Bytes.LF.
Proof.
  induction breakPoint as [|bp IH]; [cbn; lia |]. cbn [scanBack].
  case_bool_decide as Hget.
  - intros _. split; [done |]. lia.
  - intros Hpos. destruct (IH Hpos) as [H1 H2]. split; [done |].
    intros j Hj. destruct (decide (j = S bp)) as [->|Hne]; [done |]. apply H2. lia.
Qed.

Lemma trimLeading_split (s : string) :
  exists gap, s = gap +:+ trimLeading s /\ Bytes.all cutSpace gap = true.
Proof.
  induction s as [|c s (gap & Heq & Hall)]; [by exists "" |]. cbn [trimLeading].
  destruct (bool_decide (c = Bytes.LF) || bool_decide (c = " "%char)) eqn:E.
  - exists (String c gap). rewrite Bytes.app_cons, <- Heq. split; [done |].
    cbn [Bytes.all]. unfold cutSpace at 1. by rewrite E, Hall.
  - by exists "".
Qed.

Lemma length_trimLeading (s : string) : String.length (trimLeading s) <= String.length s.
Proof.
  destruct (trimLeading_split s) as (gap & Heq & _).
  rewrite Heq at 2. rewrite Bytes.length_app. lia.
Qed.

Definition chunkSized (size : nat) (part : string) : Prop :=
  1 <= String.length part <= size.

(** What one run of the loop adds: chunks of 1 to [size] bytes which,
    each followed by the bytes trimmed after its cut, make up the text
    consumed; and the loop ends within fuel equal to the length. *)
Lemma splitLoop_spec (size fuel : nat) (remaining : string) (parts : list string) :
  1 <= size ->
  String.length remaining <= fuel ->
  exists new gaps rest,
    splitLoop fuel size remaining parts = Some (parts ++ new, rest) /\
    length gaps = length new /\
    Forall (chunkSized size) new /\
    Forall (fun gap => Bytes.all cutSpace gap = true) gaps /\
    remaining = stitch new gaps +:+ rest /\
    String.length rest <= size.
Proof.
  intros Hsize. revert remaining parts.
  induction fuel as [|fuel IH]; intros remaining parts Hfuel.
  - exists [], [], remaining. cbn [splitLoop].
    destruct (size <? String.length remaining) eqn:E.
    + apply Nat.ltb_lt in E. lia.
    + apply Nat.ltb_ge in E. cbn. by rewrite app_nil_r.
  - cbn [splitLoop]. destruct (size <? String.length remaining) eqn:E; cbn [negb].
    + apply Nat.ltb_lt in E.
      set (bp := if scanBack remaining size =? 0 then size else scanBack remaining size).
      assert (1 <= bp <= size) as Hbp.
      { subst bp. pose proof (scanBack_le remaining size).
        destruct (scanBack remaining size =? 0) eqn:E0; [lia |].
        apply Nat.eqb_neq in E0. lia. }
      destruct (trimLeading_split (Bytes.drop bp remaining)) as (gap & Hgap & Hall).
      destruct (IH (trimLeading (Bytes.drop bp remaining))
                  (parts ++ [Bytes.take bp remaining])) as
        (new & gaps & rest & Hrun & Hlen & Hsz & Hws & Hrem & Hrest).
      { pose proof (length_trimLeading (Bytes.drop bp remaining)).
        rewrite Bytes.length_drop in *. lia. }
      exists (Bytes.take bp remaining :: new), (gap :: gaps), rest.
      rewrite Hrun, <- app_assoc. split; [done |].
      split; [cbn; lia |].
      split; [constructor; [| done] |].
      { unfold chunkSized. rewrite Bytes.length_take. lia. }
      split; [by constructor |].
      split; [| done].
      cbn [stitch]. rewrite !Bytes.app_assoc, <- Hrem, <- Hgap.
      by rewrite Bytes.take_drop.
    + apply Nat.ltb_ge in E. exists [], [], remaining. cbn. by rewrite app_nil_r.
Qed.

Lemma safeChunkSize_pos : 1 <= safeChunkSize.
Proof. vm_compute. apply le_n_S, Nat.le_0_l. Qed.

Lemma safeChunkSize_headroom : safeChunkSize + 200 = memosMaxLength.
Proof. vm_compute. reflexivity. Qed.

(** The chunks always exist; they are between 1 and [size] bytes long;
    and the content is the chunks in order, each followed by a (possibly
    empty) run of newlines and spaces: the bytes dropped at the cuts. *)
Lemma splitPartsAt_spec (size : nat) (content : string) :
  1 <= size ->
  exists parts gaps,
    splitPartsAt size content = Some parts /\
    length gaps = length parts /\
    Forall (chunkSized size) parts /\
    Forall (fun gap => Bytes.all cutSpace gap = true) gaps /\
    content = stitch parts gaps.
Proof.
  intros Hsize. unfold splitPartsAt.
  destruct (splitLoop_spec size (String.length content) content [] Hsize (le_n _))
    as (new & gaps & rest & -> & Hlen & Hsz & Hws & Hrem & Hrest).
  cbn [app]. destruct (0 <? String.length rest) eqn:E.
  - apply Nat.ltb_lt in E. exists (new ++ [rest]), (gaps ++ [""]).
    split; [done |]. split; [rewrite !length_app; cbn; lia |].
    split; [apply Forall_app; split; [done |]; constructor; [| done]; unfold chunkSized; lia |].
    split; [apply Forall_app; split; [done |]; by constructor |].
    rewrite stitch_app by done. cbn [stitch].
    by rewrite Bytes.app_nil_r.
  - apply Nat.ltb_ge in E. exists new, gaps.
    assert (rest = "") as -> by (destruct rest; [done | cbn in E; lia]).
    by rewrite Bytes.app_nil_r in Hrem.
Qed.

(** *** Facts about the memo of a part *)

(** The marker before and the marker after the chunk of part [i]. *)
Definition leadMarker (i : nat) : string :=
  if i =? 0 then "" else continuationMarker.

Definition trailMarker (total i : nat) : string :=
  if i =? 0 then splitMarker else if i =? total - 1 then "" else splitMarker.

Definition memoHead (pageTitle : string) (total i : nat) : string :=
  "# " +:+ partTitle pageTitle (i + 1) total +:+ Bytes.nl +:+ Bytes.nl.

Lemma memoContent_shape (pageTitle : string) (total i : nat) (part : string) :
  memoContent pageTitle total i part =
    memoHead pageTitle total i +:+ leadMarker i +:+ contentWithoutTitle part
    +:+ trailMarker total i.
Proof.
  unfold memoContent, memoHead, leadMarker, trailMarker.
  destruct (i =? 0); [by rewrite !Bytes.app_assoc |].
  destruct (i =? total - 1); rewrite ?Bytes.app_nil_r, !Bytes.app_assoc; done.
Qed.

Lemma contentWithoutTitle_suffix (part : string) :
  exists dropped, part = dropped +:+ contentWithoutTitle part.
Proof.
  unfold contentWithoutTitle. pose proof (Bytes.Join_SplitLines part) as HJ.
  destruct (Bytes.SplitLines part) as [|line0 lines]; [by exists part; rewrite Bytes.app_nil_r |].
  destruct (Bytes.HasPrefix line0 "# ").
  - cbn [drop]. destruct lines as [|line1 lines].
    + exists part. by rewrite Bytes.app_nil_r.
    + exists (line0 +:+ Bytes.nl). rewrite Bytes.app_assoc. by rewrite <- HJ.
  - exists "". by rewrite <- HJ.
Qed.

Lemma HasPrefix_first_line (part : string) :
  match Bytes.SplitLines part with
  | line0 :: _ => Bytes.HasPrefix line0 "# "
  | [] => false
  end = Bytes.HasPrefix part "# ".
Proof.
  destruct part as [|c s]; [done |]. cbn [Bytes.SplitLines].
  case_decide as Hc.
  - subst c. reflexivity.
  - pose proof (Bytes.SplitLines_nonempty s).
    destruct (Bytes.SplitLines s) as [|l ls] eqn:E; [done |].
    cbn [Bytes.HasPrefix]. case_decide; [| done].
    destruct s as [|d s']; cbn [Bytes.SplitLines] in E.
    + by injection E as <- <-.
    + case_decide as Hd.
      * subst d. by injection E as <- <-.
      * destruct (Bytes.SplitLines s'); injection E as <- <-;
          cbn [Bytes.HasPrefix]; by case_decide.
Qed.

Lemma contentWithoutTitle_id (part : string) :
  Bytes.HasPrefix part "# " = false -> contentWithoutTitle part = part.
Proof.
  intros H. unfold contentWithoutTitle.
  pose proof (HasPrefix_first_line part) as HP. rewrite H in HP.
  pose proof (Bytes.Join_SplitLines part) as HJ.
  destruct (Bytes.SplitLines part) as [|line0 lines]; [done |].
  by rewrite HP.
Qed.

Lemma length_leadMarker (i : nat) : String.length (leadMarker i) <= 5.
Proof. unfold leadMarker. destruct (i =? 0); vm_compute; lia. Qed.

Lemma length_trailMarker (total i : nat) : String.length (trailMarker total i) <= 5.
Proof.
  unfold trailMarker. destruct (i =? 0); [vm_compute; lia |].
  destruct (i =? total - 1); vm_compute; lia.
Qed.

Lemma length_memoHead (pageTitle : string) (total i : nat) :
  String.length (memoHead pageTitle total i) =
    String.length (partTitle pageTitle (i + 1) total) + 4.
Proof.
  unfold memoHead. rewrite !Bytes.length_app.
  change (String.length "# ") with 2. change (String.length Bytes.nl) with 1. lia.
Qed.

(** The memo of a part is at most 14 bytes longer than the chunk and the
    numbered title together. *)
Lemma length_memoContent (pageTitle : string) (total i : nat) (part : string) :
  String.length (memoContent pageTitle total i part) <=
    String.length part + String.length (partTitle pageTitle (i + 1) total) + 14.
Proof.
  rewrite memoContent_shape, !Bytes.length_app, length_memoHead.
  pose proof (length_leadMarker i). pose proof (length_trailMarker total i).
  destruct (contentWithoutTitle_suffix part) as (dropped & Heq).
  rewrite Heq at 2. rewrite Bytes.length_app. lia.
Qed.

Definition concatStrings (l : list string) : string := foldr String.append "" l.

(** The text after the first newline; nothing when there is no newline. *)
Fixpoint afterFirstLine (s : string) : string :=
  match s with
  | "" => ""
  | String c rest => if decide (c = Bytes.LF) then rest else afterFirstLine rest
  end.

Lemma Join_tail_SplitLines (s : string) :
  Bytes.Join (tail (Bytes.SplitLines s)) Bytes.nl = afterFirstLine s.
Proof.
  induction s as [|c s IH]; [done |]. cbn [Bytes.SplitLines afterFirstLine].
  case_decide.
  - cbn [tail]. apply Bytes.Join_SplitLines.
  - pose proof (Bytes.SplitLines_nonempty s).
    by destruct (Bytes.SplitLines s) as [|l ls].
Qed.

(** What [contentWithoutTitle] keeps of a chunk: all of it, or, when the
    chunk starts with "# ", what follows its first line. *)
Lemma contentWithoutTitle_spec (part : string) :
  contentWithoutTitle part
  = if Bytes.HasPrefix part "# " then afterFirstLine part else part.
Proof.
  destruct (Bytes.HasPrefix part "# ") eqn:H; [| by apply contentWithoutTitle_id].
  unfold contentWithoutTitle. pose proof (HasPrefix_first_line part) as HP.
  rewrite H in HP. rewrite <- Join_tail_SplitLines.
  destruct (Bytes.SplitLines part) as [|line0 lines]; [done |]. by rewrite HP.
Qed.

(** C2, as amended: the chunks exist for every content; each has between
    1 and 7992 bytes; the content is exactly the chunks in order, each
    followed by the run of newlines and spaces that was dropped at its
    cut. The memo of a part is its numbered title line, a blank line,
    the markers and the text kept of the chunk: of the first chunk, what
    follows its title line (its first line, when that starts with "# "),
    and of a later chunk that does not start with "# ", the chunk
    itself. The memo has at most 8192 bytes whenever the numbered title
    has at most 186. *)
Theorem split_chunks_rebuild (content pageTitle : string) :
  exists parts gaps,
    splitParts content = Some parts /\
    length gaps = length parts /\
    Forall (fun part => 1 <= String.length part <= 7992) parts /\
    Forall (fun gap => Bytes.all (fun c => bool_decide (c = Bytes.LF)
                                           || bool_decide (c = " "%char)) gap = true)
           gaps /\
    content = stitch parts gaps /\
    forall i part, parts !! i = Some part ->
      let total := length parts in
      let memo := memoContent pageTitle total i part in
      (exists kept,
         memo = "# " +:+ (pageTitle +:+ " (" +:+ pretty (i + 1) +:+ "/" +:+ pretty total
                          +:+ ")")
                +:+ Bytes.nl +:+ Bytes.nl
                +:+ (if bool_decide (i = 0) then "" else "..." +:+ Bytes.nl +:+ Bytes.nl)
                +:+ kept
                +:+ (if bool_decide (i <> 0 /\ i = total - 1) then ""
                     else Bytes.nl +:+ Bytes.nl +:+ "...") /\
         (i = 0 ->
          kept = if Bytes.HasPrefix part "# " then afterFirstLine part else part) /\
         (Bytes.HasPrefix part "# " = false -> kept = part)) /\
      String.length memo <=
        7992 + String.length (pageTitle +:+ " (" +:+ pretty (i + 1) +:+ "/"
                               +:+ pretty total +:+ ")") + 14 /\
      (String.length (pageTitle +:+ " (" +:+ pretty (i + 1) +:+ "/" +:+ pretty total
                      +:+ ")") <= 186 ->
       String.length memo <= 8192).
Proof.
  destruct (splitPartsAt_spec safeChunkSize content safeChunkSize_pos)
    as (parts & gaps & Hparts & Hlen & Hsz & Hws & Hcontent).
  exists parts, gaps. split; [done |]. split; [done |].
  split; [exact Hsz |]. split; [exact Hws |]. split; [done |].
  intros i part Hi total memo.
  split.
  { exists (contentWithoutTitle part). split; [| split].
    - subst memo. rewrite memoContent_shape.
      unfold memoHead, leadMarker, trailMarker, partTitle, continuationMarker, splitMarker.
      rewrite !Bytes.app_assoc.
      destruct (Nat.eqb_spec i 0); destruct (Nat.eqb_spec i (total - 1));
        repeat case_bool_decide; try lia; try done; naive_solver.
    - intros _. apply contentWithoutTitle_spec.
    - apply contentWithoutTitle_id. }
  assert (String.length part <= safeChunkSize) as Hpart.
  { by destruct (Forall_lookup_1 _ _ _ _ Hsz Hi). }
  pose proof (length_memoContent pageTitle total i part) as Hmemo.
  pose proof safeChunkSize_headroom as Hroom. fold memo in Hmemo.
  unfold partTitle in Hmemo. change safeChunkSize with 7992 in *.
  change memosMaxLength with 8192 in *.
  split; lia.
Qed.

(** The first line of a later chunk goes the same way when it starts
    with "# ", though it is no title: here the second chunk starts with
    a body line of 302 bytes, and its memo is without that line. *)
Example split_drops_body_line :
  let content := "# T" +:+ Bytes.nl +:+ Bytes.nl +:+ Bytes.replicate 7900 "a"
                 +:+ Bytes.nl +:+ "# " +:+ Bytes.replicate 300 "c"
                 +:+ Bytes.nl +:+ Bytes.replicate 500 "b" in
  splitParts content
  = Some ["# T" +:+ Bytes.nl +:+ Bytes.nl +:+ Bytes.replicate 7900 "a";
          "# " +:+ Bytes.replicate 300 "c" +:+ Bytes.nl +:+ Bytes.replicate 500 "b"] /\
  memoContent "T" 2 1
    ("# " +:+ Bytes.replicate 300 "c" +:+ Bytes.nl +:+ Bytes.replicate 500 "b")
  = "# T (2/2)" +:+ Bytes.nl +:+ Bytes.nl +:+ "..." +:+ Bytes.nl +:+ Bytes.nl
    +:+ Bytes.replicate 500 "b".
Proof. split; vm_compute; reflexivity. Qed.

(** The claim as stated, for one content and title: every memo within the
    limit and the stripped memos concatenating to the body (the content
    without its title line) or to the content itself. *)
Definition split_roundtrip_as_stated (content pageTitle : string) : Prop :=
  memosMaxLength < String.length content ->
  exists parts,
    splitParts content = Some parts /\
    (forall i part, parts !! i = Some part ->
       String.length (memoContent pageTitle (length parts) i part) <= memosMaxLength) /\
    (concatStrings (contentWithoutTitle <$> parts) = contentWithoutTitle content \/
     concatStrings (contentWithoutTitle <$> parts) = content).

(** C2, as stated, fails. With the title "T" the newlines at the two cuts
    are lost, so the stripped parts do not concatenate to the body; with
    a title of 200 bytes the memo of the second part (7990 bytes of body)
    has more than 8192 bytes. *)
Lemma split_roundtrip_fails :
  ~ split_roundtrip_as_stated (longContent "T") "T" /\
  (exists p1 p2 p3,
      splitParts (longContent (Bytes.replicate 200 "T")) = Some [p1; p2; p3] /\
      (memosMaxLength <?
         String.length (memoContent (Bytes.replicate 200 "T") 3 1 p2)) = true).
Proof.
  split.
  - intros H. destruct H as (parts & Hparts & _ & Hcat).
    { apply Nat.ltb_lt. vm_compute. reflexivity. }
    rewrite splitParts_longContent in Hparts. injection Hparts as <-.
    assert (forall a b : string, a = b -> (String.length a =? String.length b) = true)
      as Hlen by (intros a b ->; apply Nat.eqb_refl).
    destruct Hcat as [Hcat|Hcat]; apply Hlen in Hcat; by vm_compute in Hcat.
  - eexists _, _, _. split; [vm_compute; reflexivity |].
    vm_compute. reflexivity.
Qed.

(** *** Facts about the timestamps of the parts *)

Lemma int64_small (z : Z) : (- 2 ^ 63 <= z < 2 ^ 63)%Z -> int64 z = z.
Proof. intros H. unfold int64. rewrite Z.mod_small; lia. Qed.

Lemma partCreatedTime_small (createdTime : Z) (i : nat) :
  (Z.of_nat i < 2 ^ 30)%Z ->
  partCreatedTime createdTime i = (createdTime + 5 * Z.of_nat i * time_Second)%Z.
Proof.
  intros H. unfold partCreatedTime, time_Second.
  rewrite (int64_small (Z.of_nat i * 5)) by lia.
  rewrite int64_small by lia. lia.
Qed.

Lemma length_stitch (size : nat) (parts gaps : list string) :
  length gaps = length parts ->
  Forall (chunkSized size) parts ->
  length parts <= String.length (stitch parts gaps).
Proof.
  revert gaps; induction parts as [|part parts IH]; intros [|gap gaps] Hlen Hsz;
    cbn in *; try lia.
  inversion Hsz as [|? ? [Hp _] Hrest]; subst.
  rewrite !Bytes.length_app. specialize (IH gaps ltac:(lia) Hrest). lia.
Qed.

(** There are no more parts than bytes in the content. *)
Lemma splitParts_length (content : string) (parts : list string) :
  splitParts content = Some parts -> length parts <= String.length content.
Proof.
  intros H.
  destruct (splitPartsAt_spec safeChunkSize content safeChunkSize_pos)
    as (parts' & gaps & Hparts & Hlen & Hsz & _ & Hcontent).
  unfold splitParts in H. rewrite Hparts in H. injection H as ->.
  rewrite Hcontent. by eapply length_stitch.
Qed.

(** ** The migrator ([internal/migrate]) *)

(** A call of [memosClient.CreateMemo], with the error it returned. *)
Record MemoCall := {
  memo_content : string;
  memo_time : Z;
  memo_dryRun : bool;
  memo_error : option string
}.

(** What a run acts on outside its own memory: the state file and the
    target service, the latter seen as the calls made to it so far. *)
Record World := {
  stateFile : State.File;
  calls : list MemoCall
}.

Record MigrateOptions := {
  Resume : bool;
  FilterTitles : list string
}.

Section Migrator.

(** The accessors of the parent reference and the collection type with
    its title accessor and its fetch are used by the migrator but not
    defined in the sources at hand; they are parameters here. An accessor
    returns "" when the page has no parent of that kind. *)
Variable GetParentDatabaseID : Page -> string.
Variable GetParentPageID : Page -> string.
Variable Database : Type.
Variable GetDatabaseTitle : Database -> string.
Variable RetrieveDatabase : string -> result Database.

(** The source service: the outcome of each exchange, as in [Fetcher];
    [page_endpoint] is the exchange of [RetrievePage]. *)
Variable search_endpoint : string -> option string -> result SearchResponse.
Variable children_endpoint : string -> option string -> result BlockResponse.
Variable page_endpoint : string -> result Page.

(** The Go library: [time.Parse(time.RFC3339, _)] ([None] on error),
    [Time.Format("2006-01-02 15:04:05")], [strings.TrimSpace] and the
    clock [time.Now()]. *)
Variable time_Parse : string -> option Z.
Variable time_Format : Z -> string.
Variable strings_TrimSpace : string -> string.
Variable time_Now : World -> Z.

(** The error, if any, with which the target service (or the dry-run
    file write) answers a call, and with which saving the state fails,
    given all that happened before; a save that fails also tells how
    far it got. *)
Variable CreateMemo_error : list MemoCall -> string -> Z -> bool -> option string.
Variable WriteFile_error : World -> gmap string bool -> option (string * State.WriteFault).

(** The fields of [Migrator] and the world it acts on. *)
Record Sys := {
  pageCache : gmap string Page;
  databaseCache : gmap string Database;
  state : gmap string bool;
  dryRun : bool;
  world : World
}.

Definition set_pageCache (f : gmap string Page -> gmap string Page) (s : Sys) : Sys :=
  {| pageCache := f (pageCache s); databaseCache := databaseCache s;
     state := state s; dryRun := dryRun s; world := world s |}.

Definition set_databaseCache (f : gmap string Database -> gmap string Database)
    (s : Sys) : Sys :=
  {| pageCache := pageCache s; databaseCache := f (databaseCache s);
     state := state s; dryRun := dryRun s; world := world s |}.

Definition set_state (f : gmap string bool -> gmap string bool) (s : Sys) : Sys :=
  {| pageCache := pageCache s; databaseCache := databaseCache s;
     state := f (state s); dryRun := dryRun s; world := world s |}.

Definition set_world (f : World -> World) (s : Sys) : Sys :=
  {| pageCache := pageCache s; databaseCache := databaseCache s;
     state := state s; dryRun := dryRun s; world := f (world s) |}.

(** Computations of the migrator: they read and change [Sys]; [None] is
    a fetch loop that has not ended within the fuel. *)
Definition M (A : Type) : Type := Sys -> option (A * Sys).

Definition ret {A : Type} (a : A) : M A := fun s => Some (a, s).

Definition bind {A B : Type} (m : M A) (k : A -> M B) : M B :=
  fun s => match m s with
           | Some (a, s') => k a s'
           | None => None
           end.

Definition fetched {A : Type} (r : option A) : M A :=
  fun s => match r with
           | Some a => Some (a, s)
           | None => None
           end.

Definition gets {A : Type} (f : Sys -> A) : M A := fun s => Some (f s, s).

Definition modify (f : Sys -> Sys) : M unit := fun s => Some (tt, f s).

Notation "'let*' x ':=' m 'in' k" := (bind m (fun x => k))
  (at level 10, x pattern, m at level 100, k at level 200).

Lemma bind_run {A B : Type} (m : M A) (k : A -> M B) (s s' : Sys) (a : A) :
  m s = Some (a, s') -> bind m k s = k a s'.
Proof. unfold bind. by intros ->. Qed.

Lemma bind_assoc {A B C : Type} (m : M A) (k : A -> M B) (k' : B -> M C) (s : Sys) :
  bind (bind m k) k' s = bind m (fun a => bind (k a) k') s.
Proof. unfold bind. by destruct (m s) as [[a s']|]. Qed.

Lemma bind_ret {A B : Type} (a : A) (k : A -> M B) (s : Sys) : bind (ret a) k s = k a s.
Proof. reflexivity. Qed.

Lemma bind_gets {A B : Type} (f : Sys -> A) (k : A -> M B) (s : Sys) :
  bind (gets f) k s = k (f s) s.
Proof. reflexivity. Qed.

Lemma bind_modify {B : Type} (f : Sys -> Sys) (k : unit -> M B) (s : Sys) :
  bind (modify f) k s = k tt (f s).
Proof. reflexivity. Qed.

Lemma bind_fetched {A B : Type} (a : A) (k : A -> M B) (s : Sys) :
  bind (fetched (Some a)) k s = k a s.
Proof. reflexivity. Qed.

(** *** The clients *)

Definition RetrievePage (pageID : string) : result Page := page_endpoint pageID.

(** [memosClient.CreateMemo]: the call and its outcome are recorded. *)
Definition CreateMemo (content : string) (createdTime : Z) (dry : bool) : M (result unit) :=
  fun s =>
    let err := CreateMemo_error (calls (world s)) content createdTime dry in
    let call := {| memo_content := content; memo_time := createdTime;
                   memo_dryRun := dry; memo_error := err |} in
    let s' := set_world (fun w => {| stateFile := stateFile w;
                                      calls := calls w ++ [call] |}) s in
    Some (match err with Some e => Err e | None => Ok tt end, s').

(** [state.SaveState]: a save that fails leaves the file as far as it
    got, see [State.WriteFault]. *)
Definition SaveState : M (result unit) :=
  fun s =>
    match WriteFile_error (world s) (state s) with
    | Some (e, fault) =>
        Some (Err e,
              set_world (fun w => {| stateFile := State.afterFault fault (stateFile w)
                                                    (state s);
                                     calls := calls w |}) s)
    | None =>
        Some (Ok tt, set_world (fun w => {| stateFile := State.Stored (state s);
                                            calls := calls w |}) s)
    end.

(** *** Tag resolution *)

Definition getPageCached (pageID : string) : M (result Page) :=
  fun s =>
    match pageCache s !! pageID with
    | Some cached => Some (Ok cached, s)
    | None =>
        match RetrievePage pageID with
        | Err e => Some (Err e, s)
        | Ok page => Some (Ok page, set_pageCache <[pageID := page]> s)
        end
    end.

Definition getDatabaseCached (databaseID : string) : M (result Database) :=
  fun s =>
    match databaseCache s !! databaseID with
    | Some cached => Some (Ok cached, s)
    | None =>
        match RetrieveDatabase databaseID with
        | Err e => Some (Err e, s)
        | Ok database => Some (Ok database, set_databaseCache <[databaseID := database]> s)
        end
    end.

(** [for i := 0; i < 10 && currentPageID != ""; i++ { ... }], with
    [hops] the iterations left. *)
Fixpoint walkParents (hops : nat) (currentPageID : string) (tags : list string)
    : M (list string) :=
  match hops with
  | 0 => ret tags
  | S hops' =>
      if bool_decide (currentPageID = "") then ret tags
      else
        let* r := getPageCached currentPageID in
        match r with
        | Err _ => ret tags
        | Ok parentPage =>
            walkParents hops' (GetParentPageID parentPage)
              ([GetPageTitle parentPage] ++ tags)
        end
  end.

Definition getParentTagsCached (page : Page) : M (result (list string)) :=
  let tags := [] in
  let dbID := GetParentDatabaseID page in
  let* tags :=
    if bool_decide (dbID <> "") then
      let* r := getDatabaseCached dbID in
      match r with
      | Ok database => ret (tags ++ [GetDatabaseTitle database])
      | Err _ => ret tags
      end
    else ret tags in
  let* tags := walkParents 10 (GetParentPageID page) tags in
  ret (Ok tags).

(** *** Rendering a page *)

(** [BlocksToMarkdown]; its error is always [nil]. *)
Definition BlocksToMarkdown (blocks : list Block) (createdTime pageTitle : string)
    (tags : list string) : result string :=
  let md := "" in
  let md := if bool_decide (pageTitle <> "")
            then md +:+ ("# " +:+ pageTitle +:+ Bytes.nl +:+ Bytes.nl) else md in
  let md := if 0 <? length tags
            then foldl (fun md tag => md +:+ ("#" +:+ sanitizeTag tag +:+ " ")) md tags
                 +:+ (Bytes.nl +:+ Bytes.nl)
            else md in
  let md := if bool_decide (createdTime <> "")
            then match time_Parse createdTime with
                 | Some parsedTime =>
                     md +:+ ("<!-- Created: " +:+ time_Format parsedTime +:+ " -->"
                             +:+ Bytes.nl +:+ Bytes.nl)
                 | None => md
                 end
            else md in
  let md := foldl (fun md block =>
                     let blockMd := blockToMarkdown block in
                     if bool_decide (blockMd <> "") then md +:+ blockMd +:+ Bytes.nl
                     else md) md blocks in
  Ok (strings_TrimSpace md).

(** [for i, tag := range tags { if tag == "Tagebuch" { tags[i] =
    "tagebuch"; break } }] *)
Fixpoint lowerTagebuch (tags : list string) : list string :=
  match tags with
  | [] => []
  | tag :: rest =>
      if bool_decide (tag = "Tagebuch") then "tagebuch" :: rest
      else tag :: lowerTagebuch rest
  end.

(** *** Splitting and dispatching *)

(** The loop [for i, part := range parts { ... }] of [createSplitMemos],
    from part [i] on; [total] is [len(parts)]. *)
Fixpoint createParts (pageTitle : string) (createdTime : Z) (total i : nat)
    (parts : list string) : M (result unit) :=
  match parts with
  | [] => ret (Ok tt)
  | part :: rest =>
      let partNumber := i + 1 in
      let* dry := gets dryRun in
      let* r := CreateMemo (memoContent pageTitle total i part)
                  (partCreatedTime createdTime i) dry in
      match r with
      | Err e => ret (Err (wrapErr ("failed to create memo part " +:+ pretty partNumber) e))
      | Ok _ => createParts pageTitle createdTime total (S i) rest
      end
  end.

Definition createSplitMemos (content pageTitle : string) (createdTime : Z)
    : M (result unit) :=
  let* parts := fetched (splitParts content) in
  createParts pageTitle createdTime (length parts) 0 parts.

(** *** One page *)

Definition migratePage (fuel : nat) (page : Page) : M (result unit) :=
  let* r := fetched (RetrieveBlocks children_endpoint fuel (ID page)) in
  match r with
  | Err e => ret (Err (wrapErr "failed to retrieve blocks" e))
  | Ok blocks =>
      let pageTitle := GetPageTitle page in
      if length blocks =? 0 then ret (Ok tt)
      else
        let* r := getParentTagsCached page in
        let tags := match r with Ok tags => tags | Err _ => [] end in
        let tags := lowerTagebuch tags in
        match BlocksToMarkdown blocks (CreatedTime page) pageTitle tags with
        | Err e => ret (Err (wrapErr "failed to convert to markdown" e))
        | Ok markdown =>
            if bool_decide (markdown = "") then ret (Ok tt)
            else
              let* createdTime :=
                match time_Parse (CreatedTime page) with
                | Some t => ret t
                | None => gets (fun s => time_Now (world s))
                end in
              if memosMaxLength <? String.length markdown then
                let* r := createSplitMemos markdown pageTitle createdTime in
                match r with
                | Err e => ret (Err (wrapErr "failed to create split memos" e))
                | Ok _ => ret (Ok tt)
                end
              else
                let* dry := gets dryRun in
                let* r := CreateMemo markdown createdTime dry in
                match r with
                | Err e => ret (Err (wrapErr "failed to create memo" e))
                | Ok _ => ret (Ok tt)
                end
        end
  end.

(** *** The run *)

(** [fmt.Errorf("failed to migrate page %s (%s): %w", title, id, err)] *)
Definition pageError (page : Page) (err : string) : string :=
  "failed to migrate page " +:+ GetPageTitle page +:+ " (" +:+ ID page +:+ "): " +:+ err.

(** The loop [for _, page := range pages { ... }] of [Migrate]. *)
Fixpoint migratePages (fuel : nat) (pages : list Page) : M (result unit) :=
  match pages with
  | [] => ret (Ok tt)
  | page :: rest =>
      let* r := migratePage fuel page in
      match r with
      | Err e => ret (Err (pageError page e))
      | Ok _ =>
          let* _ := modify (set_state (fun st => State.MarkProcessed st (ID page))) in
          let* r := SaveState in
          match r with
          | Err e => ret (Err (wrapErr "failed to save state" e))
          | Ok _ => migratePages fuel rest
          end
      end
  end.

(** The pages left by the two filters of [Migrate]. *)
Definition pagesToMigrate (opts : MigrateOptions) (processed : gmap string bool)
    (pages : list Page) : list Page :=
  let pages := if 0 <? length (FilterTitles opts)
               then filterPagesByTitle pages (FilterTitles opts) else pages in
  if Resume opts then filterProcessedPages processed pages else pages.

Definition Migrate (fuel : nat) (opts : MigrateOptions) : M (result unit) :=
  let* r := fetched (SearchPages search_endpoint fuel "") in
  match r with
  | Err e => ret (Err (wrapErr "failed to search pages" e))
  | Ok pages =>
      let* processed := gets state in
      let pages := pagesToMigrate opts processed pages in
      if length pages =? 0 then ret (Ok tt)
      else migratePages fuel pages
  end.

Definition NewMigrator (dry : bool) (w : World) : result Sys :=
  match State.LoadState (stateFile w) with
  | Err e => Err (wrapErr "failed to load state" e)
  | Ok st => Ok {| pageCache := ∅; databaseCache := ∅; state := st;
                   dryRun := dry; world := w |}
  end.

(** The command [migrate]: a new migrator on the world as it is, then
    [Migrate]; the result and the world the run leaves. *)
Definition runMigrate (fuel : nat) (dry : bool) (opts : MigrateOptions) (w : World)
    : option (result unit * World) :=
  match NewMigrator dry w with
  | Err e => Some (Err e, w)
  | Ok s =>
      match Migrate fuel opts s with
      | Some (r, s') => Some (r, world s')
      | None => None
      end
  end.

(** *** Tag resolution: the order of the tags *)

(** What [getPageCached] and [getDatabaseCached] answer in a state: the
    cached entry, or else what the source answers. *)
Definition resolvePage (s : Sys) (pageID : string) : result Page :=
  match pageCache s !! pageID with
  | Some cached => Ok cached
  | None => RetrievePage pageID
  end.

Definition resolveDatabase (s : Sys) (databaseID : string) : result Database :=
  match databaseCache s !! databaseID with
  | Some cached => Ok cached
  | None => RetrieveDatabase databaseID
  end.

(** The ancestors that the walk reaches from a parent reference within a
    number of hops, nearest first: the walk ends at a page without parent
    page, when the hops are used up, or at a page that cannot be
    retrieved. *)
Inductive ancestorChain (resolve : string -> result Page)
    : nat -> string -> list Page -> Prop :=
| chain_root hops : ancestorChain resolve hops "" []
| chain_cap pageID : ancestorChain resolve 0 pageID []
| chain_lost hops pageID e :
    pageID <> "" -> resolve pageID = Err e -> ancestorChain resolve (S hops) pageID []
| chain_step hops pageID parent ancestors :
    pageID <> "" -> resolve pageID = Ok parent ->
    ancestorChain resolve hops (GetParentPageID parent) ancestors ->
    ancestorChain resolve (S hops) pageID (parent :: ancestors).

(** A step of tag resolution changes the caches only, and in a way that
    leaves the answers of [resolvePage] as they are. *)
Definition cachesOnly (s s' : Sys) : Prop :=
  state s' = state s /\ dryRun s' = dryRun s /\ world s' = world s /\
  forall pageID, resolvePage s' pageID = resolvePage s pageID.

Lemma cachesOnly_refl (s : Sys) : cachesOnly s s.
Proof. by repeat split. Qed.

Lemma cachesOnly_trans (s1 s2 s3 : Sys) :
  cachesOnly s1 s2 -> cachesOnly s2 s3 -> cachesOnly s1 s3.
Proof.
  intros (H1 & H2 & H3 & H4) (H1' & H2' & H3' & H4').
  repeat split; try congruence; intros pageID; by rewrite H4', H4.
Qed.

Lemma getPageCached_resolve (pageID : string) (s : Sys) :
  exists s', getPageCached pageID s = Some (resolvePage s pageID, s') /\ cachesOnly s s'.
Proof.
  unfold getPageCached, resolvePage.
  destruct (pageCache s !! pageID) as [cached|] eqn:Hc.
  - exists s. split; [done | apply cachesOnly_refl].
  - destruct (RetrievePage pageID) as [page|e] eqn:Hr.
    + eexists. split; [done |]. repeat split. intros id'.
      unfold resolvePage; cbn [set_pageCache pageCache].
      destruct (decide (pageID = id')) as [<-|Hne].
      * by rewrite lookup_insert_eq, Hc, Hr.
      * by rewrite lookup_insert_ne.
    + exists s. split; [done | apply cachesOnly_refl].
Qed.

Lemma getDatabaseCached_resolve (databaseID : string) (s : Sys) :
  exists s', getDatabaseCached databaseID s = Some (resolveDatabase s databaseID, s') /\
             cachesOnly s s'.
Proof.
  unfold getDatabaseCached, resolveDatabase.
  destruct (databaseCache s !! databaseID) as [cached|] eqn:Hc.
  - exists s. split; [done | apply cachesOnly_refl].
  - destruct (RetrieveDatabase databaseID) as [database|e] eqn:Hr.
    + eexists. split; [done |]. by repeat split.
    + exists s. split; [done | apply cachesOnly_refl].
Qed.

Lemma ancestorChain_ext (resolve resolve' : string -> result Page) hops pageID ancestors :
  (forall id, resolve' id = resolve id) ->
  ancestorChain resolve hops pageID ancestors ->
  ancestorChain resolve' hops pageID ancestors.
Proof.
  intros Hext H. induction H; [constructor | constructor | |].
  - eapply chain_lost; [done |]. by rewrite Hext.
  - eapply chain_step; [done | by rewrite Hext | done].
Qed.

(** The walk prepends the titles of the chain, so the outermost ancestor
    reached comes first. *)
Lemma walkParents_chain (hops : nat) (pageID : string) (ancestors : list Page)
    (tags : list string) (s : Sys) :
  ancestorChain (resolvePage s) hops pageID ancestors ->
  exists s', walkParents hops pageID tags s
             = Some ((GetPageTitle <$> reverse ancestors) ++ tags, s') /\
             cachesOnly s s'.
Proof.
  intros H. revert tags. remember (resolvePage s) as resolve eqn:Hres.
  assert (forall id, resolvePage s id = resolve id) as Hext by (by subst).
  clear Hres. revert s Hext.
  induction H as [hops|pageID|hops pageID e Hne He|hops pageID parent ancestors Hne He _ IH];
    intros s Hext tags.
  - exists s. split; [| apply cachesOnly_refl]. by destruct hops.
  - exists s. split; [done | apply cachesOnly_refl].
  - cbn [walkParents]. rewrite bool_decide_eq_false_2 by done.
    destruct (getPageCached_resolve pageID s) as (s' & Hget & Hc).
    exists s'. split; [| done]. unfold bind. by rewrite Hget, Hext, He.
  - cbn [walkParents]. rewrite bool_decide_eq_false_2 by done.
    destruct (getPageCached_resolve pageID s) as (s1 & Hget & Hc).
    destruct (IH s1) with (tags := [GetPageTitle parent] ++ tags) as (s2 & Hwalk & Hc2).
    { intros id. destruct Hc as (_ & _ & _ & Hc). by rewrite Hc. }
    exists s2. split; [| by eapply cachesOnly_trans].
    unfold bind. rewrite Hget, Hext, He, Hwalk. do 2 f_equal.
    rewrite reverse_cons, fmap_app, <- app_assoc. done.
Qed.

(** Whatever the accessors answer: the title of the collection is put
    into the empty list first and every ancestor title is prepended, so
    for a page to which the accessors gave both a collection and a
    parent page the collection's title would come last. *)
Lemma getParentTagsCached_walk_prepends (page : Page) (s : Sys) (database : Database)
    (ancestors : list Page) :
  GetParentDatabaseID page <> "" ->
  resolveDatabase s (GetParentDatabaseID page) = Ok database ->
  ancestorChain (resolvePage s) 10 (GetParentPageID page) ancestors ->
  exists s' tags,
    getParentTagsCached page s = Some (Ok tags, s') /\
    tags = (GetPageTitle <$> reverse ancestors) ++ [GetDatabaseTitle database] /\
    last tags = Some (GetDatabaseTitle database) /\
    (ancestors <> [] -> head tags = GetPageTitle <$> last ancestors).
Proof.
  intros Hdb Hres Hchain. unfold getParentTagsCached.
  rewrite bool_decide_eq_true_2 by done.
  destruct (getDatabaseCached_resolve (GetParentDatabaseID page) s) as (s1 & Hget & Hc1).
  destruct (walkParents_chain 10 (GetParentPageID page) ancestors
              ([] ++ [GetDatabaseTitle database]) s1) as (s2 & Hwalk & Hc2).
  { eapply ancestorChain_ext; [| done]. by destruct Hc1 as (_ & _ & _ & Hc1). }
  exists s2, ((GetPageTitle <$> reverse ancestors) ++ [GetDatabaseTitle database]).
  split.
  { rewrite bind_assoc, (bind_run _ _ _ _ _ Hget), Hres, bind_ret.
    by rewrite (bind_run _ _ _ _ _ Hwalk). }
  split; [done |]. split; [apply last_snoc |].
  intros Hne. rewrite head_app.
  destruct ancestors as [|nearest rest] using rev_ind; [done |].
  by rewrite reverse_snoc, last_snoc.
Qed.

(** *** Splitting and dispatching: the calls made *)

(** The loop over the parts calls the target once per part, in order,
    with the memo and the timestamp of the part, until a call fails. *)
Lemma createParts_calls (pageTitle : string) (createdTime : Z) (total : nat)
    (parts : list string) (i : nat) (s : Sys) :
  exists r s' new,
    createParts pageTitle createdTime total i parts s = Some (r, s') /\
    pageCache s' = pageCache s /\ databaseCache s' = databaseCache s /\
    state s' = state s /\ dryRun s' = dryRun s /\
    stateFile (world s') = stateFile (world s) /\
    calls (world s') = calls (world s) ++ new /\
    (forall k call, new !! k = Some call ->
       exists part, parts !! k = Some part /\
         memo_content call = memoContent pageTitle total (i + k) part /\
         memo_time call = partCreatedTime createdTime (i + k) /\
         memo_dryRun call = dryRun s) /\
    (r = Ok tt -> length new = length parts /\
                  Forall (fun call => memo_error call = None) new) /\
    (Forall (fun call => memo_error call = None) new -> r = Ok tt).
Proof.
  revert i s; induction parts as [|part rest IH]; intros i s.
  - exists (Ok tt), s, []. cbn. rewrite app_nil_r. repeat split; try done.
  - cbn [createParts]. rewrite bind_gets. unfold bind at 1, CreateMemo.
    set (err := CreateMemo_error _ _ _ _).
    set (call := {| memo_content := _; memo_time := _; memo_dryRun := _; memo_error := err |}).
    set (s1 := set_world _ s).
    destruct err as [e|] eqn:Herr.
    + exists (Err (wrapErr ("failed to create memo part " +:+ pretty (i + 1)) e)), s1, [call].
      repeat split; try done.
      * intros [|k] c Hk; [| done]. injection Hk as <-. exists part.
        rewrite Nat.add_0_r. by repeat split.
      * intros H. inversion H as [|? ? Hc _]; subst. subst call; cbn in Hc. congruence.
    + destruct (IH (S i) s1) as
        (r & s' & new & Hrun & Hpc & Hdc & Hst & Hdry & Hfile & Hcalls & Hnew & Hok & Hall).
      exists r, s', (call :: new). split; [done |].
      repeat split; try done.
      * rewrite Hcalls. subst s1; cbn. by rewrite <- app_assoc.
      * intros [|k] c Hk.
        -- injection Hk as <-. exists part. rewrite Nat.add_0_r. by repeat split.
        -- destruct (Hnew k c Hk) as (p & Hp & Hc & Ht & Hd). exists p.
           replace (i + S k) with (S i + k) by lia. by repeat split.
      * destruct (Hok H) as [Hlen _]. cbn. by rewrite Hlen.
      * destruct (Hok H) as [_ HF]. constructor; [| done]. by subst call; cbn.
      * intros H. apply Hall. by inversion H.
Qed.

(** The loop over the parts stops only at a call that fails: the calls
    before it succeeded, and the error names the number of that part. *)
Lemma createParts_failure (pageTitle : string) (createdTime : Z) (total : nat)
    (parts : list string) (i : nat) (s s' : Sys) (e : string) :
  createParts pageTitle createdTime total i parts s = Some (Err e, s') ->
  exists k part e' new,
    parts !! k = Some part /\
    calls (world s') = calls (world s) ++ new /\
    length new = S k /\
    (forall j call, j < k -> new !! j = Some call -> memo_error call = None) /\
    new !! k = Some {| memo_content := memoContent pageTitle total (i + k) part;
                       memo_time := partCreatedTime createdTime (i + k);
                       memo_dryRun := dryRun s; memo_error := Some e' |} /\
    e = wrapErr ("failed to create memo part " +:+ pretty (i + k + 1)) e'.
Proof.
  revert i s; induction parts as [|part rest IH]; intros i s; [done |].
  cbn [createParts]. rewrite bind_gets. unfold bind at 1, CreateMemo.
  destruct (CreateMemo_error (calls (world s)) _ _ _) as [e'|] eqn:Herr.
  - intros [= <- <-]. exists 0, part, e'. eexists. split; [done |].
    split; [done |]. split; [done |]. split; [intros j c Hj; lia |].
    rewrite !Nat.add_0_r. by split.
  - intros Hrun. apply IH in Hrun as (k & p & e' & new & Hp & Hcalls & Hlen & Hok & Hk & He).
    exists (S k), p, e'. eexists (_ :: new). split; [done |].
    split; [rewrite Hcalls; cbn; by rewrite <- app_assoc |].
    split; [cbn; by rewrite Hlen |]. split.
    + intros [|j] c Hj; [by intros [= <-] |]. cbn. apply Hok. lia.
    + replace (i + S k) with (S i + k) by lia. split; [exact Hk | exact He].
Qed.

(** C5: when the content splits into [n >= 2] parts, the memo of part [i]
    (counted from 0) is the title line "# <title> (<i+1>/<n>)", a blank
    line, the leading marker (three dots and a blank line) unless it is
    the first part, the text kept of the chunk (of the first chunk, what
    follows its title line; of a later chunk that does not start with
    "# ", the chunk itself), and the trailing marker (a blank line and
    three dots) unless it is the last part; its timestamp is the
    original one plus [5 * i] seconds, so the timestamps increase
    strictly. The target is called with these memos and timestamps, in
    order, once per part: with all [n] of them when every call is
    accepted, and otherwise up to and including the first call that is
    refused, which is the error returned. Durations are 64-bit: the
    timestamps are stated for contents of less than 2^30 bytes. *)
Theorem createSplitMemos_parts (content pageTitle : string) (createdTime : Z)
    (s : Sys) (parts : list string) :
  splitParts content = Some parts ->
  2 <= length parts ->
  (Z.of_nat (String.length content) < 2 ^ 30)%Z ->
  let n := length parts in
  (forall i part, parts !! i = Some part ->
     (exists kept,
        memoContent pageTitle n i part =
          "# " +:+ (pageTitle +:+ " (" +:+ pretty (i + 1) +:+ "/" +:+ pretty n +:+ ")")
          +:+ Bytes.nl +:+ Bytes.nl
          +:+ (if bool_decide (i = 0) then "" else "..." +:+ Bytes.nl +:+ Bytes.nl)
          +:+ kept
          +:+ (if bool_decide (i = n - 1) then "" else Bytes.nl +:+ Bytes.nl +:+ "...") /\
        (i = 0 ->
         kept = if Bytes.HasPrefix part "# " then afterFirstLine part else part) /\
        (Bytes.HasPrefix part "# " = false -> kept = part)) /\
     partCreatedTime createdTime i = (createdTime + 5 * Z.of_nat i * 1000000000)%Z) /\
  (forall i j, i < j < n ->
     (partCreatedTime createdTime i < partCreatedTime createdTime j)%Z) /\
  exists r s' new,
    createSplitMemos content pageTitle createdTime s = Some (r, s') /\
    calls (world s') = calls (world s) ++ new /\
    1 <= length new <= n /\
    (forall k call, new !! k = Some call ->
       exists part, parts !! k = Some part /\
         memo_content call = memoContent pageTitle n k part /\
         memo_time call = partCreatedTime createdTime k /\
         memo_dryRun call = dryRun s /\
         (S k < length new -> memo_error call = None)) /\
    (r = Ok tt <-> length new = n /\ Forall (fun call => memo_error call = None) new) /\
    (forall e, r = Err e ->
       exists call e',
         last new = Some call /\ memo_error call = Some e' /\
         e = "failed to create memo part " +:+ pretty (length new) +:+ ": " +:+ e').
Proof.
  intros Hparts Hn Hlen n.
  pose proof (splitParts_length _ _ Hparts) as Hle.
  assert (forall i, i < n -> (Z.of_nat i < 2 ^ 30)%Z) as Hsmall by (intros i Hi; lia).
  split; [| split].
  - intros i part Hi. apply lookup_lt_Some in Hi as Hlt. fold n in Hlt.
    split; [| by apply partCreatedTime_small, Hsmall].
    exists (contentWithoutTitle part).
    split; [| split; [intros _; apply contentWithoutTitle_spec
                     | apply contentWithoutTitle_id]].
    rewrite memoContent_shape.
    unfold memoHead, leadMarker, trailMarker, partTitle, continuationMarker, splitMarker.
    rewrite !Bytes.app_assoc.
    destruct (Nat.eqb_spec i 0); destruct (Nat.eqb_spec i (n - 1));
      repeat case_bool_decide; try lia; done.
  - intros i j Hij. rewrite !partCreatedTime_small by (apply Hsmall; lia).
    unfold time_Second. lia.
  - unfold createSplitMemos. rewrite Hparts, bind_fetched.
    destruct (createParts_calls pageTitle createdTime n parts 0 s) as
      (r & s' & new & Hrun & _ & _ & _ & _ & _ & Hcalls & Hnew & Hok & Hall).
    exists r, s', new. split; [done |]. split; [done |].
    assert (length new <= n) as Hup.
    { destruct (decide (length new = 0)) as [->|Hpos]; [lia |].
      destruct (lookup_lt_is_Some_2 new (length new - 1)) as [call Hcall]; [lia |].
      destruct (Hnew _ _ Hcall) as (part & Hp%lookup_lt_Some & _). fold n in Hp. lia. }
    destruct r as [[]|e].
    + destruct (Hok eq_refl) as [Hl HF]. fold n in Hl.
      split; [lia |]. split.
      { intros k call Hk. destruct (Hnew k call Hk) as (part & Hp & Hc & Ht & Hd).
        exists part. repeat split; try done. intros _.
        rewrite Forall_lookup in HF. by apply (HF k). }
      split; [done |]. done.
    + destruct (createParts_failure _ _ _ _ _ _ _ _ Hrun)
        as (k & part & e' & new' & Hp & Hcalls' & Hlen' & Hbefore & Hk & He).
      assert (new' = new) as -> by (rewrite Hcalls in Hcalls'; by apply app_inv_head in Hcalls').
      split; [lia |]. split.
      { intros j call Hj. destruct (Hnew j call Hj) as (part' & Hp' & Hc & Ht & Hd).
        exists part'. repeat split; try done. intros Hlt. apply (Hbefore j); [lia | done]. }
      split.
      { split; [done |]. intros [_ HF]. rewrite Forall_lookup in HF.
        specialize (HF _ _ Hk). done. }
      intros e0 [= <-]. eexists _, e'. split.
      { rewrite last_lookup, Hlen'. cbn. exact Hk. }
      split; [done |]. rewrite He, Hlen'. unfold wrapErr. cbn [Nat.add].
      replace (k + 1) with (S k) by lia. by rewrite !Bytes.app_assoc.
Qed.

(** *** One page: what a migration step changes *)

Lemma ancestorChain_total (resolve : string -> result Page) (hops : nat) (pageID : string) :
  exists ancestors, ancestorChain resolve hops pageID ancestors.
Proof.
  revert pageID; induction hops as [|hops IH]; intros pageID.
  - exists []. constructor.
  - destruct (decide (pageID = "")) as [->|Hne]; [exists []; constructor |].
    destruct (resolve pageID) as [parent|e] eqn:Hr.
    + destruct (IH (GetParentPageID parent)) as [ancestors H].
      exists (parent :: ancestors). by eapply chain_step.
    + exists []. by eapply chain_lost.
Qed.

(** Tag resolution always returns, and changes the caches only. *)
Lemma getParentTagsCached_total (page : Page) (s : Sys) :
  exists tags s', getParentTagsCached page s = Some (Ok tags, s') /\ cachesOnly s s'.
Proof.
  unfold getParentTagsCached.
  assert (exists tags s1,
    (if bool_decide (GetParentDatabaseID page <> "")
     then let* r := getDatabaseCached (GetParentDatabaseID page) in
          match r with
          | Ok database => ret ([] ++ [GetDatabaseTitle database])
          | Err _ => ret []
          end
     else ret []) s = Some (tags, s1) /\ cachesOnly s s1) as (tags & s1 & Hdb & Hc1).
  { case_bool_decide.
    - destruct (getDatabaseCached_resolve (GetParentDatabaseID page) s) as (s1 & Hget & Hc).
      rewrite (bind_run _ _ _ _ _ Hget).
      destruct (resolveDatabase s (GetParentDatabaseID page)); eauto.
    - exists [], s. split; [done | apply cachesOnly_refl]. }
  destruct (ancestorChain_total (resolvePage s1) 10 (GetParentPageID page)) as [ancestors Hch].
  destruct (walkParents_chain 10 _ _ tags s1 Hch) as (s2 & Hwalk & Hc2).
  eexists _, s2. split; [| by eapply cachesOnly_trans].
  rewrite (bind_run _ _ _ _ _ Hdb). by rewrite (bind_run _ _ _ _ _ Hwalk).
Qed.

(** A step leaves the processed set and the state file alone; it can
    only add calls to the target, and it succeeds only if none failed. *)
Definition dispatched (s s' : Sys) (r : result unit) : Prop :=
  state s' = state s /\ dryRun s' = dryRun s /\
  stateFile (world s') = stateFile (world s) /\
  exists new, calls (world s') = calls (world s) ++ new /\
              (r = Ok tt -> Forall (fun call => memo_error call = None) new).

Lemma dispatched_quiet (s s' : Sys) (r : result unit) :
  cachesOnly s s' -> dispatched s s' r.
Proof.
  intros (H1 & H2 & H3 & _). repeat split; try done; try congruence.
  exists []. rewrite app_nil_r, H3. by split.
Qed.

Lemma dispatched_after (s s1 s' : Sys) (r : result unit) :
  cachesOnly s s1 -> dispatched s1 s' r -> dispatched s s' r.
Proof.
  intros (H1 & H2 & H3 & _) (H1' & H2' & H3' & new & H4' & H5').
  repeat split; try congruence. exists new. split; [congruence | done].
Qed.

Lemma CreateMemo_dispatched (content : string) (createdTime : Z) (dry : bool)
    (s s' : Sys) (r : result unit) :
  CreateMemo content createdTime dry s = Some (r, s') -> dispatched s s' r.
Proof.
  unfold CreateMemo. intros [= <- <-]. repeat split.
  eexists. split; [done |].
  destruct (CreateMemo_error _ _ _ _) eqn:E; [done |].
  intros _. constructor; [by cbn | done].
Qed.

Lemma createSplitMemos_dispatched (content pageTitle : string) (createdTime : Z)
    (s s' : Sys) (r : result unit) :
  createSplitMemos content pageTitle createdTime s = Some (r, s') -> dispatched s s' r.
Proof.
  unfold createSplitMemos. destruct (splitParts content) as [parts|]; [| done].
  rewrite bind_fetched.
  destruct (createParts_calls pageTitle createdTime (length parts) parts 0 s) as
    (r0 & s0 & new & Hrun & _ & _ & Hst & Hdry & Hfile & Hcalls & _ & Hok & _).
  rewrite Hrun. intros [= <- <-]. repeat split; try done.
  exists new. split; [done |]. intros H. by destruct (Hok H).
Qed.

Lemma migratePage_dispatched (fuel : nat) (page : Page) (s s' : Sys) (r : result unit) :
  migratePage fuel page s = Some (r, s') -> dispatched s s' r.
Proof.
  unfold migratePage.
  destruct (RetrieveBlocks children_endpoint fuel (ID page)) as [[blocks|e]|]; [| | done].
  2:{ rewrite bind_fetched. intros [= <- <-]. apply dispatched_quiet, cachesOnly_refl. }
  rewrite bind_fetched. destruct (length blocks =? 0).
  { intros [= <- <-]. apply dispatched_quiet, cachesOnly_refl. }
  destruct (getParentTagsCached_total page s) as (tags & s1 & Htags & Hc).
  rewrite (bind_run _ _ _ _ _ Htags).
  destruct (BlocksToMarkdown _ _ _ _) as [markdown|e].
  2:{ intros [= <- <-]. by apply dispatched_quiet. }
  case_bool_decide.
  { intros [= <- <-]. by apply dispatched_quiet. }
  assert (forall createdTime,
    (if memosMaxLength <? String.length markdown
     then let* r := createSplitMemos markdown (GetPageTitle page) createdTime in
          match r with
          | Ok _ => ret (Ok tt)
          | Err e => ret (Err (wrapErr "failed to create split memos" e))
          end
     else let* dry := gets dryRun in
          let* r := CreateMemo markdown createdTime dry in
          match r with
          | Ok _ => ret (Ok tt)
          | Err e => ret (Err (wrapErr "failed to create memo" e))
          end) s1 = Some (r, s') -> dispatched s s' r) as Hsend.
  { intros createdTime. destruct (memosMaxLength <? String.length markdown).
    - unfold bind at 1.
      destruct (createSplitMemos _ _ _ s1) as [[r0 s0]|] eqn:Hsplit; [| done].
      apply createSplitMemos_dispatched in Hsplit.
      destruct r0 as [[]|e]; intros [= <- <-]; eapply dispatched_after; try done.
      destruct Hsplit as (? & ? & ? & new & ? & ?). repeat split; try done.
      exists new. by split.
    - rewrite bind_gets. unfold bind at 1.
      destruct (CreateMemo _ _ _ s1) as [[r0 s0]|] eqn:Hcreate; [| done].
      apply CreateMemo_dispatched in Hcreate.
      destruct r0 as [[]|e]; intros [= <- <-]; eapply dispatched_after; try done.
      destruct Hcreate as (? & ? & ? & new & ? & ?). repeat split; try done.
      exists new. by split. }
  destruct (time_Parse (CreatedTime page)) as [t|].
  - rewrite bind_ret. apply Hsend.
  - rewrite bind_gets. apply Hsend.
Qed.

(** *** The loop over the pages *)

Lemma IsProcessed_marked (st : gmap string bool) (ids : list string) (id : string) :
  State.IsProcessed (foldl State.MarkProcessed st ids) id
  = bool_decide (id ∈ ids) || State.IsProcessed st id.
Proof. apply titleSetOf_foldl. Qed.

(** One iteration, after a step that succeeded: the id is marked, then
    the state is saved, and only then does the loop go on. *)
Lemma migratePages_step (fuel : nat) (page : Page) (rest : list Page) (s s1 : Sys) :
  migratePage fuel page s = Some (Ok tt, s1) ->
  let marked := State.MarkProcessed (state s1) (ID page) in
  (forall e fault, WriteFile_error (world s1) marked = Some (e, fault) ->
     migratePages fuel (page :: rest) s
     = Some (Err (wrapErr "failed to save state" e),
             set_world (fun w => {| stateFile := State.afterFault fault (stateFile w) marked;
                                    calls := calls w |})
               (set_state (fun _ => marked) s1))) /\
  (WriteFile_error (world s1) marked = None ->
     migratePages fuel (page :: rest) s
     = migratePages fuel rest
         (set_world (fun w => {| stateFile := State.Stored marked; calls := calls w |})
            (set_state (fun _ => marked) s1))).
Proof.
  intros Hpage marked. cbn [migratePages].
  rewrite (bind_run _ _ _ _ _ Hpage), bind_modify.
  split.
  - intros e fault He. unfold bind, SaveState. cbn. fold marked. by rewrite He.
  - intros He. unfold bind at 1. unfold SaveState. cbn. fold marked. by rewrite He.
Qed.

Lemma migratePages_fail (fuel : nat) (page : Page) (rest : list Page) (s s1 : Sys)
    (e : string) :
  migratePage fuel page s = Some (Err e, s1) ->
  migratePages fuel (page :: rest) s = Some (Err (pageError page e), s1).
Proof. intros Hpage. cbn [migratePages]. by rewrite (bind_run _ _ _ _ _ Hpage). Qed.

(** A loop that completes has marked the ids of all its pages and, if
    there was a page, has stored the resulting set in the state file. *)
Lemma migratePages_complete (fuel : nat) (pages : list Page) (s s' : Sys) :
  migratePages fuel pages s = Some (Ok tt, s') ->
  state s' = foldl State.MarkProcessed (state s) (ID <$> pages) /\
  dryRun s' = dryRun s /\
  (pages = [] -> s' = s) /\
  (pages <> [] -> stateFile (world s') = State.Stored (state s')).
Proof.
  revert s; induction pages as [|page rest IH]; intros s.
  - intros [= <-]. done.
  - intros Hrun.
    destruct (migratePage fuel page s) as [[[[]|e] s1]|] eqn:Hpage.
    + pose proof (migratePage_dispatched _ _ _ _ _ Hpage) as (Hst & Hdry & Hfile & _).
      destruct (migratePages_step fuel page rest s s1 Hpage) as [Hfail Hgo].
      destruct (WriteFile_error (world s1) (State.MarkProcessed (state s1) (ID page)))
        as [[e fault]|] eqn:Hw.
      * by rewrite (Hfail e fault eq_refl) in Hrun.
      * rewrite (Hgo eq_refl) in Hrun. apply IH in Hrun as (H1 & H2 & H3 & H4).
        cbn in H1, H2. split; [by rewrite H1, Hst |]. split; [congruence |].
        split; [done |]. intros _.
        destruct rest as [|page' rest]; [by rewrite (H3 eq_refl) | by apply H4].
    + by rewrite (migratePages_fail _ _ _ _ _ _ Hpage) in Hrun.
    + cbn [migratePages] in Hrun. unfold bind in Hrun. by rewrite Hpage in Hrun.
Qed.

(** The loop over [done ++ rest] is the loop over [rest], started where
    the loop over [done] completed. *)
Lemma migratePages_app (fuel : nat) (done rest : list Page) (s s1 : Sys) :
  migratePages fuel done s = Some (Ok tt, s1) ->
  migratePages fuel (done ++ rest) s = migratePages fuel rest s1.
Proof.
  revert s; induction done as [|page done IH]; intros s.
  - by intros [= <-].
  - intros Hrun. cbn [app].
    destruct (migratePage fuel page s) as [[[[]|e] s2]|] eqn:Hpage.
    + destruct (migratePages_step fuel page done s s2 Hpage) as [Hfail Hgo].
      destruct (migratePages_step fuel page (done ++ rest) s s2 Hpage) as [_ Hgo'].
      destruct (WriteFile_error (world s2) (State.MarkProcessed (state s2) (ID page)))
        as [[e fault]|] eqn:Hw.
      * by rewrite (Hfail e fault eq_refl) in Hrun.
      * rewrite (Hgo eq_refl) in Hrun. rewrite (Hgo' eq_refl). by apply IH.
    + by rewrite (migratePages_fail _ _ _ _ _ _ Hpage) in Hrun.
    + cbn [migratePages] in Hrun. unfold bind in Hrun. by rewrite Hpage in Hrun.
Qed.

(** After the search, [Migrate] is the loop over the filtered pages. *)
Lemma Migrate_pages (fuel : nat) (opts : MigrateOptions) (s : Sys) (found : list Page) :
  SearchPages search_endpoint fuel "" = Some (Ok found) ->
  Migrate fuel opts s = migratePages fuel (pagesToMigrate opts (state s) found) s.
Proof.
  intros Hsearch. unfold Migrate. rewrite Hsearch, bind_fetched, bind_gets.
  by destruct (pagesToMigrate opts (state s) found).
Qed.

Lemma filter_none {A : Type} (keep : A -> bool) (l : list A) :
  (forall x, x ∈ l -> keep x = false) -> List.filter keep l = [].
Proof.
  induction l as [|x l IH]; intros H; [done |]. cbn.
  rewrite (H x) by (by left). apply IH. intros y Hy. apply H. by right.
Qed.

(** With the resume filter, no page whose id is processed is left. *)
Lemma pagesToMigrate_resume (titles : list string) (processed : gmap string bool)
    (found : list Page) (page : Page) :
  page ∈ pagesToMigrate {| Resume := true; FilterTitles := titles |} processed found ->
  State.IsProcessed processed (ID page) = false /\
  page ∈ pagesToMigrate {| Resume := false; FilterTitles := titles |} processed found.
Proof.
  unfold pagesToMigrate. cbn [Resume FilterTitles].
  rewrite filterProcessedPages_filter, list_elem_of_In, filter_In, <- list_elem_of_In.
  intros [Hin Hp]. split; [by destruct (State.IsProcessed _ _) | done].
Qed.

(** *** The properties of a run *)

(** C3: when a run without resume completes, the state file it leaves
    holds the id of every page the run had to migrate; the resume filter
    of a second run over the same pages then leaves no page, and the
    second run returns at once: no call to the target, no write, the
    world as the first run left it. *)
Theorem resume_after_complete_run (fuel : nat) (dry dry' : bool) (titles : list string)
    (w0 w1 : World) :
  runMigrate fuel dry {| Resume := false; FilterTitles := titles |} w0 = Some (Ok tt, w1) ->
  exists found processed,
    SearchPages search_endpoint fuel "" = Some (Ok found) /\
    State.LoadState (stateFile w1) = Ok processed /\
    (forall page,
       page ∈ pagesToMigrate {| Resume := false; FilterTitles := titles |} processed found ->
       State.IsProcessed processed (ID page) = true) /\
    pagesToMigrate {| Resume := true; FilterTitles := titles |} processed found = [] /\
    runMigrate fuel dry' {| Resume := true; FilterTitles := titles |} w1 = Some (Ok tt, w1).
Proof.
  unfold runMigrate at 1, NewMigrator.
  destruct (State.LoadState (stateFile w0)) as [st0|e] eqn:Hload; [| done].
  set (s0 := {| pageCache := ∅; databaseCache := ∅; state := st0; dryRun := dry; world := w0 |}).
  destruct (Migrate fuel _ s0) as [[r s']|] eqn:Hrun; [| done]. intros [= -> <-].
  destruct (SearchPages search_endpoint fuel "") as [[found|e]|] eqn:Hsearch.
  2:{ unfold Migrate in Hrun. by rewrite Hsearch in Hrun. }
  2:{ unfold Migrate in Hrun. by rewrite Hsearch in Hrun. }
  rewrite (Migrate_pages _ _ _ _ Hsearch) in Hrun.
  set (pages := pagesToMigrate _ (state s0) found) in Hrun.
  apply migratePages_complete in Hrun as (Hst & _ & Hnil & Hcons).
  exists found, (state s').
  assert (State.LoadState (stateFile (world s')) = Ok (state s')) as Hload'.
  { destruct pages as [|page pages'] eqn:Hpages.
    - by rewrite (Hnil eq_refl).
    - by rewrite Hcons. }
  assert (forall page, page ∈ pages -> State.IsProcessed (state s') (ID page) = true) as Hall.
  { intros page Hin. rewrite Hst, IsProcessed_marked.
    rewrite bool_decide_eq_true_2; [done |]. by apply list_elem_of_fmap_2. }
  assert (pagesToMigrate {| Resume := true; FilterTitles := titles |} (state s') found = [])
    as Hnone.
  { destruct (pagesToMigrate _ (state s') found) as [|page ps] eqn:E; [done |].
    assert (page ∈ pagesToMigrate {| Resume := true; FilterTitles := titles |}
                     (state s') found) as Hin by (rewrite E; by left).
    apply pagesToMigrate_resume in Hin as [Hno Hin].
    by rewrite (Hall page Hin) in Hno. }
  split; [done |]. split; [done |]. split; [exact Hall |]. split; [done |].
  unfold runMigrate, NewMigrator. rewrite Hload'.
  rewrite (Migrate_pages _ _ _ _ Hsearch). cbn [state]. by rewrite Hnone.
Qed.

(** C4: let the pages to migrate be [done ++ page :: rest] and let the
    pages of [done] complete. Then their ids are in the processed set
    and the set is in the state file when [page] is attempted. If the
    step for [page] returns an error (as it does when the block fetch or
    a call to the target fails), the run ends there with the error
    "failed to migrate page <title> (<id>): <error>", and neither the
    processed set nor the state file have changed since [page] was
    attempted. If the step succeeds, the id is marked and the state
    saved before the loop goes on with [rest]. A save that fails ends
    the run with "failed to save state: <error>" and leaves the state
    file as far as the write got: as it was, cut short, or written. *)
Theorem Migrate_document_atomic (fuel : nat) (opts : MigrateOptions) (s s1 : Sys)
    (found done rest : list Page) (page : Page) :
  SearchPages search_endpoint fuel "" = Some (Ok found) ->
  pagesToMigrate opts (state s) found = done ++ page :: rest ->
  migratePages fuel done s = Some (Ok tt, s1) ->
  (forall d, d ∈ done -> State.IsProcessed (state s1) (ID d) = true) /\
  (done <> [] -> stateFile (world s1) = State.Stored (state s1)) /\
  (forall e s2, migratePage fuel page s1 = Some (Err e, s2) ->
     Migrate fuel opts s
     = Some (Err ("failed to migrate page " +:+ GetPageTitle page +:+ " (" +:+ ID page
                  +:+ "): " +:+ e), s2) /\
     state s2 = state s1 /\ stateFile (world s2) = stateFile (world s1)) /\
  (forall e, RetrieveBlocks children_endpoint fuel (ID page) = Some (Err e) ->
     migratePage fuel page s1 = Some (Err ("failed to retrieve blocks: " +:+ e), s1)) /\
  (forall r s2, migratePage fuel page s1 = Some (r, s2) ->
     exists new, calls (world s2) = calls (world s1) ++ new /\
       ((exists call, call ∈ new /\ memo_error call <> None) -> exists e, r = Err e)) /\
  (forall s2, migratePage fuel page s1 = Some (Ok tt, s2) ->
     let marked := State.MarkProcessed (state s1) (ID page) in
     State.IsProcessed marked (ID page) = true /\
     (forall e fault, WriteFile_error (world s2) marked = Some (e, fault) ->
        exists s3,
          Migrate fuel opts s = Some (Err ("failed to save state: " +:+ e), s3) /\
          state s3 = marked /\ calls (world s3) = calls (world s2) /\
          stateFile (world s3)
          = match fault with
            | State.NotOpened => stateFile (world s1)
            | State.Truncated =>
                State.BadFile "failed to unmarshal state: unexpected end of JSON input"
            | State.Written => State.Stored marked
            end) /\
     (WriteFile_error (world s2) marked = None ->
        exists s3, Migrate fuel opts s = migratePages fuel rest s3 /\
                   state s3 = marked /\ calls (world s3) = calls (world s2) /\
                   stateFile (world s3) = State.Stored marked)).
Proof.
  intros Hsearch Hpages Hdone.
  pose proof (migratePages_complete _ _ _ _ Hdone) as (Hst & _ & _ & Hfile).
  assert (Migrate fuel opts s = migratePages fuel (page :: rest) s1) as HM.
  { rewrite (Migrate_pages _ _ _ _ Hsearch), Hpages. by apply migratePages_app. }
  split.
  { intros d Hd. rewrite Hst, IsProcessed_marked, bool_decide_eq_true_2; [done |].
    by apply list_elem_of_fmap_2. }
  split; [exact Hfile |].
  split.
  { intros e s2 Hpage. rewrite HM, (migratePages_fail _ _ _ _ _ _ Hpage).
    by destruct (migratePage_dispatched _ _ _ _ _ Hpage) as (? & _ & ? & _). }
  split.
  { intros e He. unfold migratePage. by rewrite He. }
  split.
  { intros r s2 Hpage.
    destruct (migratePage_dispatched _ _ _ _ _ Hpage) as (_ & _ & _ & new & Hcalls & Hok).
    exists new. split; [done |]. intros (call & Hin & Herr).
    destruct r as [[]|e]; [| by exists e].
    specialize (Hok eq_refl). rewrite Forall_forall in Hok. by destruct (Herr (Hok _ Hin)). }
  intros s2 Hpage marked.
  destruct (migratePage_dispatched _ _ _ _ _ Hpage) as (Hst2 & _ & Hfile2 & _).
  destruct (migratePages_step fuel page rest s1 s2 Hpage) as [Hfail Hgo].
  rewrite Hst2 in Hfail, Hgo. fold marked in Hfail, Hgo.
  split.
  { subst marked. by rewrite State.IsProcessed_MarkProcessed, bool_decide_eq_true_2. }
  split.
  { intros e fault He. eexists. split; [rewrite HM; by apply Hfail |].
    split; [done |]. split; [done |]. cbn. rewrite Hfile2. by destruct fault. }
  intros He. eexists. split; [rewrite HM; by apply Hgo |]. done.
Qed.

(** A state file keeps an id when it holds a set in which the id is
    processed, or cannot be loaded at all. *)
Definition keepsId (id : string) (f : State.File) : Prop :=
  (exists e, f = State.BadFile e) \/
  (exists st, f = State.Stored st /\ State.IsProcessed st id = true).

(** The loop never drops an id from the processed set, and a state file
    that keeps an id keeps it through every save, failed ones too. *)
Lemma migratePages_keepsId (fuel : nat) (pages : list Page) (s s' : Sys)
    (r : result unit) (id : string) :
  State.IsProcessed (state s) id = true ->
  keepsId id (stateFile (world s)) ->
  migratePages fuel pages s = Some (r, s') ->
  State.IsProcessed (state s') id = true /\ keepsId id (stateFile (world s')).
Proof.
  revert s; induction pages as [|page rest IH]; intros s Hid Hfile.
  { by intros [= _ <-]. }
  intros Hrun.
  destruct (migratePage fuel page s) as [[[[]|e] s1]|] eqn:Hpage.
  - pose proof (migratePage_dispatched _ _ _ _ _ Hpage) as (Hst & _ & Hf & _).
    destruct (migratePages_step fuel page rest s s1 Hpage) as [Hfail Hgo].
    assert (State.IsProcessed (State.MarkProcessed (state s1) (ID page)) id = true)
      as Hmarked by (by rewrite State.IsProcessed_MarkProcessed, Hst, Hid, orb_true_r).
    destruct (WriteFile_error (world s1) (State.MarkProcessed (state s1) (ID page)))
      as [[e fault]|] eqn:Hw.
    + rewrite (Hfail e fault eq_refl) in Hrun. injection Hrun as _ <-. cbn.
      split; [done |]. rewrite Hf.
      destruct fault; cbn; [done | left; by eexists | right; by eexists].
    + rewrite (Hgo eq_refl) in Hrun. apply IH in Hrun; [done | done |].
      cbn. right. by eexists.
  - rewrite (migratePages_fail _ _ _ _ _ _ Hpage) in Hrun. injection Hrun as _ <-.
    pose proof (migratePage_dispatched _ _ _ _ _ Hpage) as (Hst & _ & Hf & _).
    by rewrite Hst, Hf.
  - cbn [migratePages] in Hrun. unfold bind in Hrun. by rewrite Hpage in Hrun.
Qed.

(** A run from a world whose state file keeps an id leaves such a
    world; and when it resumes, it either fails to load the state and
    does nothing, or loops over pages none of which has that id. *)
Lemma runMigrate_keepsId (fuel : nat) (dry : bool) (opts : MigrateOptions)
    (w w' : World) (r : result unit) (id : string) :
  keepsId id (stateFile w) ->
  runMigrate fuel dry opts w = Some (r, w') ->
  keepsId id (stateFile w') /\
  (Resume opts = true ->
   forall found, SearchPages search_endpoint fuel "" = Some (Ok found) ->
     (exists e, stateFile w = State.BadFile e /\
                r = Err ("failed to load state: " +:+ e) /\ w' = w) \/
     (exists later s',
        stateFile w = State.Stored later /\
        (forall q, q ∈ pagesToMigrate opts later found -> ID q <> id) /\
        migratePages fuel (pagesToMigrate opts later found)
          {| pageCache := ∅; databaseCache := ∅; state := later; dryRun := dry;
             world := w |} = Some (r, s') /\
        w' = world s')).
Proof.
  intros Hkeeps. unfold runMigrate, NewMigrator.
  destruct Hkeeps as [(e & Hf)|(st & Hf & Hid)]; rewrite Hf; cbn [State.LoadState].
  { intros [= <- <-]. rewrite Hf. split; [left; by eexists |].
    intros _ found _. left. by exists e. }
  set (s := {| pageCache := ∅; databaseCache := ∅; state := st; dryRun := dry;
               world := w |}).
  destruct (Migrate fuel opts s) as [[r0 s']|] eqn:Hrun; [| done]. intros [= <- <-].
  destruct (SearchPages search_endpoint fuel "") as [[found|e]|] eqn:Hsearch.
  - rewrite (Migrate_pages _ _ _ _ Hsearch) in Hrun. cbn [state s] in Hrun.
    split.
    { eapply migratePages_keepsId; [| | exact Hrun]; [done |].
      cbn. rewrite Hf. right. by eexists. }
    intros Hres found' [= <-]. right. exists st, s'.
    split; [done |]. split; [| done].
    intros q Hq Heq. destruct opts as [res titles]. cbn in Hres. subst res.
    apply pagesToMigrate_resume in Hq as [Hno _]. congruence.
  - unfold Migrate in Hrun. rewrite Hsearch in Hrun. injection Hrun as _ <-.
    cbn. rewrite Hf. split; [right; by eexists | done].
  - unfold Migrate in Hrun. by rewrite Hsearch in Hrun.
Qed.

(** C10: for a page whose blocks are fetched and are none, or whose
    rendering is the empty string, the step returns success and leaves
    the world as it is: the target is not called. The loop then marks
    the id and saves the state. A save that fails ends the run with
    "failed to save state: <error>". After a save that succeeds the
    state file holds the id, and it keeps it whatever the rest of the
    run and every later run do: the file holds a set with the id or,
    after a later save was cut short, cannot be loaded. A later run that
    resumes from such a file either fails to load the state and
    attempts no page, or loops over pages none of which has the id. *)
Theorem migratePage_skips_empty (fuel : nat) (page : Page) (s : Sys) (blocks : list Block) :
  RetrieveBlocks children_endpoint fuel (ID page) = Some (Ok blocks) ->
  (blocks = [] \/
   exists tags s1,
     getParentTagsCached page s = Some (Ok tags, s1) /\
     BlocksToMarkdown blocks (CreatedTime page) (GetPageTitle page) (lowerTagebuch tags)
     = Ok "") ->
  exists s1,
    migratePage fuel page s = Some (Ok tt, s1) /\
    world s1 = world s /\ state s1 = state s /\
    let marked := State.MarkProcessed (state s) (ID page) in
    let kept (w : World) :=
      (exists e, stateFile w = State.BadFile e) \/
      (exists st, stateFile w = State.Stored st /\
                  State.IsProcessed st (ID page) = true) in
    (forall rest e fault, WriteFile_error (world s) marked = Some (e, fault) ->
       exists s2, migratePages fuel (page :: rest) s
                  = Some (Err ("failed to save state: " +:+ e), s2) /\
                  state s2 = marked /\ calls (world s2) = calls (world s) /\
                  stateFile (world s2)
                  = match fault with
                    | State.NotOpened => stateFile (world s)
                    | State.Truncated =>
                        State.BadFile
                          "failed to unmarshal state: unexpected end of JSON input"
                    | State.Written => State.Stored marked
                    end) /\
    (forall rest, WriteFile_error (world s) marked = None ->
       exists s2, migratePages fuel (page :: rest) s = migratePages fuel rest s2 /\
                  state s2 = marked /\
                  world s2 = {| stateFile := State.Stored marked;
                                calls := calls (world s) |} /\
                  State.IsProcessed marked (ID page) = true /\
                  forall r s3, migratePages fuel rest s2 = Some (r, s3) ->
                               kept (world s3)) /\
    (forall w, kept w ->
       forall fuel' dry' opts r' w',
         runMigrate fuel' dry' opts w = Some (r', w') ->
         kept w' /\
         (Resume opts = true ->
          forall found, SearchPages search_endpoint fuel' "" = Some (Ok found) ->
            (exists e, stateFile w = State.BadFile e /\
                       r' = Err ("failed to load state: " +:+ e) /\ w' = w) \/
            (exists later s',
               stateFile w = State.Stored later /\
               (forall q, q ∈ pagesToMigrate opts later found -> ID q <> ID page) /\
               migratePages fuel' (pagesToMigrate opts later found)
                 {| pageCache := ∅; databaseCache := ∅; state := later;
                    dryRun := dry'; world := w |} = Some (r', s') /\
               w' = world s'))).
Proof.
  intros Hblocks Hempty.
  assert (exists s1, migratePage fuel page s = Some (Ok tt, s1) /\ cachesOnly s s1)
    as (s1 & Hpage & Hst & Hdry & Hw & _).
  { unfold migratePage. rewrite Hblocks, bind_fetched.
    destruct Hempty as [->|(tags & s1 & Htags & Hmd)].
    - exists s. split; [done | apply cachesOnly_refl].
    - destruct (length blocks =? 0); [exists s; split; [done | apply cachesOnly_refl] |].
      destruct (getParentTagsCached_total page s) as (tags' & s1' & Htags' & Hc).
      rewrite Htags in Htags'. injection Htags' as <- <-.
      exists s1. split; [| done].
      rewrite (bind_run _ _ _ _ _ Htags), Hmd. by rewrite bool_decide_eq_true_2. }
  exists s1. split; [done |]. split; [done |]. split; [done |].
  intros marked kept.
  assert (State.IsProcessed marked (ID page) = true) as Hmarked.
  { subst marked. by rewrite State.IsProcessed_MarkProcessed, bool_decide_eq_true_2. }
  split.
  { intros rest e fault He.
    destruct (migratePages_step fuel page rest s s1 Hpage) as [Hfail _].
    rewrite Hst, Hw in Hfail. fold marked in Hfail.
    eexists. split; [by apply Hfail |]. split; [done |]. cbn. rewrite Hw.
    split; [done | by destruct fault]. }
  split.
  { intros rest He.
    destruct (migratePages_step fuel page rest s s1 Hpage) as [_ Hgo].
    rewrite Hst, Hw in Hgo. fold marked in Hgo.
    eexists. split; [by apply Hgo |]. split; [done |]. cbn. rewrite Hw.
    split; [done |]. split; [done |]. intros r s3 Hrest.
    eapply (migratePages_keepsId _ _ _ _ _ (ID page)) in Hrest as [_ Hk]; [exact Hk | done |].
    cbn. right. by eexists. }
  intros w Hk fuel' dry' opts r' w' Hrun.
  exact (runMigrate_keepsId fuel' dry' opts w w' r' (ID page) Hk Hrun).
Qed.

(** *** Further properties of tag resolution *)

Lemma bind_inv {A B : Type} (m : M A) (k : A -> M B) (s s' : Sys) (b : B) :
  bind m k s = Some (b, s') -> exists a s1, m s = Some (a, s1) /\ k a s1 = Some (b, s').
Proof. unfold bind. destruct (m s) as [[a s1]|]; [eauto | done]. Qed.

Lemma ancestorChain_length (resolve : string -> result Page) (hops : nat)
    (pageID : string) (ancestors : list Page) :
  ancestorChain resolve hops pageID ancestors -> length ancestors <= hops.
Proof. induction 1; cbn; lia. Qed.

Lemma ancestorChain_unique (resolve : string -> result Page) (hops : nat)
    (pageID : string) (l1 l2 : list Page) :
  ancestorChain resolve hops pageID l1 -> ancestorChain resolve hops pageID l2 -> l1 = l2.
Proof.
  intros H1; revert l2.
  induction H1 as [hops|pageID|hops pageID e Hne He|hops pageID parent l Hne He _ IH];
    intros l2 H2; inversion H2; subst; try done; try congruence.
  assert (parent0 = parent) as -> by congruence. f_equal. by apply IH.
Qed.

(** The tag of the collection: its title when the page names one and it
    resolves, nothing otherwise. *)
Definition collectionTags (s : Sys) (page : Page) : list string :=
  if bool_decide (GetParentDatabaseID page <> "") then
    match resolveDatabase s (GetParentDatabaseID page) with
    | Ok database => [GetDatabaseTitle database]
    | Err _ => []
    end
  else [].

(** Tag resolution in full: it always returns tags, never an error. *)
Lemma getParentTagsCached_tags (page : Page) (s : Sys) :
  exists ancestors s',
    ancestorChain (resolvePage s) 10 (GetParentPageID page) ancestors /\
    getParentTagsCached page s
    = Some (Ok ((GetPageTitle <$> reverse ancestors) ++ collectionTags s page), s') /\
    cachesOnly s s'.
Proof.
  unfold getParentTagsCached, collectionTags.
  assert (exists s1,
    (if bool_decide (GetParentDatabaseID page <> "")
     then let* r := getDatabaseCached (GetParentDatabaseID page) in
          match r with
          | Ok database => ret ([] ++ [GetDatabaseTitle database])
          | Err _ => ret []
          end
     else ret []) s
    = Some (if bool_decide (GetParentDatabaseID page <> "")
            then match resolveDatabase s (GetParentDatabaseID page) with
                 | Ok database => [GetDatabaseTitle database]
                 | Err _ => []
                 end
            else [], s1) /\ cachesOnly s s1) as (s1 & Hdb & Hc1).
  { case_bool_decide.
    - destruct (getDatabaseCached_resolve (GetParentDatabaseID page) s) as (s1 & Hget & Hc).
      rewrite (bind_run _ _ _ _ _ Hget).
      destruct (resolveDatabase s (GetParentDatabaseID page)); eauto.
    - exists s. split; [done | apply cachesOnly_refl]. }
  destruct (ancestorChain_total (resolvePage s) 10 (GetParentPageID page)) as [ancestors Hch].
  destruct (walkParents_chain 10 (GetParentPageID page) ancestors
              (if bool_decide (GetParentDatabaseID page <> "")
               then match resolveDatabase s (GetParentDatabaseID page) with
                    | Ok database => [GetDatabaseTitle database]
                    | Err _ => []
                    end
               else []) s1) as (s2 & Hwalk & Hc2).
  { eapply ancestorChain_ext; [| done]. by destruct Hc1 as (_ & _ & _ & Hc1). }
  exists ancestors, s2. split; [done |]. split; [| by eapply cachesOnly_trans].
  rewrite (bind_run _ _ _ _ _ Hdb). by rewrite (bind_run _ _ _ _ _ Hwalk).
Qed.


(** However the parent references are linked, cycles included, a page
    gets at most 11 tags: at most 10 ancestors and the collection. *)
Theorem getParentTagsCached_at_most_11 (page : Page) (s s' : Sys) (tags : list string) :
  getParentTagsCached page s = Some (Ok tags, s') -> length tags <= 11.
Proof.
  destruct (getParentTagsCached_tags page s) as (ancestors & s2 & Hch & Hrun & _).
  rewrite Hrun. intros [= <- _].
  apply ancestorChain_length in Hch.
  rewrite length_app, length_fmap, length_reverse. unfold collectionTags.
  case_bool_decide; [destruct (resolveDatabase _ _) |]; cbn; lia.
Qed.

(** Failures of the lookups never fail tag resolution. When the page
    names no collection, or its collection cannot be fetched, the tags
    are the titles of the ancestors alone; and when the direct parent
    cannot be fetched (or there is none), the tags are the collection's
    alone. *)
Theorem getParentTagsCached_tolerates_failures (page : Page) (s : Sys) :
  exists tags s',
    getParentTagsCached page s = Some (Ok tags, s') /\
    (forall ancestors,
       ancestorChain (resolvePage s) 10 (GetParentPageID page) ancestors ->
       (GetParentDatabaseID page = "" \/
        exists e, resolveDatabase s (GetParentDatabaseID page) = Err e) ->
       tags = GetPageTitle <$> reverse ancestors) /\
    ((GetParentPageID page = "" \/
      exists e, resolvePage s (GetParentPageID page) = Err e) ->
     tags = collectionTags s page).
Proof.
  destruct (getParentTagsCached_tags page s) as (ancestors & s2 & Hch & Hrun & _).
  eexists _, s2. split; [exact Hrun |]. split.
  - intros ancestors' Hch' Hdb.
    rewrite (ancestorChain_unique _ _ _ _ _ Hch' Hch).
    unfold collectionTags. destruct Hdb as [Hdb|[e Hdb]].
    + rewrite bool_decide_eq_false_2 by (by intros H). by rewrite app_nil_r.
    + rewrite Hdb. case_bool_decide; by rewrite app_nil_r.
  - intros Hpar.
    assert (ancestors = []) as ->; [| done].
    destruct Hpar as [Hpar|[e Hpar]].
    + rewrite Hpar in Hch. by inversion Hch.
    + inversion Hch; subst; try done. congruence.
Qed.

(** The caches agree with the source: every entry is what the source
    answers for its id. *)
Definition cachesFaithful (s : Sys) : Prop :=
  (forall pageID page, pageCache s !! pageID = Some page -> RetrievePage pageID = Ok page) /\
  (forall databaseID database,
     databaseCache s !! databaseID = Some database ->
     RetrieveDatabase databaseID = Ok database).

(** The caches only grow, by entries the source answered. *)
Definition cachesGrow (s s' : Sys) : Prop :=
  pageCache s ⊆ pageCache s' /\ databaseCache s ⊆ databaseCache s' /\
  (forall pageID page, pageCache s' !! pageID = Some page ->
     pageCache s !! pageID = Some page \/ RetrievePage pageID = Ok page) /\
  (forall databaseID database, databaseCache s' !! databaseID = Some database ->
     databaseCache s !! databaseID = Some database \/
     RetrieveDatabase databaseID = Ok database).

Lemma cachesGrow_refl (s : Sys) : cachesGrow s s.
Proof. repeat split; auto. Qed.

Lemma cachesGrow_trans (s1 s2 s3 : Sys) :
  cachesGrow s1 s2 -> cachesGrow s2 s3 -> cachesGrow s1 s3.
Proof.
  intros (H1 & H2 & H3 & H4) (H1' & H2' & H3' & H4').
  split; [by etrans |]. split; [by etrans |]. split.
  - intros id p Hp. destruct (H3' id p Hp) as [Hp'|]; [by apply H3 | by right].
  - intros id d Hd. destruct (H4' id d Hd) as [Hd'|]; [by apply H4 | by right].
Qed.

Lemma getPageCached_grows (pageID : string) (s s' : Sys) (r : result Page) :
  getPageCached pageID s = Some (r, s') -> cachesGrow s s'.
Proof.
  unfold getPageCached.
  destruct (pageCache s !! pageID) as [cached|] eqn:Hc.
  { intros [= <- <-]. apply cachesGrow_refl. }
  destruct (RetrievePage pageID) as [page|e] eqn:Hr; intros [= <- <-];
    [| apply cachesGrow_refl].
  split; [by apply insert_subseteq |]. split; [done |]. split; [| auto].
  intros id p. cbn. rewrite lookup_insert. case_decide; [| auto].
  intros [= <-]. subst. by right.
Qed.

Lemma getDatabaseCached_grows (databaseID : string) (s s' : Sys) (r : result Database) :
  getDatabaseCached databaseID s = Some (r, s') -> cachesGrow s s'.
Proof.
  unfold getDatabaseCached.
  destruct (databaseCache s !! databaseID) as [cached|] eqn:Hc.
  { intros [= <- <-]. apply cachesGrow_refl. }
  destruct (RetrieveDatabase databaseID) as [database|e] eqn:Hr; intros [= <- <-];
    [| apply cachesGrow_refl].
  split; [done |]. split; [by apply insert_subseteq |]. split; [auto |].
  intros id d. cbn. rewrite lookup_insert. case_decide; [| auto].
  intros [= <-]. subst. by right.
Qed.

Lemma walkParents_grows (hops : nat) (pageID : string) (tags tags' : list string)
    (s s' : Sys) :
  walkParents hops pageID tags s = Some (tags', s') -> cachesGrow s s'.
Proof.
  revert pageID tags s; induction hops as [|hops IH]; intros pageID tags s.
  { intros [= _ <-]. apply cachesGrow_refl. }
  cbn [walkParents]. case_bool_decide.
  { intros [= _ <-]. apply cachesGrow_refl. }
  unfold bind at 1. destruct (getPageCached pageID s) as [[r s1]|] eqn:Hget; [| done].
  apply getPageCached_grows in Hget. destruct r as [parent|e].
  - intros Hwalk. apply IH in Hwalk. by eapply cachesGrow_trans.
  - by intros [= _ <-].
Qed.

(** Tag resolution treats the caches as write-once: entries are never
    removed or replaced, failed fetches are not cached, and every new
    entry is what the source answered for its id; so caches that agree
    with the source keep agreeing with it. *)
Theorem getParentTagsCached_caches_write_once (page : Page) (s s' : Sys)
    (r : result (list string)) :
  getParentTagsCached page s = Some (r, s') ->
  pageCache s ⊆ pageCache s' /\ databaseCache s ⊆ databaseCache s' /\
  (forall pageID cached, pageCache s' !! pageID = Some cached ->
     pageCache s !! pageID = Some cached \/ RetrievePage pageID = Ok cached) /\
  (forall databaseID cached, databaseCache s' !! databaseID = Some cached ->
     databaseCache s !! databaseID = Some cached \/
     RetrieveDatabase databaseID = Ok cached) /\
  (cachesFaithful s -> cachesFaithful s').
Proof.
  intros Hrun. assert (cachesGrow s s') as Hg.
  { unfold getParentTagsCached in Hrun.
    apply bind_inv in Hrun as (tags & s1 & Hdb & Hrun).
    apply bind_inv in Hrun as (tags' & s2 & Hwalk & Hrun).
    injection Hrun as _ <-.
    apply walkParents_grows in Hwalk.
    eapply cachesGrow_trans; [| exact Hwalk].
    revert Hdb. case_bool_decide; [| intros [= _ <-]; apply cachesGrow_refl].
    intros (rd & sd & Hget & Hret)%bind_inv.
    apply getDatabaseCached_grows in Hget.
    destruct rd; by injection Hret as _ <-. }
  destruct Hg as (H1 & H2 & H3 & H4). repeat split; try done.
  - intros id p Hp. destruct (H3 id p Hp) as [Hold|]; [| done].
    by apply H.
  - intros id d Hd. destruct (H4 id d Hd) as [Hold|]; [| done].
    by apply H.
Qed.

Lemma resolvePage_faithful (s : Sys) (pageID : string) :
  cachesFaithful s -> resolvePage s pageID = RetrievePage pageID.
Proof.
  intros [Hp _]. unfold resolvePage.
  destruct (pageCache s !! pageID) as [cached|] eqn:Hc; [| done].
  by rewrite (Hp _ _ Hc).
Qed.

Lemma resolveDatabase_faithful (s : Sys) (databaseID : string) :
  cachesFaithful s -> resolveDatabase s databaseID = RetrieveDatabase databaseID.
Proof.
  intros [_ Hd]. unfold resolveDatabase.
  destruct (databaseCache s !! databaseID) as [cached|] eqn:Hc; [| done].
  by rewrite (Hd _ _ Hc).
Qed.

(** Caching does not change the tags: from any two states whose caches
    agree with the source (empty caches in particular), tag resolution
    returns the same tags for a page. *)
Theorem getParentTagsCached_cache_transparent (page : Page) (s1 s2 : Sys) :
  cachesFaithful s1 -> cachesFaithful s2 ->
  fst <$> getParentTagsCached page s1 = fst <$> getParentTagsCached page s2.
Proof.
  intros Hf1 Hf2.
  destruct (getParentTagsCached_tags page s1) as (a1 & s1' & Hch1 & -> & _).
  destruct (getParentTagsCached_tags page s2) as (a2 & s2' & Hch2 & -> & _).
  assert (a1 = a2) as ->.
  { eapply ancestorChain_unique; [exact Hch1 |].
    eapply ancestorChain_ext; [| exact Hch2].
    intros id. by rewrite !resolvePage_faithful. }
  cbn. do 3 f_equal. unfold collectionTags.
  by rewrite !resolveDatabase_faithful.
Qed.

(** *** Further properties of splitting and dispatching *)

(** A split page is dispatched part by part and the loop stops at the
    first part the target refuses: the parts before it stay created on
    the target, the parts after it are never sent, and the error names
    the number of the refused part. *)
Theorem createSplitMemos_stops_at_failure (content pageTitle : string) (createdTime : Z)
    (s s' : Sys) (e : string) :
  createSplitMemos content pageTitle createdTime s = Some (Err e, s') ->
  exists parts k part e' new,
    splitParts content = Some parts /\
    parts !! k = Some part /\
    calls (world s') = calls (world s) ++ new /\
    length new = S k /\
    (forall j call, j < k -> new !! j = Some call -> memo_error call = None) /\
    (exists call, new !! k = Some call /\ memo_error call = Some e' /\
                  memo_content call = memoContent pageTitle (length parts) k part) /\
    e = wrapErr ("failed to create memo part " +:+ pretty (k + 1)) e'.
Proof.
  unfold createSplitMemos. destruct (splitParts content) as [parts|]; [| done].
  rewrite bind_fetched. intros Hrun.
  apply createParts_failure in Hrun as (k & p & e' & new & Hp & Hcalls & Hlen & Hok & Hk & He).
  exists parts, k, p, e', new. repeat (split; [done |]).
  split; [eexists; split; [exact Hk | by split] | done].
Qed.

(** *** Further properties of a run *)

(** The calls a step adds carry the dry-run flag of the migrator. *)
Definition callsCarryFlag (s s' : Sys) : Prop :=
  dryRun s' = dryRun s /\
  exists new, calls (world s') = calls (world s) ++ new /\
              Forall (fun call => memo_dryRun call = dryRun s) new.

Lemma callsCarryFlag_refl (s : Sys) : callsCarryFlag s s.
Proof. split; [done |]. exists []. by rewrite app_nil_r. Qed.

Lemma callsCarryFlag_trans (s1 s2 s3 : Sys) :
  callsCarryFlag s1 s2 -> callsCarryFlag s2 s3 -> callsCarryFlag s1 s3.
Proof.
  intros (Hd & new & Hc & Hf) (Hd' & new' & Hc' & Hf').
  split; [congruence |]. exists (new ++ new'). split.
  - by rewrite Hc', Hc, app_assoc.
  - apply Forall_app. split; [done |]. by rewrite <- Hd.
Qed.

Lemma callsCarryFlag_quiet (s s' : Sys) : cachesOnly s s' -> callsCarryFlag s s'.
Proof.
  intros (_ & Hd & Hw & _). split; [done |]. exists []. by rewrite app_nil_r, Hw.
Qed.

Lemma CreateMemo_carries_flag (content : string) (createdTime : Z) (s s' : Sys)
    (r : result unit) :
  CreateMemo content createdTime (dryRun s) s = Some (r, s') -> callsCarryFlag s s'.
Proof.
  unfold CreateMemo. intros [= _ <-]. split; [done |]. eexists. split; [done |].
  by constructor.
Qed.

Lemma createSplitMemos_carries_flag (content pageTitle : string) (createdTime : Z)
    (s s' : Sys) (r : result unit) :
  createSplitMemos content pageTitle createdTime s = Some (r, s') -> callsCarryFlag s s'.
Proof.
  unfold createSplitMemos. destruct (splitParts content) as [parts|]; [| done].
  rewrite bind_fetched.
  destruct (createParts_calls pageTitle createdTime (length parts) parts 0 s) as
    (r0 & s0 & new & Hrun & _ & _ & _ & Hdry & _ & Hcalls & Hnew & _).
  rewrite Hrun. intros [= _ <-]. split; [done |]. exists new. split; [done |].
  apply Forall_lookup. intros k call Hk.
  by destruct (Hnew k call Hk) as (? & _ & _ & _ & ?).
Qed.

Lemma migratePage_carries_flag (fuel : nat) (page : Page) (s s' : Sys) (r : result unit) :
  migratePage fuel page s = Some (r, s') -> callsCarryFlag s s'.
Proof.
  unfold migratePage.
  destruct (RetrieveBlocks children_endpoint fuel (ID page)) as [[blocks|e]|]; [| | done].
  2:{ rewrite bind_fetched. intros [= _ <-]. apply callsCarryFlag_refl. }
  rewrite bind_fetched. destruct (length blocks =? 0).
  { intros [= _ <-]. apply callsCarryFlag_refl. }
  destruct (getParentTagsCached_total page s) as (tags & s1 & Htags & Hc).
  rewrite (bind_run _ _ _ _ _ Htags).
  apply callsCarryFlag_quiet in Hc.
  destruct (BlocksToMarkdown _ _ _ _) as [markdown|e]; [| by intros [= _ <-]].
  case_bool_decide; [by intros [= _ <-] |].
  assert (forall createdTime,
    (if memosMaxLength <? String.length markdown
     then let* r := createSplitMemos markdown (GetPageTitle page) createdTime in
          match r with
          | Ok _ => ret (Ok tt)
          | Err e => ret (Err (wrapErr "failed to create split memos" e))
          end
     else let* dry := gets dryRun in
          let* r := CreateMemo markdown createdTime dry in
          match r with
          | Ok _ => ret (Ok tt)
          | Err e => ret (Err (wrapErr "failed to create memo" e))
          end) s1 = Some (r, s') -> callsCarryFlag s s') as Hsend.
  { intros createdTime. destruct (memosMaxLength <? String.length markdown).
    - intros (r0 & s0 & Hsplit & Hret)%bind_inv.
      apply createSplitMemos_carries_flag in Hsplit.
      eapply callsCarryFlag_trans; [exact Hc |].
      destruct r0; by injection Hret as _ <-.
    - rewrite bind_gets. intros (r0 & s0 & Hcreate & Hret)%bind_inv.
      apply CreateMemo_carries_flag in Hcreate.
      eapply callsCarryFlag_trans; [exact Hc |].
      destruct r0; by injection Hret as _ <-. }
  destruct (time_Parse (CreatedTime page)) as [t|].
  - rewrite bind_ret. apply Hsend.
  - rewrite bind_gets. apply Hsend.
Qed.

(** What an iteration of the loop over the pages can do. *)
Lemma migratePages_inv (fuel : nat) (page : Page) (rest : list Page) (s s' : Sys)
    (r : result unit) :
  migratePages fuel (page :: rest) s = Some (r, s') ->
  exists rp s1,
    migratePage fuel page s = Some (rp, s1) /\
    ((exists e, rp = Err e /\ r = Err (pageError page e) /\ s' = s1) \/
     (rp = Ok tt /\
      let marked := State.MarkProcessed (state s1) (ID page) in
      ((exists e fault, WriteFile_error (world s1) marked = Some (e, fault) /\
                  r = Err (wrapErr "failed to save state" e) /\
                  s' = set_world
                         (fun w => {| stateFile := State.afterFault fault (stateFile w)
                                                     marked;
                                      calls := calls w |})
                         (set_state (fun _ => marked) s1)) \/
       (WriteFile_error (world s1) marked = None /\
        migratePages fuel rest
          (set_world (fun w => {| stateFile := State.Stored marked; calls := calls w |})
             (set_state (fun _ => marked) s1)) = Some (r, s'))))).
Proof.
  intros Hrun.
  destruct (migratePage fuel page s) as [[[[]|e] s1]|] eqn:Hpage.
  - exists (Ok tt), s1. split; [done |]. right. split; [done |]. intros marked.
    destruct (migratePages_step fuel page rest s s1 Hpage) as [Hfail Hgo].
    fold marked in Hfail, Hgo.
    destruct (WriteFile_error (world s1) marked) as [[e fault]|] eqn:Hw.
    + left. exists e, fault. rewrite (Hfail e fault eq_refl) in Hrun.
      by injection Hrun as <- <-.
    + right. split; [done |]. by rewrite (Hgo eq_refl) in Hrun.
  - exists (Err e), s1. split; [done |]. left. exists e.
    rewrite (migratePages_fail _ _ _ _ _ _ Hpage) in Hrun. by injection Hrun as <- <-.
  - cbn [migratePages] in Hrun. unfold bind in Hrun. by rewrite Hpage in Hrun.
Qed.

Lemma migratePages_carries_flag (fuel : nat) (pages : list Page) (s s' : Sys)
    (r : result unit) :
  migratePages fuel pages s = Some (r, s') -> callsCarryFlag s s'.
Proof.
  revert s; induction pages as [|page rest IH]; intros s.
  { intros [= _ <-]. apply callsCarryFlag_refl. }
  intros (rp & s1 & Hpage & Hcases)%migratePages_inv.
  apply migratePage_carries_flag in Hpage.
  destruct Hcases as [(e & _ & _ & ->)|(_ & [(e & fault & _ & _ & ->)|(_ & Hrest)])];
    [done | |].
  - eapply callsCarryFlag_trans; [exact Hpage |]. split; [done |]. exists [].
    by rewrite app_nil_r.
  - apply IH in Hrest. eapply callsCarryFlag_trans; [exact Hpage |].
    destruct Hrest as (Hd & new & Hc & Hf). split; [done |]. exists new. by split.
Qed.

(** The dry-run flag given to a run reaches every call to the memo
    client: a dry run makes no call with the flag off (and a real run
    none with the flag on); and a run only adds calls, after those
    made before. *)
Theorem runMigrate_carries_flag (fuel : nat) (dry : bool) (opts : MigrateOptions)
    (w w' : World) (r : result unit) :
  runMigrate fuel dry opts w = Some (r, w') ->
  exists new, calls w' = calls w ++ new /\
              Forall (fun call => memo_dryRun call = dry) new.
Proof.
  unfold runMigrate, NewMigrator.
  destruct (State.LoadState (stateFile w)) as [st|e].
  2:{ intros [= _ <-]. exists []. by rewrite app_nil_r. }
  set (s := {| pageCache := ∅; databaseCache := ∅; state := st; dryRun := dry; world := w |}).
  destruct (Migrate fuel opts s) as [[r0 s']|] eqn:Hrun; [| done]. intros [= _ <-].
  assert (callsCarryFlag s s') as (_ & new & Hc & Hf); [| by exists new].
  unfold Migrate in Hrun.
  destruct (SearchPages search_endpoint fuel "") as [[found|e]|]; [| | done].
  - rewrite bind_fetched, bind_gets in Hrun.
    destruct (length _ =? 0); [injection Hrun as _ <-; apply callsCarryFlag_refl |].
    by apply migratePages_carries_flag in Hrun.
  - injection Hrun as _ <-. apply callsCarryFlag_refl.
Qed.

Lemma migratePages_progress (fuel : nat) (pages : list Page) (s s' : Sys)
    (r : result unit) :
  migratePages fuel pages s = Some (r, s') ->
  exists done rest,
    pages = done ++ rest /\
    state s' = foldl State.MarkProcessed (state s) (ID <$> done) /\
    (r = Ok tt -> rest = []) /\
    (stateFile (world s') = stateFile (world s) \/
     (exists saved, saved `prefix_of` done /\
        stateFile (world s')
        = State.Stored (foldl State.MarkProcessed (state s) (ID <$> saved))) \/
     (stateFile (world s')
      = State.BadFile "failed to unmarshal state: unexpected end of JSON input" /\
      exists e, r = Err ("failed to save state: " +:+ e))).
Proof.
  revert s; induction pages as [|page pages IH]; intros s.
  { intros [= <- <-]. exists [], []. repeat split; auto. }
  intros (rp & s1 & Hpage & Hcases)%migratePages_inv.
  apply migratePage_dispatched in Hpage as (Hst & _ & Hfile & _).
  destruct Hcases as [(e & _ & -> & ->)|(_ & [(e & fault & _ & -> & ->)|(_ & Hrest)])].
  - exists [], (page :: pages). repeat split; auto. done.
  - exists [page], pages. cbn. rewrite Hst. split; [done |]. split; [done |].
    split; [done |]. destruct fault; cbn.
    + by left.
    + right; right. split; [done | by exists e].
    + right; left. by exists [page].
  - apply IH in Hrest as (done & rest & -> & Hst' & Hok & Hf).
    cbn in Hst', Hf. rewrite Hst in Hst', Hf.
    exists (page :: done), rest. split; [done |]. split; [done |]. split; [done |].
    right. destruct Hf as [Hf|[(saved & Hpre & Hf)|Hf]].
    + left. exists [page]. split; [| done]. by exists done.
    + left. exists (page :: saved). split; [| done]. by apply prefix_cons.
    + by right.
Qed.

(** Whatever the outcome of a run, the processed set it ends with is the
    one it started with plus the ids of a prefix of the pages to migrate
    (all of them when the run succeeds), and nothing processed is
    forgotten. The state file is untouched, or holds the initial set
    plus the ids of a prefix of those pages, or, when the run ended with
    a save that failed after it had opened the file, is left cut short
    and cannot be loaded. *)
Theorem Migrate_marks_prefix (fuel : nat) (opts : MigrateOptions) (s s' : Sys)
    (r : result unit) (found : list Page) :
  SearchPages search_endpoint fuel "" = Some (Ok found) ->
  Migrate fuel opts s = Some (r, s') ->
  exists done rest,
    pagesToMigrate opts (state s) found = done ++ rest /\
    state s' = foldl State.MarkProcessed (state s) (ID <$> done) /\
    (r = Ok tt -> rest = []) /\
    (forall id, State.IsProcessed (state s) id = true ->
                State.IsProcessed (state s') id = true) /\
    (stateFile (world s') = stateFile (world s) \/
     (exists saved, saved `prefix_of` done /\
        stateFile (world s')
        = State.Stored (foldl State.MarkProcessed (state s) (ID <$> saved))) \/
     (stateFile (world s')
      = State.BadFile "failed to unmarshal state: unexpected end of JSON input" /\
      State.LoadState (stateFile (world s'))
      = Err "failed to unmarshal state: unexpected end of JSON input" /\
      exists e, r = Err ("failed to save state: " +:+ e))).
Proof.
  intros Hsearch Hrun. rewrite (Migrate_pages _ _ _ _ Hsearch) in Hrun.
  apply migratePages_progress in Hrun as (done & rest & Hpages & Hst & Hok & Hf).
  exists done, rest. repeat (split; [done |]). split.
  - intros id Hid. by rewrite Hst, IsProcessed_marked, Hid, orb_true_r.
  - destruct Hf as [Hf|[Hf|(Hf & He)]]; [by left | right; by left |].
    right; right. rewrite Hf. done.
Qed.

Lemma filterProcessedPages_none_processed (st : gmap string bool) (pages : list Page) :
  (forall id, State.IsProcessed st id = false) -> filterProcessedPages st pages = pages.
Proof.
  intros H. rewrite filterProcessedPages_filter.
  induction pages as [|p pages IH]; [done |]. cbn. by rewrite H, IH.
Qed.

Lemma Migrate_none_processed (fuel : nat) (titles : list string) (s : Sys) :
  (forall id, State.IsProcessed (state s) id = false) ->
  Migrate fuel {| Resume := true; FilterTitles := titles |} s
  = Migrate fuel {| Resume := false; FilterTitles := titles |} s.
Proof.
  intros Hnone.
  destruct (SearchPages search_endpoint fuel "") as [[found|e]|] eqn:Hsearch.
  - rewrite !(Migrate_pages _ _ _ _ Hsearch). f_equal.
    unfold pagesToMigrate. cbn [Resume FilterTitles].
    by apply filterProcessedPages_none_processed.
  - unfold Migrate. by rewrite Hsearch.
  - unfold Migrate. by rewrite Hsearch.
Qed.

(** Resuming when nothing is recorded as processed (no state file yet,
    or one that was reset) is the same run as not resuming. *)
Theorem runMigrate_resume_from_nothing (fuel : nat) (dry : bool) (titles : list string)
    (w : World) :
  (forall st, State.LoadState (stateFile w) = Ok st ->
              forall id, State.IsProcessed st id = false) ->
  runMigrate fuel dry {| Resume := true; FilterTitles := titles |} w
  = runMigrate fuel dry {| Resume := false; FilterTitles := titles |} w.
Proof.
  intros Hnone. unfold runMigrate, NewMigrator.
  destruct (State.LoadState (stateFile w)) as [st|e] eqn:Hload; [| done].
  specialize (Hnone st eq_refl).
  by rewrite (Migrate_none_processed fuel titles
                {| pageCache := ∅; databaseCache := ∅; state := st; dryRun := dry;
                   world := w |} Hnone).
Qed.

(** A page whose rendering is not empty and at most 8192 bytes long
    (8192 included) is sent as one memo: a single call to the memo
    client, with the rendering as content, the creation time of the page
    (the current time when it does not parse) and the dry-run flag of
    the migrator. The page fails exactly when that call does, and the
    processed set is left to the caller. *)
Theorem migratePage_single_memo (fuel : nat) (page : Page) (s s1 : Sys)
    (blocks : list Block) (tags : list string) (markdown : string) :
  RetrieveBlocks children_endpoint fuel (ID page) = Some (Ok blocks) ->
  blocks <> [] ->
  getParentTagsCached page s = Some (Ok tags, s1) ->
  BlocksToMarkdown blocks (CreatedTime page) (GetPageTitle page) (lowerTagebuch tags)
  = Ok markdown ->
  markdown <> "" ->
  String.length markdown <= memosMaxLength ->
  let createdTime := default (time_Now (world s)) (time_Parse (CreatedTime page)) in
  let err := CreateMemo_error (calls (world s)) markdown createdTime (dryRun s) in
  exists s',
    migratePage fuel page s
    = Some (match err with
            | Some e => Err (wrapErr "failed to create memo" e)
            | None => Ok tt
            end, s') /\
    calls (world s')
    = calls (world s) ++ [{| memo_content := markdown; memo_time := createdTime;
                             memo_dryRun := dryRun s; memo_error := err |}] /\
    state s' = state s /\ stateFile (world s') = stateFile (world s).
Proof.
  intros Hblocks Hne Htags Hmd Hnz Hlen createdTime err.
  destruct (getParentTagsCached_total page s) as (tags' & s1' & Htags' & Hc).
  rewrite Htags in Htags'. injection Htags' as <- <-.
  destruct Hc as (Hst & Hdry & Hw & _).
  unfold migratePage. rewrite Hblocks, bind_fetched.
  destruct blocks as [|b blocks]; [done |].
  cbn [length Nat.eqb]. rewrite (bind_run _ _ _ _ _ Htags). cbn beta iota.
  rewrite Hmd. rewrite (bool_decide_eq_false_2 _ Hnz).
  assert ((memosMaxLength <? String.length markdown) = false) as Hfit
    by (apply Nat.ltb_ge; exact Hlen).
  subst createdTime err.
  destruct (time_Parse (CreatedTime page)) as [t|]; cbn [default];
    [rewrite bind_ret | rewrite bind_gets];
    rewrite Hfit, bind_gets; unfold bind, CreateMemo; rewrite Hdry, Hw;
    remember (CreateMemo_error _ _ _ _) as err;
    (eexists; split; [by destruct err | cbn; by rewrite Hw, Hst]).
Qed.

(** *** The command [reset] ([ClearStateFile]) *)

(** The error, if any, with which removing the state file fails. *)
Variable Remove_error : State.File -> option string.

(** [ClearStateFile]: nothing to do without a file; else remove it. *)
Definition ClearStateFile (f : State.File) : result State.File :=
  match f with
  | State.NoFile => Ok State.NoFile
  | _ =>
      match Remove_error f with
      | Some e => Err (wrapErr "failed to remove state file" e)
      | None => Ok State.NoFile
      end
  end.

(** After a reset that succeeds there is no state file, whatever it held
    (an unreadable file included); a second reset succeeds and changes
    nothing; and the next run, resuming or not, migrates every page that
    passes the title filter, as a first run does. *)
Theorem ClearStateFile_forgets (f f' : State.File) :
  ClearStateFile f = Ok f' ->
  f' = State.NoFile /\
  ClearStateFile f' = Ok f' /\
  State.LoadState f' = Ok State.NewState /\
  forall fuel dry titles made,
    runMigrate fuel dry {| Resume := true; FilterTitles := titles |}
      {| stateFile := f'; calls := made |}
    = runMigrate fuel dry {| Resume := false; FilterTitles := titles |}
        {| stateFile := f'; calls := made |}.
Proof.
  intros Hclear. assert (f' = State.NoFile) as ->.
  { unfold ClearStateFile in Hclear.
    destruct f; [| destruct (Remove_error _) | destruct (Remove_error _)]; by simplify_eq. }
  repeat split. intros fuel dry titles made.
  unfold runMigrate, NewMigrator. cbn [stateFile State.LoadState].
  by rewrite (Migrate_none_processed fuel titles
                {| pageCache := ∅; databaseCache := ∅; state := State.NewState;
                   dryRun := dry; world := {| stateFile := State.NoFile; calls := made |} |}
                (fun id => eq_refl)).
Qed.

End Migrator.

(** ** A small workspace on which the statements are exercised *)

Module Demo.

(** Modelled from the spec: [GetParentDatabaseID] and [GetParentPageID]
    are not in the sources at hand. The parent reference of a document
    is one of a collection, another document, or none; the JSON object
    names its kind under "type" and holds the id under the key of that
    kind. An accessor answers the id when the reference is of its kind
    and "" otherwise, so at most one of the two answers an id. *)
Definition parentDatabaseID (p : Page) : string :=
  if bool_decide (Parent p !! "type" = Some "database_id")
  then default "" (Parent p !! "database_id") else "".

Definition parentPageID (p : Page) : string :=
  if bool_decide (Parent p !! "type" = Some "page_id")
  then default "" (Parent p !! "page_id") else "".

Lemma parent_one_of (p : Page) : parentDatabaseID p = "" \/ parentPageID p = "".
Proof.
  unfold parentDatabaseID, parentPageID.
  destruct (Parent p !! "type") as [kind|]; [| by left].
  destruct (decide (kind = "database_id")) as [->|Hne]; [by right |].
  left. rewrite bool_decide_eq_false_2; [done |]. congruence.
Qed.

(** The parent references: a parent document, a collection. *)
Definition under (pageID : string) : gmap string string :=
  <["type" := "page_id"]> {[ "page_id" := pageID ]}.

Definition inCollection (databaseID : string) : gmap string string :=
  <["type" := "database_id"]> {[ "database_id" := databaseID ]}.

Record Collection := { Collection_Title : string }.

Definition page (id title created : string) (parent : gmap string string) : Page :=
  {| ID := id; CreatedTime := created; Parent := parent;
     Properties := [("Name", {| Property_ID := "title"; Property_Type := "title";
                               Title := [plainRun title] |})] |}.

Definition paragraph (id text : string) : Block :=
  {| Block_ID := id; Block_Type := "paragraph";
     Paragraph := Some {| RichTexts := [plainRun text] |};
     Heading1 := None; Heading2 := None; Heading3 := None; BulletedList := None;
     NumberedList := None; ToDo := None; Code := None |}.

Definition created : string := "2024-03-01T10:00:00Z".

(** "Projects" is the root, "Alpha" lies under it, and "Note" lies under
    "Alpha"; "Diary" belongs to the collection "Tagebuch". *)
Definition projects : Page := page "r" "Projects" created ∅.
Definition alpha : Page := page "a" "Alpha" created (under "r").
Definition note : Page := page "n" "Note" created (under "a").
Definition diary : Page := page "d" "Diary" created (inCollection "db1").
Definition blank : Page := page "e" "Blank" created ∅.
Definition groceries : Page := page "g" "Groceries" created ∅.

(** A page that renders to nothing: an empty title, no valid creation
    time, and one paragraph without text. *)
Definition hollow : Page := page "h" "" "" ∅.

(** A page with one paragraph of 9000 bytes. *)
Definition long : Page := page "x" "X" created ∅.

Definition RetrieveDatabase (databaseID : string) : result Collection :=
  if bool_decide (databaseID = "db1") then Ok {| Collection_Title := "Tagebuch" |}
  else Err "API request failed with status 404: ".

Definition page_endpoint (pageID : string) : result Page :=
  if bool_decide (pageID = "r") then Ok projects
  else if bool_decide (pageID = "a") then Ok alpha
  else if bool_decide (pageID = "n") then Ok note
  else if bool_decide (pageID = "d") then Ok diary
  else Err "API request failed with status 404: ".

(** The search serves three pages in two responses. *)
Definition search_endpoint (query : string) (cursor : option string)
    : result SearchResponse :=
  match cursor with
  | None => Ok {| Search_Results := [note; blank]; Search_NextCursor := Some "c1";
                  Search_HasMore := true |}
  | Some c =>
      if bool_decide (c = "c1")
      then Ok {| Search_Results := [groceries]; Search_NextCursor := None;
                 Search_HasMore := false |}
      else Err "API request failed with status 400: "
  end.

Definition children_endpoint (blockID : string) (cursor : option string)
    : result BlockResponse :=
  match cursor with
  | None =>
      if bool_decide (blockID = "g")
      then Ok {| Block_Results := [paragraph "g1" "Milk"]; Block_NextCursor := Some "g2";
                 Block_HasMore := true |}
      else if bool_decide (blockID = "n")
      then Ok {| Block_Results := [paragraph "n1" "Today"]; Block_NextCursor := None;
                 Block_HasMore := false |}
      else if bool_decide (blockID = "d")
      then Ok {| Block_Results := [paragraph "d1" "Rain"]; Block_NextCursor := None;
                 Block_HasMore := false |}
      else if bool_decide (blockID = "h")
      then Ok {| Block_Results := [paragraph "h1" ""]; Block_NextCursor := None;
                 Block_HasMore := false |}
      else if bool_decide (blockID = "x")
      then Ok {| Block_Results := [paragraph "x1" (Bytes.replicate 9000 "x")];
                 Block_NextCursor := None; Block_HasMore := false |}
      else Ok {| Block_Results := []; Block_NextCursor := None; Block_HasMore := false |}
  | Some c =>
      if bool_decide (c = "g2")
      then Ok {| Block_Results := [paragraph "g3" "Eggs"]; Block_NextCursor := None;
                 Block_HasMore := false |}
      else Err "API request failed with status 400: "
  end.

(** The same blocks, but the blocks of "Groceries" are refused. *)
Definition children_endpoint_429 (blockID : string) (cursor : option string)
    : result BlockResponse :=
  if bool_decide (blockID = "g") then Err "API request failed with status 429: "
  else children_endpoint blockID cursor.

Definition time_Parse (s : string) : option Z :=
  if bool_decide (s = created) then Some 1709287200000000000%Z else None.

Definition time_Format (t : Z) : string := "2024-03-01 10:00:00".

(** [strings.TrimSpace] on the bytes of a string: it removes from both
    ends the runes of [unicode.IsSpace], which are the ASCII white space
    and, in UTF-8, U+0085 and U+00A0 (C2 85, C2 A0), U+1680 (E1 9A 80),
    U+2000 to U+200A, U+2028, U+2029 and U+202F (E2 80 80 to 8A, A8,
    A9, AF), U+205F (E2 81 9F) and U+3000 (E3 80 80). [wideSpace a b c]
    tells whether the bytes [a b c] encode one of those of three bytes. *)
Definition narrowSpace (a b : ascii) : bool :=
  (nat_of_ascii a =? 194) && ((nat_of_ascii b =? 133) || (nat_of_ascii b =? 160)).

Definition wideSpace (a b c : ascii) : bool :=
  let a := nat_of_ascii a in
  let b := nat_of_ascii b in
  let c := nat_of_ascii c in
  ((a =? 225) && (b =? 154) && (c =? 128))
  || ((a =? 226) && (b =? 128)
      && (((128 <=? c) && (c <=? 138)) || (c =? 168) || (c =? 169) || (c =? 175)))
  || ((a =? 226) && (b =? 129) && (c =? 159))
  || ((a =? 227) && (b =? 128) && (c =? 128)).

Fixpoint trimLeft (s : string) : string :=
  match s with
  | String a rest =>
      if isWhitespace a then trimLeft rest
      else match rest with
           | String b rest2 =>
               if narrowSpace a b then trimLeft rest2
               else match rest2 with
                    | String c rest3 => if wideSpace a b c then trimLeft rest3 else s
                    | "" => s
                    end
           | "" => s
           end
  | "" => ""
  end.

(** The same from the end, on the bytes in reverse. *)
Fixpoint trimLeft_reversed (s : string) : string :=
  match s with
  | String c rest =>
      if isWhitespace c then trimLeft_reversed rest
      else match rest with
           | String b rest2 =>
               if narrowSpace b c then trimLeft_reversed rest2
               else match rest2 with
                    | String a rest3 =>
                        if wideSpace a b c then trimLeft_reversed rest3 else s
                    | "" => s
                    end
           | "" => s
           end
  | "" => ""
  end.

Definition TrimSpace (s : string) : string :=
  String.rev (trimLeft_reversed (String.rev (trimLeft s))).

Example TrimSpace_wide :
  TrimSpace (String (ascii_of_nat 194) (String (ascii_of_nat 160) " a b "
             +:+ String (ascii_of_nat 226) (String (ascii_of_nat 128)
                   (String (ascii_of_nat 137) Bytes.nl))))
  = "a b".
Proof. vm_compute. reflexivity. Qed.

Definition time_Now (w : World) : Z := 0%Z.

(** A target service and a state file that accept everything. *)
Definition CreateMemo_error (before : list MemoCall) (content : string) (t : Z)
    (dry : bool) : option string := None.

Definition WriteFile_error (w : World) (processed : gmap string bool)
    : option (string * State.WriteFault) := None.

Definition emptyWorld : World := {| stateFile := State.NoFile; calls := [] |}.

Definition fresh : Sys Collection :=
  {| pageCache := ∅; databaseCache := ∅; state := ∅; dryRun := false;
     world := emptyWorld |}.

Definition getParentTagsCached :=
  getParentTagsCached parentDatabaseID parentPageID Collection Collection_Title
    RetrieveDatabase page_endpoint.

Definition migratePage :=
  migratePage parentDatabaseID parentPageID Collection Collection_Title RetrieveDatabase
    children_endpoint page_endpoint time_Parse time_Format TrimSpace time_Now
    CreateMemo_error.

Definition migratePages :=
  migratePages parentDatabaseID parentPageID Collection Collection_Title RetrieveDatabase
    children_endpoint page_endpoint time_Parse time_Format TrimSpace time_Now
    CreateMemo_error WriteFile_error.

Definition runMigrate_429 :=
  runMigrate parentDatabaseID parentPageID Collection Collection_Title
    RetrieveDatabase search_endpoint children_endpoint_429 page_endpoint time_Parse
    time_Format TrimSpace time_Now CreateMemo_error WriteFile_error.

Definition runMigrate :=
  runMigrate parentDatabaseID parentPageID Collection Collection_Title RetrieveDatabase
    search_endpoint children_endpoint page_endpoint time_Parse time_Format TrimSpace
    time_Now CreateMemo_error WriteFile_error.

Definition allPages : MigrateOptions := {| Resume := false; FilterTitles := [] |}.
Definition resuming : MigrateOptions := {| Resume := true; FilterTitles := [] |}.

(** The world after a first, complete run. *)
Definition afterFirstRun : World :=
  Eval vm_compute in
    match runMigrate 5 false allPages emptyWorld with
    | Some (_, w) => w
    | None => emptyWorld
    end.

(** The migrator after the page "Note" has been migrated. *)
Definition afterNote : Sys Collection :=
  Eval vm_compute in
    match migratePages 5 [note] fresh with
    | Some (_, s) => s
    | None => fresh
    end.

End Demo.

Example Demo_tags_of_note :
  fst <$> Demo.getParentTagsCached Demo.note Demo.fresh
  = Some (Ok ["Projects"; "Alpha"]).
Proof. vm_compute. reflexivity. Qed.

Example Demo_tags_of_diary :
  fst <$> Demo.getParentTagsCached Demo.diary Demo.fresh = Some (Ok ["Tagebuch"]).
Proof. vm_compute. reflexivity. Qed.

Example Demo_first_run_memos :
  memo_content <$> calls Demo.afterFirstRun
  = ["# Note" +:+ Bytes.nl +:+ Bytes.nl +:+ "#Projects #Alpha " +:+ Bytes.nl
     +:+ Bytes.nl +:+ "<!-- Created: 2024-03-01 10:00:00 -->" +:+ Bytes.nl +:+ Bytes.nl
     +:+ "Today";
     "# Groceries" +:+ Bytes.nl +:+ Bytes.nl
     +:+ "<!-- Created: 2024-03-01 10:00:00 -->" +:+ Bytes.nl +:+ Bytes.nl
     +:+ "Milk" +:+ Bytes.nl +:+ Bytes.nl +:+ "Eggs"].
Proof. vm_compute. reflexivity. Qed.

(** The tag of the collection is lowered on the way into the memo. *)
Example Demo_diary_memo :
  (fun r => memo_content <$> calls (world Demo.Collection (snd r)))
  <$> Demo.migratePage 5 Demo.diary Demo.fresh
  = Some ["# Diary" +:+ Bytes.nl +:+ Bytes.nl +:+ "#tagebuch " +:+ Bytes.nl
          +:+ Bytes.nl +:+ "<!-- Created: 2024-03-01 10:00:00 -->" +:+ Bytes.nl
          +:+ Bytes.nl +:+ "Rain"].
Proof. vm_compute. reflexivity. Qed.

(** ** The statements at the workspace *)



Lemma paginated_fetch_complete_witness :
  servesPages Demo.search_endpoint "" None [[Demo.note; Demo.blank]; [Demo.groceries]] /\
  servesBlocks Demo.children_endpoint "g" None
    [[Demo.paragraph "g1" "Milk"]; [Demo.paragraph "g3" "Eggs"]] /\
  SearchPages Demo.search_endpoint 2 "" = Some (Ok [Demo.note; Demo.blank; Demo.groceries]) /\
  RetrieveBlocks Demo.children_endpoint 2 "g"
  = Some (Ok [Demo.paragraph "g1" "Milk"; Demo.paragraph "g3" "Eggs"]).
Proof.
  assert (servesPages Demo.search_endpoint "" None
            [[Demo.note; Demo.blank]; [Demo.groceries]]) as H1.
  { apply (servesPages_more _ _ None
             {| Search_Results := [Demo.note; Demo.blank]; Search_NextCursor := Some "c1";
                Search_HasMore := true |}); [reflexivity | reflexivity |].
    apply (servesPages_last _ _ (Some "c1")
             {| Search_Results := [Demo.groceries]; Search_NextCursor := None;
                Search_HasMore := false |}); reflexivity. }
  assert (servesBlocks Demo.children_endpoint "g" None
            [[Demo.paragraph "g1" "Milk"]; [Demo.paragraph "g3" "Eggs"]]) as H2.
  { apply (servesBlocks_more _ _ None
             {| Block_Results := [Demo.paragraph "g1" "Milk"]; Block_NextCursor := Some "g2";
                Block_HasMore := true |}); [reflexivity | reflexivity |].
    apply (servesBlocks_last _ _ (Some "g2")
             {| Block_Results := [Demo.paragraph "g3" "Eggs"]; Block_NextCursor := None;
                Block_HasMore := false |}); reflexivity. }
  split; [exact H1 |]. split; [exact H2 |].
  destruct (paginated_fetch_complete Demo.search_endpoint Demo.children_endpoint)
    as [Hs Hb].
  split.
  - exact (proj1 (Hs "" _ H1 2 (le_n 2))).
  - exact (proj1 (Hb "g" _ H2 2 (le_n 2))).
Defined.

Lemma createSplitMemos_parts_witness :
  splitParts (longContent "T")
  = Some ["# T" +:+ Bytes.nl +:+ Bytes.nl +:+ Bytes.replicate 7000 "a";
          Bytes.replicate 7990 "b"; Bytes.replicate 100 "c"] /\
  (forall i j, i < j < 3 -> (partCreatedTime 0 i < partCreatedTime 0 j)%Z) /\
  exists r s' new,
    createSplitMemos Demo.Collection Demo.CreateMemo_error (longContent "T") "T" 0%Z
      Demo.fresh = Some (r, s') /\
    calls (world Demo.Collection s') = calls (world Demo.Collection Demo.fresh) ++ new /\
    1 <= length new <= 3.
Proof.
  pose proof splitParts_longContent as H1.
  split; [exact H1 |].
  assert (2 <= length ["# T" +:+ Bytes.nl +:+ Bytes.nl +:+ Bytes.replicate 7000 "a";
                       Bytes.replicate 7990 "b"; Bytes.replicate 100 "c"]) as H2
    by (cbn [length]; lia).
  assert ((Z.of_nat (String.length (longContent "T")) < 2 ^ 30)%Z) as H3
    by (apply Z.ltb_lt; vm_compute; reflexivity).
  destruct (createSplitMemos_parts Demo.Collection Demo.CreateMemo_error
              (longContent "T") "T" 0%Z Demo.fresh _ H1 H2 H3)
    as (_ & Htimes & r & s' & new & Hrun & Hcalls & Hlen & _).
  split; [exact Htimes |].
  exists r, s', new. split; [exact Hrun |]. split; [exact Hcalls | exact Hlen].
Defined.

(** All three parts of that content go out when the target accepts
    them. *)
Example Demo_three_parts_sent :
  (fun r => (fst r, memo_time <$> calls (world Demo.Collection (snd r))))
  <$> createSplitMemos Demo.Collection Demo.CreateMemo_error (longContent "T") "T" 0%Z
        Demo.fresh
  = Some (Ok tt, [0; 5000000000; 10000000000]%Z).
Proof. vm_compute. reflexivity. Qed.

Lemma resume_after_complete_run_witness :
  Demo.runMigrate 5 false Demo.allPages Demo.emptyWorld = Some (Ok tt, Demo.afterFirstRun) /\
  Demo.runMigrate 5 false Demo.resuming Demo.afterFirstRun = Some (Ok tt, Demo.afterFirstRun).
Proof.
  assert (Demo.runMigrate 5 false Demo.allPages Demo.emptyWorld
          = Some (Ok tt, Demo.afterFirstRun)) as H by (vm_compute; reflexivity).
  split; [exact H |].
  destruct (resume_after_complete_run _ _ _ _ _ _ _ _ _ _ _ _ _ _ _ _ false _ _ _ H)
    as (found & processed & _ & _ & _ & _ & Hrun).
  exact Hrun.
Defined.

Lemma Migrate_document_atomic_witness :
  SearchPages Demo.search_endpoint 5 "" = Some (Ok [Demo.note; Demo.blank; Demo.groceries]) /\
  pagesToMigrate Demo.allPages (state Demo.Collection Demo.fresh)
    [Demo.note; Demo.blank; Demo.groceries] = [Demo.note] ++ Demo.blank :: [Demo.groceries] /\
  Demo.migratePages 5 [Demo.note] Demo.fresh = Some (Ok tt, Demo.afterNote) /\
  State.IsProcessed (state Demo.Collection Demo.afterNote) "n" = true /\
  stateFile (world Demo.Collection Demo.afterNote)
  = State.Stored (state Demo.Collection Demo.afterNote).
Proof.
  assert (SearchPages Demo.search_endpoint 5 ""
          = Some (Ok [Demo.note; Demo.blank; Demo.groceries])) as H1 by reflexivity.
  assert (pagesToMigrate Demo.allPages (state Demo.Collection Demo.fresh)
            [Demo.note; Demo.blank; Demo.groceries]
          = [Demo.note] ++ Demo.blank :: [Demo.groceries]) as H2 by reflexivity.
  assert (Demo.migratePages 5 [Demo.note] Demo.fresh = Some (Ok tt, Demo.afterNote)) as H3
    by (vm_compute; reflexivity).
  split; [exact H1 |]. split; [exact H2 |]. split; [exact H3 |].
  destruct (Migrate_document_atomic Demo.parentDatabaseID Demo.parentPageID Demo.Collection
              Demo.Collection_Title Demo.RetrieveDatabase Demo.search_endpoint
              Demo.children_endpoint Demo.page_endpoint Demo.time_Parse Demo.time_Format
              Demo.TrimSpace Demo.time_Now Demo.CreateMemo_error Demo.WriteFile_error
              5 Demo.allPages Demo.fresh Demo.afterNote _ _ _ _ H1 H2 H3)
    as (Hdone & Hfile & _).
  split.
  - apply (Hdone Demo.note). by left.
  - by apply Hfile.
Defined.

Lemma migratePage_skips_empty_witness :
  RetrieveBlocks Demo.children_endpoint 5 (ID Demo.blank) = Some (Ok []) /\
  exists s1, Demo.migratePage 5 Demo.blank Demo.fresh = Some (Ok tt, s1) /\
             world Demo.Collection s1 = Demo.emptyWorld.
Proof.
  assert (RetrieveBlocks Demo.children_endpoint 5 (ID Demo.blank) = Some (Ok [])) as H
    by reflexivity.
  split; [exact H |].
  destruct (migratePage_skips_empty Demo.parentDatabaseID Demo.parentPageID Demo.Collection
              Demo.Collection_Title Demo.RetrieveDatabase Demo.search_endpoint
              Demo.children_endpoint Demo.page_endpoint Demo.time_Parse Demo.time_Format
              Demo.TrimSpace Demo.time_Now Demo.CreateMemo_error Demo.WriteFile_error
              5 Demo.blank Demo.fresh [] H (or_introl eq_refl))
    as (s1 & Hrun & Hw & _).
  exists s1. split; [exact Hrun | exact Hw].
Defined.

(** The page "hollow" has a block, renders to the empty string and is
    skipped as well. *)
Example Demo_hollow_skipped :
  Demo.migratePages 5 [Demo.hollow] Demo.fresh
  = Some (Ok tt,
          {| pageCache := ∅; databaseCache := ∅; state := {[ "h" := true ]};
             dryRun := false;
             world := {| stateFile := State.Stored {[ "h" := true ]}; calls := [] |} |}).
Proof. vm_compute. reflexivity. Qed.

Lemma split_chunks_rebuild_witness :
  exists parts gaps,
    splitParts (longContent "T") = Some parts /\
    length gaps = length parts /\
    longContent "T" = stitch parts gaps.
Proof.
  destruct (split_chunks_rebuild (longContent "T") "T")
    as (parts & gaps & Hparts & Hlen & _ & _ & Hcontent & _).
  exists parts, gaps. split; [exact Hparts |]. split; [exact Hlen | exact Hcontent].
Defined.

(** A page of one 9000-byte paragraph goes out as three memos: the
    first cut falls at the newline before the paragraph, the second in
    the paragraph. The memos are titled "X (1/3)", "X (2/3)" and
    "X (3/3)"; the first two end with the trailing marker, the last two
    start, after the title line, with the leading marker; and each is
    stamped 5 seconds after the one before. *)
Example Demo_long_page_parts :
  (fun s => (fun call => (Bytes.take 16 (memo_content call),
                          Bytes.drop (String.length (memo_content call) - 5)
                            (memo_content call),
                          memo_time call)) <$> calls (world Demo.Collection s))
  <$> (snd <$> Demo.migratePage 5 Demo.long Demo.fresh)
  = Some [("# X (1/3)" +:+ Bytes.nl +:+ Bytes.nl +:+ Bytes.nl +:+ "<!--",
           Bytes.nl +:+ Bytes.nl +:+ "...", 1709287200000000000%Z);
          ("# X (2/3)" +:+ Bytes.nl +:+ Bytes.nl +:+ "..." +:+ Bytes.nl +:+ Bytes.nl,
           Bytes.nl +:+ Bytes.nl +:+ "...", 1709287205000000000%Z);
          ("# X (3/3)" +:+ Bytes.nl +:+ Bytes.nl +:+ "..." +:+ Bytes.nl +:+ Bytes.nl,
           "xxxxx", 1709287210000000000%Z)].
Proof. vm_compute. reflexivity. Qed.

(** With the ids of "Note" and "Blank" processed, resuming over the three
    pages found leaves "Groceries" only. *)
Example Demo_resume_leaves_unprocessed :
  pagesToMigrate Demo.resuming {[ "n" := true; "e" := true ]}
    [Demo.note; Demo.blank; Demo.groceries]
  = [Demo.groceries].
Proof. vm_compute. reflexivity. Qed.

(** When the blocks of "Groceries" are refused with status 429, the run
    ends with an error naming that page, and the state file keeps the
    ids of the two pages completed before it. *)
Example Demo_refused_fetch_aborts :
  Demo.runMigrate_429 5 false Demo.allPages Demo.emptyWorld
  = Some (Err ("failed to migrate page Groceries (g): failed to retrieve blocks: "
               +:+ "API request failed with status 429: "),
          {| stateFile := State.Stored {[ "n" := true; "e" := true ]};
             calls := [{| memo_content :=
                            "# Note" +:+ Bytes.nl +:+ Bytes.nl
                            +:+ "#Projects #Alpha " +:+ Bytes.nl +:+ Bytes.nl
                            +:+ "<!-- Created: 2024-03-01 10:00:00 -->" +:+ Bytes.nl
                            +:+ Bytes.nl +:+ "Today";
                          memo_time := 1709287200000000000%Z;
                          memo_dryRun := false; memo_error := None |}] |}).
Proof. vm_compute. reflexivity. Qed.

(** * Further properties of the code *)

(** ** The title of a page ([GetPageTitle]) *)

(** The test of the loop of [GetPageTitle]:
    [prop.Type == "title" && len(prop.Title) > 0]. *)
Definition carriesTitle (entry : string * Property) : bool :=
  bool_decide (Property_Type (snd entry) = "title") &&
  match Title (snd entry) with [] => false | _ :: _ => true end.

Definition titleText (entry : string * Property) : string :=
  match Title (snd entry) with
  | rt :: _ => PlainText rt
  | [] => "Untitled"
  end.

Lemma GetPageTitle_range_filter (props : list (string * Property)) :
  GetPageTitle_range props =
    match List.filter carriesTitle props with
    | [] => "Untitled"
    | entry :: _ => titleText entry
    end.
Proof.
  induction props as [|[name prop] props IH]; [done |].
  cbn [GetPageTitle_range List.filter].
  destruct (carriesTitle (name, prop)) eqn:E; unfold carriesTitle in E; cbn [snd] in E.
  - apply andb_prop in E as [E1 E2]. rewrite E1. unfold titleText. cbn [snd].
    by destruct (Title prop).
  - rewrite <- IH. case_bool_decide; [| done]. by destruct (Title prop).
Qed.

Lemma filter_Permutation {A : Type} (f : A -> bool) (l l' : list A) :
  l ≡ₚ l' -> List.filter f l ≡ₚ List.filter f l'.
Proof.
  induction 1 as [|x l l' _ IH|x y l|l l' l'' _ IH1 _ IH2]; cbn.
  - done.
  - destruct (f x); [by constructor | done].
  - destruct (f x), (f y); try done. apply perm_swap.
  - by etrans.
Qed.

(** The title does not depend on the order in which the properties are
    visited when at most one of them is of type "title" with runs; and
    without such a property the title is "Untitled" whatever the order. *)
Theorem GetPageTitle_order_independent (props props' : list (string * Property)) :
  props ≡ₚ props' ->
  length (List.filter carriesTitle props) <= 1 ->
  GetPageTitle_range props' = GetPageTitle_range props /\
  (List.filter carriesTitle props = [] -> GetPageTitle_range props' = "Untitled").
Proof.
  intros Hperm Hone. rewrite !GetPageTitle_range_filter.
  pose proof (filter_Permutation carriesTitle _ _ Hperm) as Hf.
  destruct (List.filter carriesTitle props) as [|entry [|entry' rest]] eqn:E.
  - apply Permutation_nil_l in Hf. by rewrite <- Hf.
  - symmetry in Hf. apply Permutation_singleton_r in Hf. rewrite Hf. by split.
  - cbn in Hone. lia.
Qed.

Lemma GetPageTitle_order_independent_witness :
  [("Tags", {| Property_ID := "t"; Property_Type := "multi_select"; Title := [] |});
   ("Name", {| Property_ID := "title"; Property_Type := "title";
               Title := [plainRun "Plan"] |})]
  ≡ₚ [("Name", {| Property_ID := "title"; Property_Type := "title";
                 Title := [plainRun "Plan"] |});
      ("Tags", {| Property_ID := "t"; Property_Type := "multi_select"; Title := [] |})] /\
  GetPageTitle_range
    [("Name", {| Property_ID := "title"; Property_Type := "title";
                 Title := [plainRun "Plan"] |});
     ("Tags", {| Property_ID := "t"; Property_Type := "multi_select"; Title := [] |})]
  = "Plan".
Proof.
  assert ([("Tags", {| Property_ID := "t"; Property_Type := "multi_select"; Title := [] |});
           ("Name", {| Property_ID := "title"; Property_Type := "title";
                       Title := [plainRun "Plan"] |})]
          ≡ₚ [("Name", {| Property_ID := "title"; Property_Type := "title";
                         Title := [plainRun "Plan"] |});
              ("Tags", {| Property_ID := "t"; Property_Type := "multi_select";
                          Title := [] |})]) as H by apply perm_swap.
  split; [exact H |].
  exact (proj1 (GetPageTitle_order_independent _ _ H (le_n 1))).
Defined.

(** ** Tags ([sanitizeTag]) *)

Lemma length_filter_le (f : ascii -> bool) (s : string) :
  String.length (Bytes.filter f s) <= String.length s.
Proof. induction s as [|c s IH]; [done |]. cbn. destruct (f c); cbn; lia. Qed.

Lemma length_ReplaceAll (s : string) (old new : ascii) :
  String.length (Bytes.ReplaceAll s old new) = String.length s.
Proof. induction s as [|c s IH]; [done |]. cbn. by rewrite IH. Qed.

(** Sanitizing works byte by byte: the tag of a concatenation is the
    concatenation of the tags, a tag is never longer than its source, and
    a tag is empty exactly when no byte of the source is kept or mapped. *)
Theorem sanitizeTag_bytewise_homomorphism (a b : string) :
  sanitizeTag (a +:+ b) = sanitizeTag a +:+ sanitizeTag b /\
  String.length (sanitizeTag a) <= String.length a /\
  (sanitizeTag a = "" <->
   Bytes.all (fun c => negb (tagRune c) && negb (bool_decide (c = " "%char))
                       && negb (bool_decide (c = "."%char))) a = true).
Proof.
  split; [| split].
  - induction a as [|c a IH]; [done |].
    rewrite Bytes.app_cons, !sanitizeTag_cons, IH.
    destruct (bool_decide (c = " "%char) || bool_decide (c = "."%char)); [done |].
    by destruct (tagRune c).
  - unfold sanitizeTag. etrans; [apply length_filter_le |].
    by rewrite !length_ReplaceAll.
  - induction a as [|c a IH]; [done |].
    rewrite sanitizeTag_cons. cbn [Bytes.all].
    destruct (bool_decide (c = " "%char)) eqn:E1; cbn.
    { rewrite andb_false_r. cbn. split; done. }
    destruct (bool_decide (c = "."%char)) eqn:E2; cbn.
    { rewrite andb_false_r. cbn. split; done. }
    destruct (tagRune c); cbn; [split; done |]. exact IH.
Qed.

(** ** Inline runs ([richTextToMarkdown], [richTextToPlainText]) *)

(** A run whose annotations are all off and that has no link. *)
Definition unmarked (rt : RichText) : bool :=
  match Annots rt with
  | None => true
  | Some a => negb (InlineCode a || Bold a || Italic a || Strikethrough a)
  end &&
  match Href rt with
  | None => true
  | Some h => bool_decide (h = "")
  end &&
  match Text rt with
  | Some {| TextLink := Some _ |} => false
  | _ => true
  end.

Lemma richTextRun_unmarked (rt : RichText) :
  unmarked rt = true -> richTextRun rt = PlainText rt.
Proof.
  intros H. destruct rt as [t a p h]. unfold unmarked, richTextRun in *. cbn in *.
  case_bool_decide as Hp; [done |].
  destruct a as [[b i s u c]|]; cbn in H;
    [destruct c, b, i, s; cbn in H; try done |];
    (destruct h as [h|]; cbn in H;
     [case_bool_decide as Hh; cbn in H; [subst h | done] |]);
    destruct t as [[content [l|]]|]; cbn in H; try done;
    rewrite ?bool_decide_eq_false_2 by (intros Hx; by apply Hx); done.
Qed.

(** On runs whose annotations are all off (underline does not count: it
    is never rendered) and that carry no link, the formatted rendering
    and the plain rendering used for code blocks are the same. *)
Theorem richTextToMarkdown_unmarked (richTexts : list RichText) :
  Forall (fun rt => unmarked rt = true) richTexts ->
  richTextToMarkdown richTexts = richTextToPlainText richTexts.
Proof.
  induction 1 as [|rt rest Hrt _ IH]; [done |].
  cbn [richTextToMarkdown richTextToPlainText].
  by rewrite richTextRun_unmarked, IH.
Qed.

Definition underlined (s : string) : RichText :=
  {| Text := Some {| Content := s; TextLink := None |};
     Annots := Some {| Bold := false; Italic := false; Strikethrough := false;
                       Underline := true; InlineCode := false |};
     PlainText := s; Href := Some "" |}.

Lemma richTextToMarkdown_unmarked_witness :
  Forall (fun rt => unmarked rt = true) [underlined "a"; plainRun "b"] /\
  richTextToMarkdown [underlined "a"; plainRun "b"] = "ab".
Proof.
  assert (Forall (fun rt => unmarked rt = true) [underlined "a"; plainRun "b"]) as H
    by (repeat constructor).
  split; [exact H |].
  exact (richTextToMarkdown_unmarked _ H).
Defined.

(** ** Blocks ([blockToMarkdown], [BlocksToMarkdown]) *)

(** The block has the payload that its type tag announces, for one of
    the eight types that [blockToMarkdown] knows. *)
Definition hasPayload (b : Block) : bool :=
  let ty := Block_Type b in
  bool_decide (ty = "paragraph") && bool_decide (is_Some (Paragraph b))
  || bool_decide (ty = "heading_1") && bool_decide (is_Some (Heading1 b))
  || bool_decide (ty = "heading_2") && bool_decide (is_Some (Heading2 b))
  || bool_decide (ty = "heading_3") && bool_decide (is_Some (Heading3 b))
  || bool_decide (ty = "bulleted_list_item") && bool_decide (is_Some (BulletedList b))
  || bool_decide (ty = "numbered_list_item") && bool_decide (is_Some (NumberedList b))
  || bool_decide (ty = "to_do") && bool_decide (is_Some (ToDo b))
  || bool_decide (ty = "code") && bool_decide (is_Some (Code b)).

Lemma append_nonempty (s t : string) : s <> "" -> s +:+ t <> "".
Proof. destruct s; [done |]. by rewrite Bytes.app_cons. Qed.

Lemma append_nl_nonempty (s : string) : s +:+ Bytes.nl <> "".
Proof. destruct s; [done |]. by rewrite Bytes.app_cons. Qed.

(** Decide the comparisons between string constants in the goal. *)
Ltac decide_constants :=
  repeat match goal with
         | |- context [bool_decide (?x = ?y)] =>
             let v := eval vm_compute in (bool_decide (x = y)) in
             lazymatch v with
             | true => change (bool_decide (x = y)) with true
             | false => change (bool_decide (x = y)) with false
             end
         end.

(** Enter the case of [blockToMarkdown] for the type tag given by [Hty]. *)
Ltac at_type Hty :=
  unfold blockToMarkdown, hasPayload; rewrite Hty; decide_constants;
  cbn [andb orb]; rewrite ?orb_false_r.

Lemma bool_decide_is_Some {A : Type} (o : option A) :
  bool_decide (is_Some o) = match o with Some _ => true | None => false end.
Proof.
  destruct o; [by apply bool_decide_eq_true_2 | apply bool_decide_eq_false_2].
  by intros [? ?].
Qed.

Lemma blockToMarkdown_unknown (b : Block) :
  Block_Type b <> "paragraph" -> Block_Type b <> "heading_1" ->
  Block_Type b <> "heading_2" -> Block_Type b <> "heading_3" ->
  Block_Type b <> "bulleted_list_item" -> Block_Type b <> "numbered_list_item" ->
  Block_Type b <> "to_do" -> Block_Type b <> "code" ->
  blockToMarkdown b = "" /\ hasPayload b = false.
Proof.
  intros H1 H2 H3 H4 H5 H6 H7 H8. unfold blockToMarkdown, hasPayload.
  rewrite (bool_decide_eq_false_2 _ H1), (bool_decide_eq_false_2 _ H2),
    (bool_decide_eq_false_2 _ H3), (bool_decide_eq_false_2 _ H4),
    (bool_decide_eq_false_2 _ H5), (bool_decide_eq_false_2 _ H6),
    (bool_decide_eq_false_2 _ H7), (bool_decide_eq_false_2 _ H8).
  done.
Qed.

(** What [blockToMarkdown] returns for a block with its payload, apart
    from paragraphs: a string that is not empty. *)
Lemma blockToMarkdown_payload (b : Block) :
  Block_Type b <> "paragraph" -> hasPayload b = true -> blockToMarkdown b <> "".
Proof.
  intros Hpar.
  destruct (decide (Block_Type b = "heading_1")) as [Hty|H1];
    [at_type Hty; rewrite bool_decide_is_Some; destruct (Heading1 b); [| done];
     intros _; by apply append_nonempty |].
  destruct (decide (Block_Type b = "heading_2")) as [Hty|H2];
    [at_type Hty; rewrite bool_decide_is_Some; destruct (Heading2 b); [| done];
     intros _; by apply append_nonempty |].
  destruct (decide (Block_Type b = "heading_3")) as [Hty|H3];
    [at_type Hty; rewrite bool_decide_is_Some; destruct (Heading3 b); [| done];
     intros _; by apply append_nonempty |].
  destruct (decide (Block_Type b = "bulleted_list_item")) as [Hty|H4];
    [at_type Hty; rewrite bool_decide_is_Some; destruct (BulletedList b); [| done];
     intros _; by apply append_nonempty |].
  destruct (decide (Block_Type b = "numbered_list_item")) as [Hty|H5];
    [at_type Hty; rewrite bool_decide_is_Some; destruct (NumberedList b); [| done];
     intros _; by apply append_nonempty |].
  destruct (decide (Block_Type b = "to_do")) as [Hty|H6];
    [at_type Hty; rewrite bool_decide_is_Some; destruct (ToDo b) as [t|]; [| done];
     intros _; apply append_nonempty; by destruct (Checked t) |].
  destruct (decide (Block_Type b = "code")) as [Hty|H7];
    [at_type Hty; rewrite bool_decide_is_Some; destruct (Code b); [| done];
     intros _; by apply append_nonempty |].
  destruct (blockToMarkdown_unknown b) as [_ Hno]; try done. by rewrite Hno.
Qed.

Lemma blockToMarkdown_paragraph (b : Block) :
  Block_Type b = "paragraph" ->
  hasPayload b = bool_decide (is_Some (Paragraph b)) /\
  blockToMarkdown b =
    match Paragraph b with
    | Some p => if bool_decide (richTextToMarkdown (RichTexts p) <> "")
                then richTextToMarkdown (RichTexts p) +:+ Bytes.nl else ""
    | None => ""
    end.
Proof. intros Hty. by at_type Hty. Qed.

(** A block renders to the empty string exactly when its type is not one
    of the eight known ones, or its payload is missing, or it is a
    paragraph without text; headings, list items, to-dos and code blocks
    with their payload never do, even when they have no text. *)
Theorem blockToMarkdown_empty_iff (b : Block) :
  blockToMarkdown b = "" <->
  hasPayload b = false \/
  (Block_Type b = "paragraph" /\
   exists p, Paragraph b = Some p /\ richTextToMarkdown (RichTexts p) = "").
Proof.
  destruct (decide (Block_Type b = "paragraph")) as [Hty|Hty].
  - destruct (blockToMarkdown_paragraph b Hty) as [-> ->].
    rewrite bool_decide_is_Some. destruct (Paragraph b) as [p|]; [| by split; [left |]].
    case_bool_decide as Ht.
    + split; [by intros ?%append_nl_nonempty |].
      intros [?|(_ & p' & [= <-] & ?)]; done.
    + split; [| done]. intros _. right. split; [done |]. exists p. split; [done |].
      by destruct (decide (richTextToMarkdown (RichTexts p) = "")).
  - split.
    + intros H. left. destruct (hasPayload b) eqn:Hp; [| done].
      by destruct (blockToMarkdown_payload b Hty Hp).
    + intros [Hp|[? _]]; [| done].
      destruct (decide (Block_Type b = "heading_1")) as [H1|H1];
        [revert Hp; at_type H1; rewrite bool_decide_is_Some; by destruct (Heading1 b) |].
      destruct (decide (Block_Type b = "heading_2")) as [H2|H2];
        [revert Hp; at_type H2; rewrite bool_decide_is_Some; by destruct (Heading2 b) |].
      destruct (decide (Block_Type b = "heading_3")) as [H3|H3];
        [revert Hp; at_type H3; rewrite bool_decide_is_Some; by destruct (Heading3 b) |].
      destruct (decide (Block_Type b = "bulleted_list_item")) as [H4|H4];
        [revert Hp; at_type H4; rewrite bool_decide_is_Some;
         by destruct (BulletedList b) |].
      destruct (decide (Block_Type b = "numbered_list_item")) as [H5|H5];
        [revert Hp; at_type H5; rewrite bool_decide_is_Some;
         by destruct (NumberedList b) |].
      destruct (decide (Block_Type b = "to_do")) as [H6|H6];
        [revert Hp; at_type H6; rewrite bool_decide_is_Some; by destruct (ToDo b) |].
      destruct (decide (Block_Type b = "code")) as [H7|H7];
        [revert Hp; at_type H7; rewrite bool_decide_is_Some; by destruct (Code b) |].
      by destruct (blockToMarkdown_unknown b).
Qed.

Definition rendersText (b : Block) : bool := negb (bool_decide (blockToMarkdown b = "")).

Lemma foldl_blocks_rendersText (blocks : list Block) (md : string) :
  foldl (fun md block =>
           let blockMd := blockToMarkdown block in
           if bool_decide (blockMd <> "") then md +:+ blockMd +:+ Bytes.nl else md)
    md (List.filter rendersText blocks)
  = foldl (fun md block =>
             let blockMd := blockToMarkdown block in
             if bool_decide (blockMd <> "") then md +:+ blockMd +:+ Bytes.nl else md)
      md blocks.
Proof.
  revert md; induction blocks as [|b blocks IH]; intros md; [done |].
  cbn [List.filter foldl]. unfold rendersText at 1.
  destruct (decide (blockToMarkdown b = "")) as [He|Hne].
  - rewrite (bool_decide_eq_true_2 _ He). cbn [negb].
    rewrite bool_decide_eq_false_2 by (by intros H). apply IH.
  - rewrite (bool_decide_eq_false_2 _ Hne). cbn [negb foldl]. apply IH.
Qed.

(** Blocks that render to the empty string (unknown types, missing
    payloads, paragraphs without text) leave no trace in the rendering of
    a page: removing them from the block list gives the same text. *)
Theorem BlocksToMarkdown_drops_silent_blocks
    (time_Parse : string -> option Z) (time_Format : Z -> string)
    (strings_TrimSpace : string -> string)
    (blocks : list Block) (createdTime pageTitle : string) (tags : list string) :
  BlocksToMarkdown time_Parse time_Format strings_TrimSpace
    (List.filter rendersText blocks) createdTime pageTitle tags
  = BlocksToMarkdown time_Parse time_Format strings_TrimSpace
      blocks createdTime pageTitle tags.
Proof. unfold BlocksToMarkdown. by rewrite foldl_blocks_rendersText. Qed.

(** ** The filters ([filterPagesByTitle], [filterProcessedPages]) *)

Lemma filter_filter_comm {A : Type} (f g : A -> bool) (l : list A) :
  List.filter f (List.filter g l) = List.filter g (List.filter f l).
Proof.
  induction l as [|x l IH]; [done |]. cbn.
  destruct (f x) eqn:Ef, (g x) eqn:Eg; cbn; rewrite ?Ef, ?Eg, IH; done.
Qed.

Lemma filterPagesByTitle_any (pages : list Page) (titles : list string) :
  filterPagesByTitle pages titles =
    List.filter (fun page => bool_decide (titles = []) ||
                             bool_decide (GetPageTitle page ∈ titles)) pages.
Proof.
  destruct titles as [|t titles].
  - cbn. clear. induction pages as [|p pages IH]; [done |]. cbn. by rewrite <- IH.
  - rewrite filterPagesByTitle_filter by done. apply filter_ext. intros p.
    by rewrite (bool_decide_eq_false_2 (t :: titles = [])).
Qed.

(** The two filters commute: filtering by title and then dropping the
    processed pages keeps the same pages, in the same order, as dropping
    the processed pages first; and with no titles the title filter keeps
    every page. *)
Theorem filters_commute (state : gmap string bool) (pages : list Page)
    (titles : list string) :
  filterProcessedPages state (filterPagesByTitle pages titles)
  = filterPagesByTitle (filterProcessedPages state pages) titles /\
  filterPagesByTitle pages [] = pages.
Proof.
  split; [| done].
  rewrite !filterProcessedPages_filter, !filterPagesByTitle_any.
  apply filter_filter_comm.
Qed.

(** The pages a run migrates are exactly the pages found that pass the
    tests in force, in the order found: when titles are given, the title
    is one of them; when resuming, the id is not processed. Nothing else
    is dropped and nothing is added or reordered. *)
Theorem pagesToMigrate_exact (opts : MigrateOptions) (processed : gmap string bool)
    (found : list Page) :
  pagesToMigrate opts processed found =
    List.filter (fun page =>
                   (bool_decide (FilterTitles opts = []) ||
                    bool_decide (GetPageTitle page ∈ FilterTitles opts)) &&
                   (negb (Resume opts) ||
                    negb (State.IsProcessed processed (ID page)))) found /\
  pagesToMigrate opts processed found `sublist_of` found.
Proof.
  assert (forall (f : Page -> bool) l, List.filter f l `sublist_of` l) as Hsub.
  { intros f l. induction l as [|x l IH]; [done |]. cbn.
    destruct (f x); by constructor. }
  assert (pagesToMigrate opts processed found =
    List.filter (fun page =>
                   (bool_decide (FilterTitles opts = []) ||
                    bool_decide (GetPageTitle page ∈ FilterTitles opts)) &&
                   (negb (Resume opts) ||
                    negb (State.IsProcessed processed (ID page)))) found) as ->.
  { unfold pagesToMigrate.
    assert ((if 0 <? length (FilterTitles opts)
             then filterPagesByTitle found (FilterTitles opts) else found)
            = filterPagesByTitle found (FilterTitles opts)) as ->.
    { by destruct (FilterTitles opts). }
    rewrite filterPagesByTitle_any.
    destruct (Resume opts); cbn [negb orb].
    - rewrite filterProcessedPages_filter.
      clear. induction found as [|p found IH]; [done |]. cbn.
      destruct (bool_decide (FilterTitles opts = []) || _); cbn;
        [destruct (negb _); cbn |]; by rewrite IH.
    - apply filter_ext. intros p. by rewrite andb_true_r. }
  split; [done | apply Hsub].
Qed.

(** ** The processed set ([State]) *)

(** Marking never unmarks: what is processed stays processed, marking
    twice is marking once, and the order of marking does not matter. A
    new or cleared state has nothing processed, and an id stored with
    the flag [false] reads as not processed. *)
Theorem MarkProcessed_grows (s : gmap string bool) (id id' : string) :
  (forall x, State.IsProcessed s x = true ->
             State.IsProcessed (State.MarkProcessed s id) x = true) /\
  State.MarkProcessed (State.MarkProcessed s id) id = State.MarkProcessed s id /\
  State.MarkProcessed (State.MarkProcessed s id) id'
  = State.MarkProcessed (State.MarkProcessed s id') id /\
  State.IsProcessed State.NewState id = false /\
  State.IsProcessed (State.ClearState s) id = false /\
  State.IsProcessed (<[id := false]> s) id = false.
Proof.
  unfold State.MarkProcessed, State.IsProcessed, State.NewState, State.ClearState.
  repeat split.
  - intros x Hx. rewrite lookup_insert. by case_decide.
  - apply insert_insert_eq.
  - destruct (decide (id = id')) as [->|Hne]; [done |]. by apply insert_insert_ne.
  - by rewrite lookup_insert_eq.
Qed.

(** ** The tag "Tagebuch" ([migratePage]) *)

(** Only the first tag equal to "Tagebuch" is replaced, by "tagebuch":
    the tags before it and all tags after it, further occurrences
    included, stay as they are; without such a tag nothing changes. *)
Theorem lowerTagebuch_first_only (before after : list string) :
  "Tagebuch" ∉ before ->
  lowerTagebuch (before ++ "Tagebuch" :: after) = before ++ "tagebuch" :: after /\
  lowerTagebuch before = before.
Proof.
  induction before as [|tag before IH]; intros Hnot; [done |].
  apply not_elem_of_cons in Hnot as [Hne Hnot]. destruct (IH Hnot) as [IH1 IH2].
  cbn [app lowerTagebuch]. rewrite bool_decide_eq_false_2 by done.
  by rewrite IH1, IH2.
Qed.

Lemma lowerTagebuch_first_only_witness :
  ("Tagebuch" ∉ ["Projects"]) /\
  lowerTagebuch (["Projects"] ++ "Tagebuch" :: ["Tagebuch"])
  = ["Projects"; "tagebuch"; "Tagebuch"].
Proof.
  assert ("Tagebuch" ∉ ["Projects"]) as H.
  { intros [?|?%elem_of_nil]%elem_of_cons; done. }
  split; [exact H |].
  exact (proj1 (lowerTagebuch_first_only ["Projects"] ["Tagebuch"] H)).
Defined.

(** ** The paginated fetcher: errors and sources that never finish *)

Section FetcherFacts.

Variable search_endpoint : string -> option string -> result SearchResponse.
Variable children_endpoint : string -> option string -> result BlockResponse.

(** The source serves the pages [pgs] from a cursor, each announcing
    more, and then answers the next request with the error [e]. *)
Inductive pagesThenError (query : string) (e : string)
    : option string -> list (list Page) -> Prop :=
| pagesThenError_now cursor :
    search_endpoint query cursor = Err e -> pagesThenError query e cursor []
| pagesThenError_later cursor resp pgs :
    search_endpoint query cursor = Ok resp ->
    Search_HasMore resp = true ->
    pagesThenError query e (Search_NextCursor resp) pgs ->
    pagesThenError query e cursor (Search_Results resp :: pgs).

Inductive blocksThenError (blockID : string) (e : string)
    : option string -> list (list Block) -> Prop :=
| blocksThenError_now cursor :
    children_endpoint blockID cursor = Err e -> blocksThenError blockID e cursor []
| blocksThenError_later cursor resp pgs :
    children_endpoint blockID cursor = Ok resp ->
    Block_HasMore resp = true ->
    blocksThenError blockID e (Block_NextCursor resp) pgs ->
    blocksThenError blockID e cursor (Block_Results resp :: pgs).

Lemma SearchPages_loop_error (query e : string) (cursor : option string)
    (pgs : list (list Page)) (k : nat) (acc : list Page) :
  pagesThenError query e cursor pgs ->
  SearchPages_loop search_endpoint (S (length pgs) + k) query cursor acc = Some (Err e).
Proof.
  intros H; revert acc; induction H as [cursor He|cursor resp pgs He Hm _ IH];
    intros acc; cbn [SearchPages_loop length Nat.add]; rewrite He; [done |].
  rewrite Hm. cbn [negb]. apply IH.
Qed.

Lemma RetrieveBlocks_loop_error (blockID e : string) (cursor : option string)
    (pgs : list (list Block)) (k : nat) (acc : list Block) :
  blocksThenError blockID e cursor pgs ->
  RetrieveBlocks_loop children_endpoint (S (length pgs) + k) blockID cursor acc
  = Some (Err e).
Proof.
  intros H; revert acc; induction H as [cursor He|cursor resp pgs He Hm _ IH];
    intros acc; cbn [RetrieveBlocks_loop length Nat.add]; rewrite He; [done |].
  rewrite Hm. cbn [negb]. apply IH.
Qed.

(** A fetch has no partial result: when a request fails after any
    number of pages were received, the fetch returns that error alone
    and the pages received so far are discarded. *)
Theorem paginated_fetch_error_discards :
  (forall query e pgs, pagesThenError query e None pgs ->
     forall fuel, length pgs < fuel ->
       SearchPages search_endpoint fuel query = Some (Err e)) /\
  (forall blockID e pgs, blocksThenError blockID e None pgs ->
     forall fuel, length pgs < fuel ->
       RetrieveBlocks children_endpoint fuel blockID = Some (Err e)).
Proof.
  split.
  - intros query e pgs H fuel Hlt. unfold SearchPages.
    replace fuel with (S (length pgs) + (fuel - S (length pgs))) by lia.
    by apply SearchPages_loop_error.
  - intros blockID e pgs H fuel Hlt. unfold RetrieveBlocks.
    replace fuel with (S (length pgs) + (fuel - S (length pgs))) by lia.
    by apply RetrieveBlocks_loop_error.
Qed.

(** The loops trust [has_more]: a response that announces more pages
    under the cursor it was asked with (for the first request: without a
    next cursor) is requested again and again, and the fetch never
    returns, whatever the fuel. *)
Theorem paginated_fetch_repeats_cursor :
  (forall query cursor resp,
     search_endpoint query cursor = Ok resp ->
     Search_HasMore resp = true -> Search_NextCursor resp = cursor ->
     forall fuel acc, SearchPages_loop search_endpoint fuel query cursor acc = None) /\
  (forall blockID cursor resp,
     children_endpoint blockID cursor = Ok resp ->
     Block_HasMore resp = true -> Block_NextCursor resp = cursor ->
     forall fuel acc,
       RetrieveBlocks_loop children_endpoint fuel blockID cursor acc = None).
Proof.
  split.
  - intros query cursor resp He Hm Hc fuel.
    induction fuel as [|fuel IH]; intros acc; [done |].
    cbn [SearchPages_loop]. rewrite He, Hm, Hc. cbn [negb]. apply IH.
  - intros blockID cursor resp He Hm Hc fuel.
    induction fuel as [|fuel IH]; intros acc; [done |].
    cbn [RetrieveBlocks_loop]. rewrite He, Hm, Hc. cbn [negb]. apply IH.
Qed.

End FetcherFacts.

(** ** The splitter: where the cuts fall *)

Lemma splitLoop_fits (fuel size : nat) (remaining : string) (parts : list string) :
  String.length remaining <= size ->
  splitLoop fuel size remaining parts = Some (parts, remaining).
Proof.
  intros H. assert ((size <? String.length remaining) = false) as E
    by (apply Nat.ltb_ge; lia).
  destruct fuel; cbn [splitLoop]; by rewrite E.
Qed.

(** A content that fits in a chunk is not cut: it is the only part, and
    an empty content has no part. *)
Theorem splitParts_fits (content : string) :
  String.length content <= safeChunkSize ->
  splitParts content = Some (if bool_decide (content = "") then [] else [content]).
Proof.
  intros H. unfold splitParts, splitPartsAt. rewrite splitLoop_fits by done.
  destruct content; [done |]. by rewrite bool_decide_eq_false_2.
Qed.

Lemma splitParts_fits_witness :
  String.length "# T" <= safeChunkSize /\ splitParts "# T" = Some ["# T"].
Proof.
  assert (String.length "# T" <= safeChunkSize) as H.
  { apply Nat.leb_le. vm_compute. reflexivity. }
  split; [exact H |].
  exact (splitParts_fits "# T" H).
Defined.

Lemma scanBack_none (remaining : string) (breakPoint : nat) :
  scanBack remaining breakPoint = 0 ->
  forall j, 1 <= j <= breakPoint -> String.get j remaining <> Some Bytes.LF.
Proof.
  induction breakPoint as [|bp IH]; [intros _ j; lia |]. cbn [scanBack].
  case_bool_decide as Hget; [done |]. intros H0 j Hj.
  destruct (decide (j = S bp)) as [->|Hne]; [done |]. apply IH; [done | lia].
Qed.

(** The first part, and the text the loop goes on with, after one cut. *)
Lemma splitLoop_cut (fuel size : nat) (remaining : string) (parts : list string) :
  size < String.length remaining ->
  let breakPoint :=
    if scanBack remaining size =? 0 then size else scanBack remaining size in
  splitLoop (S fuel) size remaining parts =
    splitLoop fuel size (trimLeading (Bytes.drop breakPoint remaining))
      (parts ++ [Bytes.take breakPoint remaining]).
Proof.
  intros H. cbn [splitLoop].
  assert ((size <? String.length remaining) = true) as -> by (by apply Nat.ltb_lt).
  done.
Qed.

(** A content longer than a chunk is first cut at the last newline among
    the bytes 1 to 7992, which starts the bytes dropped and is not part
    of the chunk; only when these bytes hold no newline is it cut after
    7992 bytes, inside a line. A newline at byte 0 is never a cut. *)
Theorem splitParts_first_cut (content : string) :
  safeChunkSize < String.length content ->
  exists breakPoint part parts,
    splitParts content = Some (part :: parts) /\
    part = Bytes.take breakPoint content /\
    1 <= breakPoint <= safeChunkSize /\
    ((String.get breakPoint content = Some Bytes.LF /\
      forall j, breakPoint < j <= safeChunkSize ->
                String.get j content <> Some Bytes.LF) \/
     (breakPoint = safeChunkSize /\
      forall j, 1 <= j <= safeChunkSize -> String.get j content <> Some Bytes.LF)).
Proof.
  intros Hlong. pose proof safeChunkSize_pos as Hpos.
  set (size := safeChunkSize) in *.
  set (bp := if scanBack content size =? 0 then size else scanBack content size).
  destruct (String.length content) as [|fuel] eqn:Hlen; [lia |].
  destruct (splitLoop_spec size fuel (trimLeading (Bytes.drop bp content))
              ([] ++ [Bytes.take bp content]) Hpos)
    as (new & gaps & rest & Hrun & _).
  { pose proof (length_trimLeading (Bytes.drop bp content)) as Ht.
    rewrite Bytes.length_drop in Ht.
    assert (1 <= bp) as Hbp1; [| lia].
    subst bp. destruct (scanBack content size =? 0) eqn:E0; [lia |].
    apply Nat.eqb_neq in E0. lia. }
  exists bp, (Bytes.take bp content).
  exists (if 0 <? String.length rest then new ++ [rest] else new). split.
  { unfold splitParts, splitPartsAt. fold size. rewrite Hlen.
    rewrite splitLoop_cut by lia. fold bp. rewrite Hrun. cbn [app].
    destruct (0 <? String.length rest); reflexivity. }
  split; [done |].
  pose proof (scanBack_le content size) as Hle.
  subst bp. destruct (scanBack content size =? 0) eqn:E0.
  - apply Nat.eqb_eq in E0. split; [lia |]. right. split; [done |].
    by apply scanBack_none.
  - apply Nat.eqb_neq in E0. split; [lia |]. left.
    apply scanBack_newline. lia.
Qed.

Lemma splitParts_first_cut_witness :
  safeChunkSize < String.length (longContent "T") /\
  exists breakPoint part parts,
    splitParts (longContent "T") = Some (part :: parts) /\
    part = Bytes.take breakPoint (longContent "T").
Proof.
  assert (safeChunkSize < String.length (longContent "T")) as H.
  { apply Nat.ltb_lt. vm_compute. reflexivity. }
  split; [exact H |].
  destruct (splitParts_first_cut (longContent "T") H)
    as (bp & part & parts & Hrun & Hpart & _).
  exists bp, part, parts. split; [exact Hrun | exact Hpart].
Defined.

(** The text does not start with a newline or a space. *)
Definition startsClean (s : string) : Prop :=
  match s with
  | String c _ => cutSpace c = false
  | "" => True
  end.

Lemma trimLeading_clean (s : string) : startsClean (trimLeading s).
Proof.
  induction s as [|c s IH]; [done |]. cbn [trimLeading].
  destruct (bool_decide (c = Bytes.LF) || bool_decide (c = " "%char)) eqn:E; done.
Qed.

Lemma take_clean (n : nat) (s : string) :
  1 <= n -> startsClean s -> startsClean (Bytes.take n s).
Proof. destruct n; [lia |]. by destruct s. Qed.

Lemma splitLoop_clean (size fuel : nat) (remaining : string) (parts : list string) :
  1 <= size ->
  String.length remaining <= fuel ->
  startsClean remaining ->
  exists new rest,
    splitLoop fuel size remaining parts = Some (parts ++ new, rest) /\
    Forall startsClean new /\ startsClean rest.
Proof.
  intros Hsize. revert remaining parts.
  induction fuel as [|fuel IH]; intros remaining parts Hfuel Hclean.
  - exists [], remaining. rewrite splitLoop_fits by lia. by rewrite app_nil_r.
  - destruct (decide (size < String.length remaining)) as [Hlong|Hshort].
    + rewrite splitLoop_cut by done.
      set (bp := if scanBack remaining size =? 0 then size else scanBack remaining size).
      assert (1 <= bp) as Hbp.
      { subst bp. destruct (scanBack remaining size =? 0) eqn:E0; [lia |].
        apply Nat.eqb_neq in E0. lia. }
      destruct (IH (trimLeading (Bytes.drop bp remaining))
                  (parts ++ [Bytes.take bp remaining])) as (new & rest & Hrun & Hnew & Hrest).
      { pose proof (length_trimLeading (Bytes.drop bp remaining)).
        rewrite Bytes.length_drop in *. lia. }
      { apply trimLeading_clean. }
      exists (Bytes.take bp remaining :: new), rest.
      rewrite Hrun, <- app_assoc. split; [done |]. split; [| done].
      constructor; [by apply take_clean | done].
    + exists [], remaining. rewrite splitLoop_fits by lia. by rewrite app_nil_r.
Qed.

(** After a cut the newlines and spaces that follow are skipped, so every
    part but the first starts with a byte that is neither a newline nor
    a space; the first part starts as the content does. *)
Theorem splitParts_later_parts_clean (content : string) (parts : list string) :
  splitParts content = Some parts ->
  Forall startsClean (tail parts) /\
  (startsClean content -> Forall startsClean parts).
Proof.
  pose proof safeChunkSize_pos as Hpos. unfold splitParts, splitPartsAt.
  set (size := safeChunkSize) in *.
  assert (forall rest new, startsClean rest -> Forall startsClean new ->
            Forall startsClean (if 0 <? String.length rest then new ++ [rest] else new))
    as Hlast.
  { intros rest new Hr Hn. destruct (0 <? String.length rest); [| done].
    apply Forall_app. split; [done | by constructor]. }
  destruct (decide (size < String.length content)) as [Hlong|Hshort].
  - destruct (String.length content) as [|fuel] eqn:Hlen; [lia |].
    rewrite splitLoop_cut by lia.
    set (bp := if scanBack content size =? 0 then size else scanBack content size).
    assert (1 <= bp) as Hbp.
    { subst bp. pose proof (scanBack_le content size).
      destruct (scanBack content size =? 0) eqn:E0; [lia |].
      apply Nat.eqb_neq in E0. lia. }
    destruct (splitLoop_clean size fuel (trimLeading (Bytes.drop bp content))
                ([] ++ [Bytes.take bp content]) Hpos) as (new & rest & Hrun & Hnew & Hrest).
    { pose proof (length_trimLeading (Bytes.drop bp content)).
      rewrite Bytes.length_drop in *. lia. }
    { apply trimLeading_clean. }
    rewrite Hrun. cbn [app]. intros [= <-].
    assert (Forall startsClean (if 0 <? String.length rest then new ++ [rest] else new))
      as Htail by (by apply Hlast).
    split.
    + by destruct (0 <? String.length rest).
    + intros Hc.
      assert (Forall startsClean (Bytes.take bp content ::
                (if 0 <? String.length rest then new ++ [rest] else new))) as H
        by (constructor; [by apply take_clean | done]).
      by destruct (0 <? String.length rest).
  - rewrite splitLoop_fits by lia. intros [= <-]. cbn [app].
    destruct (0 <? String.length content); split; try done.
    intros Hc. by constructor.
Qed.

Lemma splitParts_later_parts_clean_witness :
  splitParts (longContent "T")
  = Some ["# T" +:+ Bytes.nl +:+ Bytes.nl +:+ Bytes.replicate 7000 "a";
          Bytes.replicate 7990 "b"; Bytes.replicate 100 "c"] /\
  Forall startsClean [Bytes.replicate 7990 "b"; Bytes.replicate 100 "c"].
Proof.
  pose proof splitParts_longContent as H.
  split; [exact H |].
  exact (proj1 (splitParts_later_parts_clean _ _ H)).
Defined.

(** ** The memo client ([CreateMemo] and [saveDryRunMemo])

    The source holds the client twice. The one modelled here creates the
    memo with a POST and then sets its display time with a PATCH; the
    other sends the creation time within a single POST.
    [saveDryRunMemo] and the dry-run branch of [CreateMemo] are the same
    in both. *)

Module Memos.

Record Client := { baseURL : string; token : string }.

Inductive Method := POST | PATCH.

(** A request as [CreateMemo] builds it: method, URL, the
    [Authorization] header and the body; the content type is always
    JSON. *)
Record Request := {
  method : Method;
  url : string;
  authorization : string;
  body : string
}.

(** A response: the status code, the body that [io.ReadAll] yields and
    the error, if any, with which reading it ends. *)
Record Response := {
  StatusCode : Z;
  Body : string;
  ReadError : option string
}.

(** What the client acts on: the requests handed to the HTTP client so
    far, and the files below the working directory. *)
Record Net := {
  sent : list Request;
  files : gmap string string
}.

Section Client.

(** The Go library and the outside: the JSON encodings of the two
    request bodies and the decoding of the [name] of a created memo,
    [http.NewRequest] (which refuses a malformed URL), the exchange
    itself, the three time layouts, and the file system calls. *)
Variable marshalContent : string -> string.
Variable marshalDisplayTime : string -> string.
Variable unmarshalName : string -> result string.
Variable NewRequest_error : string -> option string.
Variable httpDo : list Request -> Request -> result Response.
Variable format_RFC3339 : Z -> string.
Variable format_fileName : Z -> string.
Variable format_created : Z -> string.
Variable MkdirAll_error : gmap string string -> string -> option string.
Variable WriteFile_error : gmap string string -> string -> option string.

Definition statusOK (resp : Response) : bool :=
  negb ((StatusCode resp <? 200)%Z || (300 <=? StatusCode resp)%Z).

(** [httpClient.Do(req)]: the request is recorded. *)
Definition Do (req : Request) (n : Net) : result Response * Net :=
  (httpDo (sent n) req, {| sent := sent n ++ [req]; files := files n |}).

(** [filepath.Join("./dry-run-output", filename)]; the file name is made
    of digits, hyphens and ".md", so joining only drops the "./". *)
Definition dryRunPath (createdTime : Z) : string :=
  "dry-run-output/" +:+ format_fileName createdTime +:+ ".md".

Definition dryRunContent (content : string) (createdTime : Z) : string :=
  "---" +:+ Bytes.nl +:+ "Created: " +:+ format_created createdTime +:+ Bytes.nl
  +:+ "Dry Run: true" +:+ Bytes.nl +:+ "---" +:+ Bytes.nl +:+ Bytes.nl +:+ content.

Definition saveDryRunMemo (content : string) (createdTime : Z) (n : Net)
    : result unit * Net :=
  match MkdirAll_error (files n) "./dry-run-output" with
  | Some e => (Err (wrapErr "failed to create dry-run output directory" e), n)
  | None =>
      let filepath := dryRunPath createdTime in
      let fullContent := dryRunContent content createdTime in
      match WriteFile_error (files n) filepath with
      | Some e => (Err (wrapErr "failed to write dry-run file" e), n)
      | None => (Ok tt, {| sent := sent n; files := <[filepath := fullContent]> (files n) |})
      end
  end.

Definition postRequest (c : Client) (content : string) : Request :=
  {| method := POST; url := baseURL c +:+ "/api/v1/memos";
     authorization := "Bearer " +:+ token c; body := marshalContent content |}.

Definition patchRequest (c : Client) (name : string) (createdTime : Z) : Request :=
  {| method := PATCH; url := baseURL c +:+ "/api/v1/" +:+ name;
     authorization := "Bearer " +:+ token c;
     body := marshalDisplayTime (format_RFC3339 createdTime) |}.

(** [fmt.Errorf("<what> with status %d: %s", status, body)] *)
Definition statusError (what : string) (resp : Response) : string :=
  what +:+ " with status " +:+ pretty (StatusCode resp) +:+ ": " +:+ Body resp.

(** [CreateMemo] of the client that creates a memo and then sets its
    display time. [json.Marshal] of the two request structs, which hold
    one string each, does not fail; its error branches are left out. *)
Definition CreateMemo (c : Client) (content : string) (createdTime : Z) (dryRun : bool)
    (n : Net) : result unit * Net :=
  if dryRun then saveDryRunMemo content createdTime n
  else
    let httpReq := postRequest c content in
    match NewRequest_error (url httpReq) with
    | Some e => (Err (wrapErr "failed to create request" e), n)
    | None =>
        match Do httpReq n with
        | (Err e, n1) => (Err (wrapErr "request failed" e), n1)
        | (Ok resp, n1) =>
            if negb (statusOK resp) then (Err (statusError "API request failed" resp), n1)
            else
              match ReadError resp with
              | Some e => (Err (wrapErr "failed to read response" e), n1)
              | None =>
                  match unmarshalName (Body resp) with
                  | Err e => (Err (wrapErr "failed to decode response" e), n1)
                  | Ok name =>
                      let patchReq := patchRequest c name createdTime in
                      match NewRequest_error (url patchReq) with
                      | Some e => (Err (wrapErr "failed to create patch request" e), n1)
                      | None =>
                          match Do patchReq n1 with
                          | (Err e, n2) => (Err (wrapErr "patch request failed" e), n2)
                          | (Ok patchResp, n2) =>
                              if negb (statusOK patchResp)
                              then (Err (statusError "patch request failed" patchResp), n2)
                              else (Ok tt, n2)
                          end
                      end
                  end
              end
        end
    end.

(** A status is accepted exactly from 200 to 299. *)
Lemma statusOK_range (resp : Response) :
  statusOK resp = true <-> (200 <= StatusCode resp < 300)%Z.
Proof.
  unfold statusOK. rewrite negb_true_iff, orb_false_iff, Z.ltb_ge, Z.leb_gt. lia.
Qed.

(** A memo is created in two steps, and [CreateMemo] succeeds exactly
    when both go through: the POST is accepted (status 200 to 299) with
    a readable body that names the memo, and the PATCH that sets the
    display time of that memo is accepted. At most these two requests
    are sent, the PATCH only after such a POST, and no file is
    written. *)
Theorem CreateMemo_two_steps (c : Client) (content : string) (createdTime : Z)
    (n n' : Net) (r : result unit) :
  CreateMemo c content createdTime false n = (r, n') ->
  files n' = files n /\
  (r = Ok tt <->
   exists resp name patchResp,
     NewRequest_error (url (postRequest c content)) = None /\
     httpDo (sent n) (postRequest c content) = Ok resp /\
     (200 <= StatusCode resp < 300)%Z /\ ReadError resp = None /\
     unmarshalName (Body resp) = Ok name /\
     NewRequest_error (url (patchRequest c name createdTime)) = None /\
     httpDo (sent n ++ [postRequest c content]) (patchRequest c name createdTime)
     = Ok patchResp /\
     (200 <= StatusCode patchResp < 300)%Z) /\
  (sent n' = sent n \/
   sent n' = sent n ++ [postRequest c content] \/
   exists resp name,
     httpDo (sent n) (postRequest c content) = Ok resp /\
     (200 <= StatusCode resp < 300)%Z /\
     unmarshalName (Body resp) = Ok name /\
     sent n' = sent n ++ [postRequest c content; patchRequest c name createdTime]).
Proof.
  unfold CreateMemo, Do. cbn [sent files].
  destruct (NewRequest_error (url (postRequest c content))) as [e|] eqn:Hnew.
  { intros [= <- <-]. split; [done |]. split; [| by left].
    split; [done |]. intros (? & ? & ? & ? & _). done. }
  destruct (httpDo (sent n) (postRequest c content)) as [resp|e] eqn:Hpost.
  2:{ intros [= <- <-]. split; [done |]. split; [| right; by left].
      split; [done |]. intros (? & ? & ? & _ & ? & _). done. }
  destruct (statusOK resp) eqn:Hok; cbn [negb].
  2:{ intros [= <- <-]. split; [done |]. split; [| right; by left].
      split; [done |]. intros (resp' & ? & ? & _ & [= <-] & Hr%statusOK_range & _).
      congruence. }
  apply statusOK_range in Hok.
  destruct (ReadError resp) as [e|] eqn:Hread.
  { intros [= <- <-]. split; [done |]. split; [| right; by left].
    split; [done |]. intros (resp' & ? & ? & _ & [= <-] & _ & ? & _). congruence. }
  destruct (unmarshalName (Body resp)) as [name|e] eqn:Hname.
  2:{ intros [= <- <-]. split; [done |]. split; [| right; by left].
      split; [done |]. intros (resp' & ? & ? & _ & [= <-] & _ & _ & ? & _). congruence. }
  destruct (NewRequest_error (url (patchRequest c name createdTime))) as [e|] eqn:Hnew2.
  { intros [= <- <-]. split; [done |]. split; [| right; by left].
    split; [done |].
    intros (resp' & name' & ? & _ & [= <-] & _ & _ & Hn & ? & _).
    rewrite Hname in Hn. injection Hn as <-. congruence. }
  destruct (httpDo (sent n ++ [postRequest c content]) (patchRequest c name createdTime))
    as [patchResp|e] eqn:Hpatch.
  2:{ intros [= <- <-]. split; [done |]. split.
      - split; [done |].
        intros (resp' & name' & ? & _ & [= <-] & _ & _ & Hn & _ & ? & _).
        rewrite Hname in Hn. injection Hn as <-. congruence.
      - right; right. exists resp, name. cbn. by rewrite <- app_assoc. }
  destruct (statusOK patchResp) eqn:Hok2; cbn [negb]; intros [= <- <-];
    (split; [done |]); (split; [| right; right; exists resp, name; cbn;
                                  by rewrite <- app_assoc]).
  - split; [| done]. intros _. apply statusOK_range in Hok2.
    by exists resp, name, patchResp.
  - split; [done |].
    intros (resp' & name' & patchResp' & _ & [= <-] & _ & _ & Hn & _ & Hp & Hr).
    rewrite Hname in Hn. injection Hn as <-. rewrite Hpatch in Hp. injection Hp as <-.
    apply statusOK_range in Hr. congruence.
Qed.

(** When the POST is accepted and names the memo but the PATCH is
    refused, [CreateMemo] returns an error although the memo exists on
    the target: both requests were sent, and the error is the one of
    the PATCH. *)
Theorem CreateMemo_patch_refused (c : Client) (content : string) (createdTime : Z)
    (n : Net) (resp patchResp : Response) (name : string) :
  NewRequest_error (url (postRequest c content)) = None ->
  httpDo (sent n) (postRequest c content) = Ok resp ->
  (200 <= StatusCode resp < 300)%Z -> ReadError resp = None ->
  unmarshalName (Body resp) = Ok name ->
  NewRequest_error (url (patchRequest c name createdTime)) = None ->
  httpDo (sent n ++ [postRequest c content]) (patchRequest c name createdTime)
  = Ok patchResp ->
  ~ (200 <= StatusCode patchResp < 300)%Z ->
  CreateMemo c content createdTime false n
  = (Err ("patch request failed with status " +:+ pretty (StatusCode patchResp) +:+ ": "
          +:+ Body patchResp),
     {| sent := sent n ++ [postRequest c content; patchRequest c name createdTime];
        files := files n |}).
Proof.
  intros Hnew Hpost Hok Hread Hname Hnew2 Hpatch Hrefused.
  unfold CreateMemo, Do. cbn [sent files].
  rewrite Hnew, Hpost. apply statusOK_range in Hok. rewrite Hok. cbn [negb].
  rewrite Hread, Hname, Hnew2, Hpatch.
  assert (statusOK patchResp = false) as ->.
  { destruct (statusOK patchResp) eqn:E; [| done]. by apply statusOK_range in E. }
  cbn [negb]. by rewrite <- app_assoc.
Qed.

(** A dry run sends nothing: whatever the outcome, no request is made;
    on success exactly one file is written, named after the creation
    time, holding the metadata header followed by the content, and the
    other files are left alone. *)
Theorem CreateMemo_dry_run_offline (c : Client) (content : string) (createdTime : Z)
    (n n' : Net) (r : result unit) :
  CreateMemo c content createdTime true n = (r, n') ->
  sent n' = sent n /\
  (r = Ok tt ->
   files n' !! dryRunPath createdTime = Some (dryRunContent content createdTime) /\
   forall path, path <> dryRunPath createdTime -> files n' !! path = files n !! path).
Proof.
  unfold CreateMemo, saveDryRunMemo.
  destruct (MkdirAll_error _ _); [by intros [= <- <-] |].
  destruct (WriteFile_error _ _); [by intros [= <- <-] |].
  intros [= <- <-]. split; [done |]. intros _. cbn. split.
  - by rewrite lookup_insert_eq.
  - intros path Hne. by rewrite lookup_insert_ne.
Qed.

(** Dry-run files are named after the creation time to the second: of
    two memos saved with creation times of the same file name, the
    second replaces the first, and only its content is left. *)
Theorem saveDryRunMemo_same_second_overwrites (content1 content2 : string) (t1 t2 : Z)
    (n n1 n2 : Net) :
  format_fileName t1 = format_fileName t2 ->
  saveDryRunMemo content1 t1 n = (Ok tt, n1) ->
  saveDryRunMemo content2 t2 n1 = (Ok tt, n2) ->
  files n2 = <[dryRunPath t2 := dryRunContent content2 t2]> (files n) /\
  files n2 !! dryRunPath t1 = Some (dryRunContent content2 t2).
Proof.
  intros Hsame. unfold saveDryRunMemo.
  destruct (MkdirAll_error (files n) _); [done |].
  destruct (WriteFile_error (files n) _); [done |]. intros [= <-]. cbn [files].
  destruct (MkdirAll_error _ _); [done |].
  destruct (WriteFile_error _ _); [done |]. intros [= <-]. cbn [files].
  assert (dryRunPath t1 = dryRunPath t2) as -> by (unfold dryRunPath; by rewrite Hsame).
  split; [by rewrite insert_insert_eq | by rewrite lookup_insert_eq].
Qed.

End Client.

End Memos.

(** ** Further cases on which the statements are exercised *)

Module Cases.

(** Two pages that name each other as parent. *)
Definition ping : Page := Demo.page "la" "Ping" Demo.created (Demo.under "lb").
Definition pong : Page := Demo.page "lb" "Pong" Demo.created (Demo.under "la").

Definition page_endpoint (pageID : string) : result Page :=
  if bool_decide (pageID = "la") then Ok ping
  else if bool_decide (pageID = "lb") then Ok pong
  else Demo.page_endpoint pageID.

Definition getParentTagsCached :=
  getParentTagsCached Demo.parentDatabaseID Demo.parentPageID Demo.Collection
    Demo.Collection_Title Demo.RetrieveDatabase page_endpoint.

(** A migrator that has "Projects" in its page cache. *)
Definition warm : Sys Demo.Collection :=
  {| pageCache := {[ "r" := Demo.projects ]}; databaseCache := ∅; state := ∅;
     dryRun := false; world := Demo.emptyWorld |}.

(** A search whose second request is refused, and one whose first
    response announces more pages without a cursor. *)
Definition search_refused (query : string) (cursor : option string)
    : result SearchResponse :=
  match cursor with
  | None => Ok {| Search_Results := [Demo.note]; Search_NextCursor := Some "c1";
                  Search_HasMore := true |}
  | Some _ => Err "API request failed with status 429: "
  end.

Definition search_stuck (query : string) (cursor : option string)
    : result SearchResponse :=
  Ok {| Search_Results := [Demo.note]; Search_NextCursor := None;
        Search_HasMore := true |}.

Definition children_stuck (blockID : string) (cursor : option string)
    : result BlockResponse :=
  Ok {| Block_Results := []; Block_NextCursor := None; Block_HasMore := true |}.

(** A target that refuses the second call made to it. *)
Definition refuse_second (before : list MemoCall) (content : string) (t : Z)
    (dry : bool) : option string :=
  if length before =? 1 then Some "API request failed with status 500: " else None.

Definition createSplitMemos :=
  createSplitMemos Demo.Collection refuse_second.

Definition Remove_error (f : State.File) : option string := None.

(** A disk that takes the first save and runs full in the middle of the
    next ones. *)
Definition disk_full (w : World) (processed : gmap string bool)
    : option (string * State.WriteFault) :=
  match stateFile w with
  | State.NoFile => None
  | _ => Some ("failed to write state file: no space left on device", State.Truncated)
  end.

Definition runMigrate_disk_full :=
  runMigrate Demo.parentDatabaseID Demo.parentPageID Demo.Collection Demo.Collection_Title
    Demo.RetrieveDatabase Demo.search_endpoint Demo.children_endpoint Demo.page_endpoint
    Demo.time_Parse Demo.time_Format Demo.TrimSpace Demo.time_Now Demo.CreateMemo_error
    disk_full.

Definition Migrate :=
  Migrate Demo.parentDatabaseID Demo.parentPageID Demo.Collection Demo.Collection_Title
    Demo.RetrieveDatabase Demo.search_endpoint Demo.children_endpoint Demo.page_endpoint
    Demo.time_Parse Demo.time_Format Demo.TrimSpace Demo.time_Now Demo.CreateMemo_error
    Demo.WriteFile_error.

(** A memo service that accepts the POST, names the memo "memos/7", and
    refuses the PATCH when [picky]. *)
Definition client : Memos.Client :=
  {| Memos.baseURL := "https://memos.example.com"; Memos.token := "secret" |}.

Definition marshalContent (content : string) : string := "{content}".
Definition marshalDisplayTime (displayTime : string) : string := "{displayTime}".
Definition unmarshalName (body : string) : result string := Ok "memos/7".
Definition NewRequest_error (url : string) : option string := None.

Definition httpDo (picky : bool) (before : list Memos.Request) (req : Memos.Request)
    : result Memos.Response :=
  match Memos.method req with
  | Memos.POST => Ok {| Memos.StatusCode := 200; Memos.Body := "{name}";
                        Memos.ReadError := None |}
  | Memos.PATCH =>
      Ok {| Memos.StatusCode := if picky then 400 else 299; Memos.Body := "";
            Memos.ReadError := None |}
  end.

(** File names to the second: instants are in nanoseconds. *)
Definition format_fileName (t : Z) : string := pretty (t `div` 1000000000)%Z.
Definition format_time (t : Z) : string := pretty t.
Definition fs_error (files : gmap string string) (path : string) : option string :=
  None.

Definition CreateMemo (picky : bool) :=
  Memos.CreateMemo marshalContent marshalDisplayTime unmarshalName NewRequest_error
    (httpDo picky) format_time format_fileName format_time fs_error fs_error.

Definition saveDryRunMemo :=
  Memos.saveDryRunMemo format_fileName format_time fs_error fs_error.

Definition offline : Memos.Net := {| Memos.sent := []; Memos.files := ∅ |}.

End Cases.

(** The save after "Blank" is cut short: the run ends there, the state
    file no longer holds the id of "Note", saved before, and cannot be
    loaded, so the next run ends before it attempts a page. *)
Example Cases_save_cut_short :
  Cases.runMigrate_disk_full 5 false Demo.allPages Demo.emptyWorld
  = Some (Err ("failed to save state: "
               +:+ "failed to write state file: no space left on device"),
          {| stateFile :=
               State.BadFile "failed to unmarshal state: unexpected end of JSON input";
             calls := calls Demo.afterFirstRun ≫= (fun call =>
                        if bool_decide (Bytes.take 6 (memo_content call) = "# Note")
                        then [call] else []) |}) /\
  forall w r,
    Cases.runMigrate_disk_full 5 false Demo.allPages Demo.emptyWorld = Some (r, w) ->
    Cases.runMigrate_disk_full 5 false Demo.resuming w
    = Some (Err ("failed to load state: "
                 +:+ "failed to unmarshal state: unexpected end of JSON input"), w).
Proof.
  split; [vm_compute; reflexivity |].
  intros w r H. vm_compute in H. injection H as _ <-. vm_compute. reflexivity.
Qed.

(** On the cycle the walk stops after 10 hops. *)
Example Cases_cycle_tags :
  fst <$> Cases.getParentTagsCached Cases.ping Demo.fresh
  = Some (Ok ["Ping"; "Pong"; "Ping"; "Pong"; "Ping"; "Pong"; "Ping"; "Pong"; "Ping";
              "Pong"]).
Proof. vm_compute. reflexivity. Qed.

Lemma getParentTagsCached_at_most_11_witness :
  exists tags s',
    Cases.getParentTagsCached Cases.ping Demo.fresh = Some (Ok tags, s') /\
    length tags <= 11.
Proof.
  assert (exists tags s',
             Cases.getParentTagsCached Cases.ping Demo.fresh = Some (Ok tags, s'))
    as (tags & s' & H) by (vm_compute; do 2 eexists; reflexivity).
  exists tags, s'. split; [exact H |].
  exact (getParentTagsCached_at_most_11 Demo.parentDatabaseID Demo.parentPageID
           Demo.Collection Demo.Collection_Title Demo.RetrieveDatabase Cases.page_endpoint
           Cases.ping Demo.fresh s' tags H).
Defined.

Lemma getParentTagsCached_caches_write_once_witness :
  exists r s',
    Demo.getParentTagsCached Demo.note Cases.warm = Some (r, s') /\
    pageCache Demo.Collection Cases.warm ⊆ pageCache Demo.Collection s'.
Proof.
  assert (exists r s', Demo.getParentTagsCached Demo.note Cases.warm = Some (r, s'))
    as (r & s' & H) by (vm_compute; do 2 eexists; reflexivity).
  exists r, s'. split; [exact H |].
  exact (proj1 (getParentTagsCached_caches_write_once Demo.parentDatabaseID
                  Demo.parentPageID Demo.Collection Demo.Collection_Title
                  Demo.RetrieveDatabase Demo.page_endpoint Demo.note Cases.warm s' r H)).
Defined.

Lemma Cases_warm_faithful :
  cachesFaithful Demo.Collection Demo.RetrieveDatabase Demo.page_endpoint Cases.warm.
Proof.
  split.
  - intros id p H. change (pageCache Demo.Collection Cases.warm)
      with ({[ "r" := Demo.projects ]} : gmap string Page) in H.
    apply lookup_singleton_Some in H as [<- <-]. reflexivity.
  - intros id d H. cbn in H. by rewrite lookup_empty in H.
Qed.

Lemma Demo_fresh_faithful :
  cachesFaithful Demo.Collection Demo.RetrieveDatabase Demo.page_endpoint Demo.fresh.
Proof. split; intros id x H; cbn in H; by rewrite lookup_empty in H. Qed.

Lemma getParentTagsCached_cache_transparent_witness :
  cachesFaithful Demo.Collection Demo.RetrieveDatabase Demo.page_endpoint Cases.warm /\
  cachesFaithful Demo.Collection Demo.RetrieveDatabase Demo.page_endpoint Demo.fresh /\
  fst <$> Demo.getParentTagsCached Demo.note Cases.warm
  = fst <$> Demo.getParentTagsCached Demo.note Demo.fresh.
Proof.
  pose proof Cases_warm_faithful as H1. pose proof Demo_fresh_faithful as H2.
  split; [exact H1 |]. split; [exact H2 |].
  exact (getParentTagsCached_cache_transparent Demo.parentDatabaseID Demo.parentPageID
           Demo.Collection Demo.Collection_Title Demo.RetrieveDatabase Demo.page_endpoint
           Demo.note Cases.warm Demo.fresh H1 H2).
Defined.

Lemma paginated_fetch_error_discards_witness :
  pagesThenError Cases.search_refused "" "API request failed with status 429: " None
    [[Demo.note]] /\
  blocksThenError Demo.children_endpoint_429 "g" "API request failed with status 429: "
    None [] /\
  SearchPages Cases.search_refused 2 "" = Some (Err "API request failed with status 429: ") /\
  RetrieveBlocks Demo.children_endpoint_429 1 "g"
  = Some (Err "API request failed with status 429: ").
Proof.
  assert (pagesThenError Cases.search_refused ""
            "API request failed with status 429: " None [[Demo.note]]) as H1.
  { apply (pagesThenError_later _ _ _ None
             {| Search_Results := [Demo.note]; Search_NextCursor := Some "c1";
                Search_HasMore := true |}); [reflexivity | reflexivity |].
    apply pagesThenError_now. reflexivity. }
  assert (blocksThenError Demo.children_endpoint_429 "g"
            "API request failed with status 429: " None []) as H2.
  { apply blocksThenError_now. reflexivity. }
  split; [exact H1 |]. split; [exact H2 |].
  destruct (paginated_fetch_error_discards Cases.search_refused Demo.children_endpoint_429)
    as [Hs Hb].
  split.
  - exact (Hs "" _ _ H1 2 (le_n 2)).
  - exact (Hb "g" _ _ H2 1 (le_n 1)).
Defined.

Lemma paginated_fetch_repeats_cursor_witness :
  SearchPages Cases.search_stuck 1000 "" = None /\
  RetrieveBlocks Cases.children_stuck 1000 "g" = None.
Proof.
  destruct (paginated_fetch_repeats_cursor Cases.search_stuck Cases.children_stuck)
    as [Hs Hb].
  split.
  - exact (Hs "" None _ eq_refl eq_refl eq_refl 1000 []).
  - exact (Hb "g" None _ eq_refl eq_refl eq_refl 1000 []).
Defined.

Lemma createSplitMemos_stops_at_failure_witness :
  exists e s' k e' new,
    createSplitMemos Demo.Collection Cases.refuse_second (longContent "T") "T" 0%Z
      Demo.fresh = Some (Err e, s') /\
    calls (world Demo.Collection s') = calls (world Demo.Collection Demo.fresh) ++ new /\
    length new = S k /\
    e = wrapErr ("failed to create memo part " +:+ pretty (k + 1)) e'.
Proof.
  assert (exists e s',
             createSplitMemos Demo.Collection Cases.refuse_second (longContent "T") "T"
               0%Z Demo.fresh = Some (Err e, s')) as (e & s' & H)
    by (vm_compute; do 2 eexists; reflexivity).
  destruct (createSplitMemos_stops_at_failure Demo.Collection Cases.refuse_second
              (longContent "T") "T" 0%Z Demo.fresh s' e H)
    as (parts & k & part & e' & new & _ & _ & Hcalls & Hlen & _ & _ & He).
  exists e, s', k, e', new. split; [exact H |]. split; [exact Hcalls |].
  split; [exact Hlen | exact He].
Defined.

(** The second part is the one refused: two calls are made. *)
Example Cases_second_part_refused :
  (fun r => (fst r, length (calls (world Demo.Collection (snd r)))))
  <$> Cases.createSplitMemos (longContent "T") "T" 0%Z Demo.fresh
  = Some (Err "failed to create memo part 2: API request failed with status 500: ", 2).
Proof. vm_compute. reflexivity. Qed.

Lemma runMigrate_carries_flag_witness :
  Demo.runMigrate 5 false Demo.allPages Demo.emptyWorld = Some (Ok tt, Demo.afterFirstRun) /\
  exists new, calls Demo.afterFirstRun = calls Demo.emptyWorld ++ new /\
              Forall (fun call => memo_dryRun call = false) new.
Proof.
  assert (Demo.runMigrate 5 false Demo.allPages Demo.emptyWorld
          = Some (Ok tt, Demo.afterFirstRun)) as H by (vm_compute; reflexivity).
  split; [exact H |].
  exact (runMigrate_carries_flag Demo.parentDatabaseID Demo.parentPageID
           Demo.Collection Demo.Collection_Title Demo.RetrieveDatabase Demo.search_endpoint
           Demo.children_endpoint Demo.page_endpoint Demo.time_Parse Demo.time_Format
           Demo.TrimSpace Demo.time_Now Demo.CreateMemo_error Demo.WriteFile_error
           5 false Demo.allPages Demo.emptyWorld Demo.afterFirstRun (Ok tt) H).
Defined.

Lemma Migrate_marks_prefix_witness :
  SearchPages Demo.search_endpoint 5 "" = Some (Ok [Demo.note; Demo.blank; Demo.groceries]) /\
  exists r s',
    Cases.Migrate 5 Demo.allPages Demo.fresh = Some (r, s') /\
    forall id, State.IsProcessed (state Demo.Collection Demo.fresh) id = true ->
               State.IsProcessed (state Demo.Collection s') id = true.
Proof.
  assert (SearchPages Demo.search_endpoint 5 ""
          = Some (Ok [Demo.note; Demo.blank; Demo.groceries])) as H1 by reflexivity.
  assert (exists r s', Cases.Migrate 5 Demo.allPages Demo.fresh = Some (r, s'))
    as (r & s' & H2) by (vm_compute; do 2 eexists; reflexivity).
  split; [exact H1 |]. exists r, s'. split; [exact H2 |].
  destruct (Migrate_marks_prefix Demo.parentDatabaseID Demo.parentPageID
              Demo.Collection Demo.Collection_Title Demo.RetrieveDatabase
              Demo.search_endpoint Demo.children_endpoint Demo.page_endpoint
              Demo.time_Parse Demo.time_Format Demo.TrimSpace Demo.time_Now
              Demo.CreateMemo_error Demo.WriteFile_error
              5 Demo.allPages Demo.fresh s' r _ H1 H2)
    as (done & rest & _ & _ & _ & Hmono & _).
  exact Hmono.
Defined.

Lemma runMigrate_resume_from_nothing_witness :
  (forall st, State.LoadState (stateFile Demo.emptyWorld) = Ok st ->
              forall id, State.IsProcessed st id = false) /\
  Demo.runMigrate 5 false Demo.resuming Demo.emptyWorld
  = Demo.runMigrate 5 false Demo.allPages Demo.emptyWorld.
Proof.
  assert (forall st, State.LoadState (stateFile Demo.emptyWorld) = Ok st ->
                     forall id, State.IsProcessed st id = false) as H.
  { intros st [= <-] id. reflexivity. }
  split; [exact H |].
  exact (runMigrate_resume_from_nothing Demo.parentDatabaseID Demo.parentPageID
           Demo.Collection Demo.Collection_Title Demo.RetrieveDatabase Demo.search_endpoint
           Demo.children_endpoint Demo.page_endpoint Demo.time_Parse Demo.time_Format
           Demo.TrimSpace Demo.time_Now Demo.CreateMemo_error Demo.WriteFile_error
           5 false [] Demo.emptyWorld H).
Defined.

Lemma ClearStateFile_forgets_witness :
  ClearStateFile Cases.Remove_error (State.Stored {[ "n" := true ]}) = Ok State.NoFile /\
  State.LoadState State.NoFile = Ok State.NewState.
Proof.
  assert (ClearStateFile Cases.Remove_error (State.Stored {[ "n" := true ]})
          = Ok State.NoFile) as H by reflexivity.
  split; [exact H |].
  exact (proj1 (proj2 (proj2
    (ClearStateFile_forgets Demo.parentDatabaseID Demo.parentPageID
       Demo.Collection Demo.Collection_Title Demo.RetrieveDatabase Demo.search_endpoint
       Demo.children_endpoint Demo.page_endpoint Demo.time_Parse Demo.time_Format
       Demo.TrimSpace Demo.time_Now Demo.CreateMemo_error Demo.WriteFile_error
       Cases.Remove_error _ _ H)))).
Defined.

Lemma CreateMemo_two_steps_witness :
  exists r n',
    Cases.CreateMemo false Cases.client "hello" 0%Z false Cases.offline = (r, n') /\
    Memos.files n' = Memos.files Cases.offline.
Proof.
  assert (exists r n',
             Cases.CreateMemo false Cases.client "hello" 0%Z false Cases.offline
             = (r, n')) as (r & n' & H)
    by (vm_compute; do 2 eexists; reflexivity).
  exists r, n'. split; [exact H |].
  exact (proj1 (Memos.CreateMemo_two_steps Cases.marshalContent Cases.marshalDisplayTime
                  Cases.unmarshalName Cases.NewRequest_error (Cases.httpDo false)
                  Cases.format_time Cases.format_fileName Cases.format_time
                  Cases.fs_error Cases.fs_error
                  Cases.client "hello" 0%Z Cases.offline n' r H)).
Defined.

(** Both steps go through on the obliging service. *)
Example Cases_memo_created :
  Cases.CreateMemo false Cases.client "hello" 0%Z false Cases.offline
  = (Ok tt,
     {| Memos.sent :=
          [ {| Memos.method := Memos.POST;
               Memos.url := "https://memos.example.com/api/v1/memos";
               Memos.authorization := "Bearer secret"; Memos.body := "{content}" |};
            {| Memos.method := Memos.PATCH;
               Memos.url := "https://memos.example.com/api/v1/memos/7";
               Memos.authorization := "Bearer secret";
               Memos.body := "{displayTime}" |} ];
        Memos.files := ∅ |}).
Proof. vm_compute. reflexivity. Qed.

Lemma CreateMemo_patch_refused_witness :
  fst (Cases.CreateMemo true Cases.client "hello" 0%Z false Cases.offline)
  = Err "patch request failed with status 400: ".
Proof.
  pose proof (Memos.CreateMemo_patch_refused Cases.marshalContent Cases.marshalDisplayTime
                Cases.unmarshalName Cases.NewRequest_error (Cases.httpDo true)
                Cases.format_time Cases.format_fileName Cases.format_time
                Cases.fs_error Cases.fs_error
                Cases.client "hello" 0%Z Cases.offline
                {| Memos.StatusCode := 200; Memos.Body := "{name}";
                   Memos.ReadError := None |}
                {| Memos.StatusCode := 400; Memos.Body := "";
                   Memos.ReadError := None |}
                "memos/7" eq_refl eq_refl ltac:(cbn; lia) eq_refl eq_refl eq_refl eq_refl
                ltac:(cbn; lia)) as H.
  unfold Cases.CreateMemo. rewrite H. reflexivity.
Defined.

Lemma CreateMemo_dry_run_offline_witness :
  exists r n',
    Cases.CreateMemo false Cases.client "hello" 0%Z true Cases.offline = (r, n') /\
    Memos.sent n' = Memos.sent Cases.offline.
Proof.
  assert (exists r n',
             Cases.CreateMemo false Cases.client "hello" 0%Z true Cases.offline
             = (r, n')) as (r & n' & H)
    by (vm_compute; do 2 eexists; reflexivity).
  exists r, n'. split; [exact H |].
  exact (proj1 (Memos.CreateMemo_dry_run_offline Cases.marshalContent
                  Cases.marshalDisplayTime Cases.unmarshalName Cases.NewRequest_error
                  (Cases.httpDo false) Cases.format_time Cases.format_fileName
                  Cases.format_time Cases.fs_error Cases.fs_error
                  Cases.client "hello" 0%Z Cases.offline n' r H)).
Defined.

Lemma saveDryRunMemo_same_second_overwrites_witness :
  exists n1 n2,
    Cases.format_fileName 1000000000 = Cases.format_fileName 1500000000 /\
    Cases.saveDryRunMemo "first" 1000000000%Z Cases.offline = (Ok tt, n1) /\
    Cases.saveDryRunMemo "second" 1500000000%Z n1 = (Ok tt, n2) /\
    Memos.files n2
    !! Memos.dryRunPath Cases.format_fileName 1000000000
    = Some (Memos.dryRunContent Cases.format_time "second" 1500000000).
Proof.
  assert (Cases.format_fileName 1000000000 = Cases.format_fileName 1500000000) as Hsame
    by (vm_compute; reflexivity).
  assert (exists n1, Cases.saveDryRunMemo "first" 1000000000%Z Cases.offline = (Ok tt, n1))
    as (n1 & H1) by (eexists; reflexivity).
  assert (exists n2, Cases.saveDryRunMemo "second" 1500000000%Z n1 = (Ok tt, n2))
    as (n2 & H2) by (eexists; reflexivity).
  exists n1, n2. split; [exact Hsame |]. split; [exact H1 |]. split; [exact H2 |].
  exact (proj2 (Memos.saveDryRunMemo_same_second_overwrites Cases.format_fileName
                  Cases.format_time Cases.fs_error Cases.fs_error
                  "first" "second" 1000000000%Z 1500000000%Z Cases.offline n1 n2
                  Hsame H1 H2)).
Defined.

Lemma migratePage_single_memo_witness :
  exists s',
    Demo.migratePage 5 Demo.groceries Demo.fresh = Some (Ok tt, s') /\
    calls (world Demo.Collection s')
    = [{| memo_content :=
            "# Groceries" +:+ Bytes.nl +:+ Bytes.nl
            +:+ "<!-- Created: 2024-03-01 10:00:00 -->" +:+ Bytes.nl +:+ Bytes.nl
            +:+ "Milk" +:+ Bytes.nl +:+ Bytes.nl +:+ "Eggs";
          memo_time := 1709287200000000000%Z; memo_dryRun := false;
          memo_error := None |}].
Proof.
  destruct (migratePage_single_memo Demo.parentDatabaseID Demo.parentPageID
              Demo.Collection Demo.Collection_Title Demo.RetrieveDatabase
              Demo.children_endpoint Demo.page_endpoint Demo.time_Parse Demo.time_Format
              Demo.TrimSpace Demo.time_Now Demo.CreateMemo_error
              5 Demo.groceries Demo.fresh Demo.fresh
              [Demo.paragraph "g1" "Milk"; Demo.paragraph "g3" "Eggs"] []
              ("# Groceries" +:+ Bytes.nl +:+ Bytes.nl
               +:+ "<!-- Created: 2024-03-01 10:00:00 -->" +:+ Bytes.nl +:+ Bytes.nl
               +:+ "Milk" +:+ Bytes.nl +:+ Bytes.nl +:+ "Eggs")
              eq_refl ltac:(discriminate) eq_refl eq_refl ltac:(discriminate)
              ltac:(apply Nat.leb_le; vm_compute; reflexivity))
    as (s' & Hrun & Hcalls & _).
  exists s'. split; [exact Hrun | exact Hcalls].
Defined.
